(** * obsidian-fit: the sync engine and its encrypted content addressing

    A shallow embedding of [encryption.ts], [fitTypes.ts], [fit.ts] and
    [fitSync.ts].  JavaScript strings are carried by [string]; a
    [Uint8Array] or [ArrayBuffer] is a [list byte]; a
    [Record<string, string>] is a [gmap string string].  Asynchronous
    methods that talk to the vault, to GitHub or to the persistence
    callback are programs over a signature of commands ([Prog]); what the
    platform computes without side effect (hashing, ciphers, compression,
    text encoding) is a field of [Platform]. *)

From Stdlib Require Import Strings.String Strings.Ascii Strings.Byte.
From Stdlib Require Import Lists.List Arith.PeanoNat Bool.Bool.
From stdpp Require Import base option list gmap strings fin_maps.

Open Scope string_scope.

(* ===================================================================== *)
(** * Part I: definitions                                                *)
(* ===================================================================== *)

(** ** [btoa] and [atob]

    The two browser built-ins used by [arrayBufferToBase64Url] and
    [base64UrlToArrayBuffer].  A binary string (all code units below 256)
    is exactly a [string]. *)
Module Base64.

Definition alphabet : string :=
  "ABCDEFGHIJKLMNOPQRSTUVWXYZabcdefghijklmnopqrstuvwxyz0123456789+/".

(** Six bits, most significant first. *)
Definition sextet : Type := (bool * bool * bool * bool * bool * bool)%type.

Definition sextet_index (x : sextet) : nat :=
  let '(b5, b4, b3, b2, b1, b0) := x in
  32 * Nat.b2n b5 + 16 * Nat.b2n b4 + 8 * Nat.b2n b3
  + 4 * Nat.b2n b2 + 2 * Nat.b2n b1 + Nat.b2n b0.

Definition index_sextet (n : nat) : sextet :=
  (Nat.testbit n 5, Nat.testbit n 4, Nat.testbit n 3,
   Nat.testbit n 2, Nat.testbit n 1, Nat.testbit n 0).

Fixpoint index_of (c : ascii) (s : string) : option nat :=
  match s with
  | EmptyString => None
  | String d r => if Ascii.eqb c d then Some 0 else S <$> index_of c r
  end.

Definition enc6 (x : sextet) : ascii :=
  match String.get (sextet_index x) alphabet with
  | Some c => c
  | None => "A"%char
  end.

Definition dec6 (c : ascii) : option sextet :=
  index_sextet <$> index_of c alphabet.

Definition pad : ascii := "="%char.

(** [btoa]: three bytes become four characters; a last group of one or
    two bytes is padded with [=]. *)
Fixpoint btoa (s : string) : string :=
  match s with
  | EmptyString => EmptyString
  | String (Ascii a0 a1 a2 a3 a4 a5 a6 a7) EmptyString =>
      String (enc6 (a7, a6, a5, a4, a3, a2))
     (String (enc6 (a1, a0, false, false, false, false))
     (String pad (String pad EmptyString)))
  | String (Ascii a0 a1 a2 a3 a4 a5 a6 a7)
     (String (Ascii b0 b1 b2 b3 b4 b5 b6 b7) EmptyString) =>
      String (enc6 (a7, a6, a5, a4, a3, a2))
     (String (enc6 (a1, a0, b7, b6, b5, b4))
     (String (enc6 (b3, b2, b1, b0, false, false))
     (String pad EmptyString)))
  | String (Ascii a0 a1 a2 a3 a4 a5 a6 a7)
     (String (Ascii b0 b1 b2 b3 b4 b5 b6 b7)
     (String (Ascii c0 c1 c2 c3 c4 c5 c6 c7) r)) =>
      String (enc6 (a7, a6, a5, a4, a3, a2))
     (String (enc6 (a1, a0, b7, b6, b5, b4))
     (String (enc6 (b3, b2, b1, b0, c7, c6))
     (String (enc6 (c5, c4, c3, c2, c1, c0)) (btoa r))))
  end.

(** ASCII whitespace: TAB, LF, FF, CR, SPACE. *)
Definition is_whitespace (c : ascii) : bool :=
  Ascii.eqb c "009" || Ascii.eqb c "010" || Ascii.eqb c "012"
  || Ascii.eqb c "013" || Ascii.eqb c " ".

Fixpoint remove_whitespace (s : string) : string :=
  match s with
  | EmptyString => EmptyString
  | String c r =>
      if is_whitespace c then remove_whitespace r
      else String c (remove_whitespace r)
  end.

(** Remove the last character when it is [=]. *)
Fixpoint drop_last_pad (s : string) : string :=
  match s with
  | EmptyString => EmptyString
  | String c EmptyString => if Ascii.eqb c pad then EmptyString else s
  | String c r => String c (drop_last_pad r)
  end.

(** When the length is a multiple of four, one or two trailing [=] are
    removed. *)
Definition strip_padding (s : string) : string :=
  if Nat.eqb (String.length s mod 4) 0
  then drop_last_pad (drop_last_pad s) else s.

(** The decoding loop: four characters give three bytes; a remainder of
    two characters gives one byte (four bits discarded), of three
    characters two bytes (two bits discarded); a remainder of one
    character, or a character outside the alphabet, is a failure. *)
Fixpoint decode_groups (s : string) : option string :=
  match s with
  | EmptyString => Some EmptyString
  | String _ EmptyString => None
  | String x (String y EmptyString) =>
      '(a7, a6, a5, a4, a3, a2) ← dec6 x;
      '(a1, a0, _, _, _, _) ← dec6 y;
      Some (String (Ascii a0 a1 a2 a3 a4 a5 a6 a7) EmptyString)
  | String x (String y (String z EmptyString)) =>
      '(a7, a6, a5, a4, a3, a2) ← dec6 x;
      '(a1, a0, b7, b6, b5, b4) ← dec6 y;
      '(b3, b2, b1, b0, _, _) ← dec6 z;
      Some (String (Ascii a0 a1 a2 a3 a4 a5 a6 a7)
           (String (Ascii b0 b1 b2 b3 b4 b5 b6 b7) EmptyString))
  | String x (String y (String z (String w r))) =>
      '(a7, a6, a5, a4, a3, a2) ← dec6 x;
      '(a1, a0, b7, b6, b5, b4) ← dec6 y;
      '(b3, b2, b1, b0, c7, c6) ← dec6 z;
      '(c5, c4, c3, c2, c1, c0) ← dec6 w;
      t ← decode_groups r;
      Some (String (Ascii a0 a1 a2 a3 a4 a5 a6 a7)
           (String (Ascii b0 b1 b2 b3 b4 b5 b6 b7)
           (String (Ascii c0 c1 c2 c3 c4 c5 c6 c7) t)))
  end.

(** The strings made of characters of the alphabet only. *)
Fixpoint all_alphabet (s : string) : bool :=
  match s with
  | EmptyString => true
  | String c r => bool_decide (is_Some (dec6 c)) && all_alphabet r
  end.

(** [atob]: [None] stands for the [InvalidCharacterError] it throws. *)
Definition atob (s : string) : option string :=
  decode_groups (strip_padding (remove_whitespace s)).

End Base64.

(** ** String helpers of the JavaScript standard library *)
Module JS.

(** [s.replace(/c/g, d)] for a single character [c]. *)
Fixpoint replace_all (c d : ascii) (s : string) : string :=
  match s with
  | EmptyString => EmptyString
  | String x r =>
      String (if Ascii.eqb x c then d else x) (replace_all c d r)
  end.

(** [s.replace(/c+$/, '')]: the trailing run of [c] is removed. *)
Fixpoint strip_trailing (c : ascii) (s : string) : string :=
  match s with
  | EmptyString => EmptyString
  | String x r =>
      match strip_trailing c r with
      | EmptyString => if Ascii.eqb x c then EmptyString
                       else String x EmptyString
      | r' => String x r'
      end
  end.

(** [s.replace(/c/g, '')]. *)
Fixpoint remove_all (c : ascii) (s : string) : string :=
  match s with
  | EmptyString => EmptyString
  | String x r =>
      if Ascii.eqb x c then remove_all c r else String x (remove_all c r)
  end.

(** What [replace(/\+/g, '-').replace(/\//g, '_')] does to one character,
    and what [replace(/-/g, '+').replace(/_/g, '/')] does. *)
Definition to_url (c : ascii) : ascii :=
  let c1 := if Ascii.eqb c "+" then "-"%char else c in
  if Ascii.eqb c1 "/" then "_"%char else c1.

Definition of_url (c : ascii) : ascii :=
  let c1 := if Ascii.eqb c "-" then "+"%char else c in
  if Ascii.eqb c1 "_" then "/"%char else c1.

(** The token that [arrayBufferToBase64Url] makes of a binary string. *)
Definition url_token (s : string) : string :=
  strip_trailing "=" (replace_all "/" "_" (replace_all "+" "-" (Base64.btoa s))).

(** [s.startsWith(p)]. *)
Definition startsWith (s p : string) : bool := String.prefix p s.

End JS.

(** ** The platform

    What the code obtains from [TextEncoder], [pako], [crypto.subtle],
    [base64-js] and the [obsidian] module, as far as these are pure. *)
Record Platform : Type := {
  (** [new TextEncoder().encode(s)] *)
  utf8_encode : string -> list byte;
  (** [new TextDecoder().decode(b)]: the default decoder never throws *)
  utf8_decode : list byte -> string;
  (** [deflate] and [inflate] of pako; [inflate] throws on malformed data *)
  pako_deflate : list byte -> list byte;
  pako_inflate : list byte -> option (list byte);
  (** [crypto.subtle.digest("SHA-256", b)] and [("SHA-1", b)] *)
  sha256 : list byte -> list byte;
  sha1 : list byte -> list byte;
  (** the AES block cipher: key, 16-byte block *)
  aes_block : list byte -> list byte -> list byte;
  (** AES-GCM of [crypto.subtle]: key, iv, data; decryption fails when the
      tag does not authenticate *)
  aes_gcm_encrypt : list byte -> list byte -> list byte -> list byte;
  aes_gcm_decrypt : list byte -> list byte -> list byte -> option (list byte);
  (** [base64js.fromByteArray] and [base64js.toByteArray] (which throws on
      a length that is no multiple of four) *)
  fromByteArray : list byte -> string;
  toByteArray : string -> option (list byte);
  (** [arrayBufferToBase64] of the obsidian module *)
  arrayBufferToBase64 : list byte -> string;
}.

(** ** fitTypes.ts *)

Inductive LocalFileStatus : Type := deleted | created | changed.
Inductive RemoteChangeType : Type := ADDED | MODIFIED | REMOVED.

#[global] Instance LocalFileStatus_eq_dec : EqDecision LocalFileStatus.
Proof. solve_decision. Defined.
#[global] Instance RemoteChangeType_eq_dec : EqDecision RemoteChangeType.
Proof. solve_decision. Defined.

Module LocalChange.
Record t : Type := { path : string; status : LocalFileStatus }.
End LocalChange.

Module LocalUpdate.
Record t : Type := {
  localChanges : list LocalChange.t;
  parentCommitSha : string;
}.
End LocalUpdate.

Module RemoteChange.
Record t : Type := {
  path : string;
  status : RemoteChangeType;
  currentSha : option string;
}.
End RemoteChange.

Module ClashStatus.
Record t : Type := {
  path : string;
  localStatus : LocalFileStatus;
  remoteStatus : RemoteChangeType;
}.
End ClashStatus.

Module RemoteUpdate.
Record t : Type := {
  remoteChanges : list RemoteChange.t;
  remoteTreeSha : gmap string string;
  latestRemoteCommitSha : string;
  clashedFiles : list ClashStatus.t;
}.
End RemoteUpdate.

(** The union type [ConflictReport]: one constructor per variant, told
    apart by [resolutionStrategy]. *)
Module ConflictReport.
Inductive t : Type :=
| Utf8 (path localContent remoteContent : string)
| Binary (path remoteContent : string).

Definition resolutionStrategy (r : t) : string :=
  match r with
  | Utf8 _ _ _ => "utf-8"
  | Binary _ _ => "binary"
  end.

Definition path (r : t) : string :=
  match r with
  | Utf8 p _ _ => p
  | Binary p _ => p
  end.

Definition remoteContent (r : t) : string :=
  match r with
  | Utf8 _ _ c => c
  | Binary _ c => c
  end.
End ConflictReport.

(** [FileOpRecord] has the fields of [LocalChange]; the code passes values
    of the one where the other is declared, so they are one type here. *)
Module FileOpRecord.
Definition t : Type := LocalChange.t.
Definition path : t -> string := LocalChange.path.
Definition status : t -> LocalFileStatus := LocalChange.status.
Definition make (path : string) (status : LocalFileStatus) : t :=
  {| LocalChange.path := path; LocalChange.status := status |}.
End FileOpRecord.

Module ConflictResolutionResult.
Record t : Type := {
  path : string;
  noDiff : bool;
  fileOp : option FileOpRecord.t;
}.
End ConflictResolutionResult.

(** [LocalStores] of main.ts as fit.ts and fitSync.ts use it, and
    [Partial<LocalStores>]. *)
Module LocalStores.
Record t : Type := {
  localSha : gmap string string;
  lastFetchedCommitSha : option string;
  lastFetchedRemoteSha : gmap string string;
}.
End LocalStores.

Module PartialLocalStores.
Record t : Type := {
  localSha : option (gmap string string);
  lastFetchedCommitSha : option string;
  lastFetchedRemoteSha : option (gmap string string);
}.
End PartialLocalStores.

(** ** fit.ts: [TreeNode] *)

Inductive TreeMode : Type := m100644 | m100755 | m040000 | m160000 | m120000.
Inductive TreeType : Type := commit | blob | tree.

#[global] Instance TreeMode_eq_dec : EqDecision TreeMode.
Proof. solve_decision. Defined.
#[global] Instance TreeType_eq_dec : EqDecision TreeType.
Proof. solve_decision. Defined.

Module TreeNode.
Record t : Type := {
  path : string;
  mode : option TreeMode;
  type : option TreeType;
  sha : option string;
}.
End TreeNode.

(** ** Effects

    A thrown value: an [Error] with its message, and for an
    [OctokitHttpError] its status and source. *)
Module Error.
Record t : Type := {
  message : string;
  status : option nat;
  source : option string;
}.
End Error.

Inductive Outcome (A : Type) : Type :=
| Ok (a : A)
| Thrown (e : Error.t).
Arguments Ok {A} a.
Arguments Thrown {A} e.

(** A handle on a file of the vault, as [getTFile] returns it. *)
Module TFile.
Record t : Type := { path : string }.
End TFile.

(** What [fitPush.createCommitFromLocalUpdate] and
    [fitPush.pushChangedFilesToRemote] resolve to when something was
    pushed. *)
Module CreateCommitResult.
Record t : Type := {
  createdCommitSha : string;
  pushedChanges : list LocalChange.t;
}.
End CreateCommitResult.

Module PushResult.
Record t : Type := {
  pushedChanges : list LocalChange.t;
  lastFetchedRemoteSha : gmap string string;
  lastFetchedCommitSha : string;
}.
End PushResult.

(** The calls that leave fit.ts and fitSync.ts.  The vault and its
    operations ([vaultOps.ts]), the pull and push helpers ([fitPull.ts],
    [fitPush.ts]), the persistence callback and the notice are
    collaborators: each call is a command, answered by the environment.
    What [console.error] prints is not recorded. *)
Inductive Cmd : Type -> Type :=
(* the vault *)
| VaultGetFiles : Cmd (list string)
| GetTFile (path : string) : Cmd TFile.t
| ReadBinary (file : TFile.t) : Cmd (list byte)
| EnsureFolderExists (path : string) : Cmd unit
| WriteToLocal (path content : string) : Cmd unit
| UpdateLocalFiles (addToLocal : list (string * string))
    (deleteFromLocal : list string) : Cmd (list FileOpRecord.t)
(* crypto.getRandomValues(new Uint8Array(n)) *)
| GetRandomValues (n : nat) : Cmd (list byte)
(* new Date().toLocaleString() *)
| DateToLocaleString : Cmd string
(* octokit.request, one command per route, with the part of the response
   that is read *)
| GET_ref (ref : string) : Cmd string
| GET_trees (tree_sha : string) : Cmd (list TreeNode.t)
| GET_commits (ref : string) : Cmd string
| POST_blobs (content encoding : string) : Cmd string
| POST_trees (nodes : list TreeNode.t) (base_tree : string) : Cmd string
| POST_commits (message treeSha : string) (parents : list string) : Cmd string
| PATCH_refs (ref sha : string) : Cmd string
| GET_blobs (file_sha : string) : Cmd string
(* fitPull and fitPush *)
| PrepareChangesToExecute (remoteChanges : list RemoteChange.t)
  : Cmd (list (string * string) * list string)
| PullRemoteToLocal (remoteUpdate : RemoteUpdate.t) : Cmd (list FileOpRecord.t)
| CreateCommitFromLocalUpdate (localUpdate : LocalUpdate.t)
    (remoteTree : list TreeNode.t) : Cmd (option CreateCommitResult.t)
| PushChangedFilesToRemote (localUpdate : LocalUpdate.t)
  : Cmd (option PushResult.t)
(* saveLocalStoreCallback *)
| SaveLocalStore (localStore : PartialLocalStores.t) : Cmd unit
(* syncNotice.setMessage *)
| SetMessage (message : string) : Cmd unit.

(** An asynchronous computation: it returns, throws, or issues a command
    and goes on with its outcome. *)
Inductive Prog (A : Type) : Type :=
| Ret (a : A)
| Throw (e : Error.t)
| Call {R : Type} (c : Cmd R) (k : Outcome R -> Prog A).
Arguments Ret {A} a.
Arguments Throw {A} e.
Arguments Call {A R} c k.

Fixpoint bind {A B : Type} (p : Prog A) (f : A -> Prog B) : Prog B :=
  match p with
  | Ret a => f a
  | Throw e => Throw e
  | Call c k => Call c (fun o => bind (k o) f)
  end.

(** [await c]: a rejected promise throws at the [await]. *)
Definition call {R : Type} (c : Cmd R) : Prog R :=
  Call c (fun o => match o with Ok r => Ret r | Thrown e => Throw e end).

(** A call whose promise is not awaited: its outcome is dropped. *)
Definition call_detached {R : Type} (c : Cmd R) : Prog unit :=
  Call c (fun _ => Ret tt).

(** [try { p } catch (e) { h e }] *)
Fixpoint try_catch {A : Type} (p : Prog A) (h : Error.t -> Prog A) : Prog A :=
  match p with
  | Ret a => Ret a
  | Throw e => h e
  | Call c k => Call c (fun o => try_catch (k o) h)
  end.

Declare Scope prog_scope.
Delimit Scope prog_scope with prog.
Notation "'let!' x ':=' p 'in' q" := (bind p (fun x => q))
  (at level 10, x name, p at level 100, q at level 200) : prog_scope.
Notation "'let!' ' x ':=' p 'in' q" := (bind p (fun x => q))
  (at level 10, x strict pattern, p at level 100, q at level 200) : prog_scope.
Notation "'do!' p 'in' q" := (bind p (fun _ => q))
  (at level 10, p at level 100, q at level 200) : prog_scope.
Open Scope prog_scope.

(** [await Promise.all(ps)], the promises taken one after the other. *)
Fixpoint Promise_all {A : Type} (ps : list (Prog A)) : Prog (list A) :=
  match ps with
  | [] => Ret []
  | p :: r => let! y := p in let! ys := Promise_all r in Ret (y :: ys)
  end.

(** Running a program: the environment is a state and a handler that
    answers each command; the commands issued are recorded in order. *)
Inductive Event : Type :=
| Ev {R : Type} (c : Cmd R).

(** The calls of [saveLocalStoreCallback] in a trace. *)
Definition isSave (e : Event) : bool :=
  match e with
  | Ev c => match c with SaveLocalStore _ => true | _ => false end
  end.

(** The commands that reach the persistence callback: the callback itself,
    and [pullRemoteToLocal], which is handed it. *)
Definition persists {R : Type} (c : Cmd R) : bool :=
  match c with
  | SaveLocalStore _ => true
  | PullRemoteToLocal _ => true
  | _ => false
  end.

Definition notifies {R : Type} (c : Cmd R) : bool :=
  match c with
  | SetMessage _ => true
  | _ => false
  end.

(** Programs that never reach the callback; programs that only set
    notices; programs that reach the callback at most once and only set
    notices afterwards. *)
Inductive NeverPersists {A : Type} : Prog A -> Prop :=
| NeverPersists_Ret (a : A) : NeverPersists (Ret a)
| NeverPersists_Throw (e : Error.t) : NeverPersists (Throw e)
| NeverPersists_Call (R : Type) (c : Cmd R) (k : Outcome R -> Prog A) :
    persists c = false -> (forall o, NeverPersists (k o)) ->
    NeverPersists (Call c k).

Inductive OnlyNotifies {A : Type} : Prog A -> Prop :=
| OnlyNotifies_Ret (a : A) : OnlyNotifies (Ret a)
| OnlyNotifies_Throw (e : Error.t) : OnlyNotifies (Throw e)
| OnlyNotifies_Call (R : Type) (c : Cmd R) (k : Outcome R -> Prog A) :
    notifies c = true -> (forall o, OnlyNotifies (k o)) ->
    OnlyNotifies (Call c k).

Inductive PersistsLast {A : Type} : Prog A -> Prop :=
| PersistsLast_Ret (a : A) : PersistsLast (Ret a)
| PersistsLast_Throw (e : Error.t) : PersistsLast (Throw e)
| PersistsLast_Call (R : Type) (c : Cmd R) (k : Outcome R -> Prog A) :
    persists c = false -> (forall o, PersistsLast (k o)) ->
    PersistsLast (Call c k)
| PersistsLast_Persist (R : Type) (c : Cmd R) (k : Outcome R -> Prog A) :
    persists c = true -> (forall o, OnlyNotifies (k o)) ->
    PersistsLast (Call c k).

Definition reachesCallback (e : Event) : bool :=
  match e with Ev c => persists c end.

Definition isNotice (e : Event) : bool :=
  match e with Ev c => notifies c end.

Definition Handler (St : Type) : Type :=
  forall R : Type, Cmd R -> St -> Outcome R * St.

Fixpoint run {St A : Type} (h : Handler St) (p : Prog A) (s : St)
  : Outcome A * St * list Event :=
  match p with
  | Ret a => (Ok a, s, [])
  | Throw e => (Thrown e, s, [])
  | Call c k =>
      let '(o, s1) := h _ c s in
      let '(r, s2, tr) := run h (k o) s1 in
      (r, s2, Ev c :: tr)
  end.

(** ** encryption.ts *)
Module Encryption.

Record CryptoKey : Type := { algorithm : string; raw : list byte }.

Definition xor_byte (a b : byte) : byte :=
  let '(a0, (a1, (a2, (a3, (a4, (a5, (a6, a7))))))) := Byte.to_bits a in
  let '(b0, (b1, (b2, (b3, (b4, (b5, (b6, b7))))))) := Byte.to_bits b in
  Byte.of_bits (xorb a0 b0, (xorb a1 b1, (xorb a2 b2, (xorb a3 b3,
               (xorb a4 b4, (xorb a5 b5, (xorb a6 b6, xorb a7 b7))))))).

(** Big-endian reading and writing of a block. *)
Definition be_to_N (l : list byte) : N :=
  fold_left (fun acc b => (acc * 256 + Byte.to_N b)%N) l 0%N.

Fixpoint N_to_be (len : nat) (n : N) : list byte :=
  match len with
  | O => []
  | S k =>
      (N_to_be k (n / 256)%N
       ++ [match Byte.of_N (n mod 256)%N with Some b => b | None => x00 end])%list
  end.

(** The [i]-th counter block of AES-CTR: the rightmost [len] bits of the
    initial block count upwards and wrap around, the other bits stay. *)
Definition counter_block (counter : list byte) (len : N) (i : N)
  : list byte :=
  let n := be_to_N counter in
  let nonce := (n / 2 ^ len)%N in
  let ctr := ((n mod 2 ^ len + i) mod 2 ^ len)%N in
  N_to_be (List.length counter) (nonce * 2 ^ len + ctr)%N.

(** The class: its only state is the plugin, of which it reads
    [settings.key]. *)
Record t : Type := { settings_key : string }.

(** [IV = new Uint8Array(16)] *)
Definition IV : list byte := repeat x00 16.

Section WithPlatform.
Context (P : Platform).

Definition keystream_byte (key : CryptoKey) (counter : list byte)
    (len : N) (i : nat) : byte :=
  nth (i mod 16)
      (aes_block P (raw key) (counter_block counter len (N.of_nat (i / 16))))
      x00.

(** [crypto.subtle.encrypt] and [crypto.subtle.decrypt] with
    [{name: 'AES-CTR', counter, length}]: both add the key stream. *)
Definition aes_ctr (key : CryptoKey) (counter : list byte) (len : N)
    (data : list byte) : list byte :=
  imap (fun i b => xor_byte b (keystream_byte key counter len i)) data.

Definition importKey (this : t) (alg : string) : CryptoKey :=
  let hashBuffer := sha256 P (utf8_encode P (settings_key this)) in
  {| algorithm := alg; raw := hashBuffer |}.

Definition arrayBufferToBase64Url (buffer : list byte) : string :=
  let base64 := string_of_list_byte buffer in
  JS.strip_trailing "="
    (JS.replace_all "/" "_" (JS.replace_all "+" "-" (Base64.btoa base64))).

Definition base64UrlToArrayBuffer (base64Url : string)
  : option (list byte) :=
  let base64 := JS.replace_all "_" "/" (JS.replace_all "-" "+" base64Url) in
  binaryString ← Base64.atob base64;
  Some (list_byte_of_string binaryString).

Definition encryptPath (this : t) (path : string) : string :=
  let compressed := pako_deflate P (utf8_encode P path) in
  let encrypted := aes_ctr (importKey this "AES-CTR") IV 64 compressed in
  arrayBufferToBase64Url encrypted.

(** [None]: the promise is rejected ([atob] or [inflate] threw). *)
Definition decryptPath (this : t) (data : string) : option string :=
  encryptedBytes ← base64UrlToArrayBuffer data;
  let decrypted :=
    aes_ctr (importKey this "AES-CTR") IV 64 encryptedBytes in
  decompressed ← pako_inflate P decrypted;
  Some (utf8_decode P decompressed).

Definition generateIV : Prog (list byte) := call (GetRandomValues 12).

Definition encrypt (this : t) (plainText : string) : Prog string :=
  let key := importKey this "AES-GCM" in
  let! iv := generateIV in
  let encodedText := utf8_encode P plainText in
  let cipherBuffer := aes_gcm_encrypt P (raw key) iv encodedText in
  let combined := (iv ++ cipherBuffer)%list in
  Ret (fromByteArray P combined).

(** [None]: the promise is rejected ([toByteArray] or [crypto.subtle.decrypt]
    threw). *)
Definition decrypt (this : t) (base64Content : string) : option string :=
  let key := importKey this "AES-GCM" in
  combined ← toByteArray P base64Content;
  let iv := take 12 combined in
  let ciphertext := drop 12 combined in
  plainBuffer ← aes_gcm_decrypt P (raw key) iv ciphertext;
  Some (utf8_decode P plainBuffer).

(** The paths the round trip is claimed for: those that text encoding
    and decoding give back (well-formed, no leading byte-order mark). *)
Definition valid_path (path : string) : Prop :=
  utf8_decode P (utf8_encode P path) = path.

(** The contract of pako. *)
Definition inflate_inverts_deflate : Prop :=
  forall b, pako_inflate P (pako_deflate P b) = Some b.

End WithPlatform.
End Encryption.

(** A platform one can compute with: text is carried as its bytes, the
    compressor stores its input behind a two-byte header, the hashes are
    the identity, the block cipher returns the head of the key, and AES-GCM
    appends a one-byte tag; only used to run the definitions on examples. *)
Module Sample.
Definition stored_deflate (b : list byte) : list byte := x78 :: x01 :: b.
Definition stored_inflate (b : list byte) : option (list byte) :=
  match b with
  | x78 :: x01 :: r => Some r
  | _ => None
  end.

Definition platform : Platform := {|
  utf8_encode := list_byte_of_string;
  utf8_decode := string_of_list_byte;
  pako_deflate := stored_deflate;
  pako_inflate := stored_inflate;
  sha256 := fun b => b;
  sha1 := fun b => b;
  aes_block := fun key block => firstn 16 (key ++ repeat x2a 16)%list;
  aes_gcm_encrypt := fun key iv data => (data ++ [x47])%list;
  aes_gcm_decrypt := fun key iv data =>
    match rev data with
    | x47 :: r => Some (rev r)
    | _ => None
    end;
  fromByteArray := fun b => Base64.btoa (string_of_list_byte b);
  toByteArray := fun s =>
    if Nat.eqb (String.length s mod 4) 0
    then list_byte_of_string <$> Base64.atob s else None;
  arrayBufferToBase64 := fun b => Base64.btoa (string_of_list_byte b);
|}.

Definition encryption : Encryption.t := {| Encryption.settings_key := "secret" |}.
End Sample.

(** ** utils.ts *)
Module Utils.

(** The three ways a path can differ between two fingerprint maps. *)
Inductive ChangeKind : Type :=
| OnlyInCurrent
| OnlyInPrevious
| DifferentFingerprint.

(** Modelled from the spec: the classification of one path by [compareSha]
    (utils.ts is not among the sources); spec 3, Change:
    "present-only-in-current -> created/ADDED; present-only-in-previous ->
    deleted/REMOVED; present-in-both-with-different-fingerprint ->
    changed/MODIFIED". *)
Definition changeKind (current previous : option string) : option ChangeKind :=
  match current, previous with
  | Some c, Some p => if decide (c = p) then None else Some DifferentFingerprint
  | Some _, None => Some OnlyInCurrent
  | None, Some _ => Some OnlyInPrevious
  | None, None => None
  end.

(** Modelled from the spec: [compareSha] of utils.ts, which is not among
    the sources; spec 4.3: "diff(current: FingerprintMap, previous:
    FingerprintMap, side) -> Change[]. Pure function, order-independent
    result".  The changes are listed in the order of the paths of the two
    maps. *)
Definition compareSha (currentShaMap storedShaMap : gmap string string)
  : list (string * ChangeKind) :=
  omap (fun path =>
          kind ← changeKind (currentShaMap !! path) (storedShaMap !! path);
          Some (path, kind))
       (elements (dom currentShaMap ∪ dom storedShaMap)).

Definition localStatus (k : ChangeKind) : LocalFileStatus :=
  match k with
  | OnlyInCurrent => created
  | OnlyInPrevious => deleted
  | DifferentFingerprint => changed
  end.

Definition remoteStatus (k : ChangeKind) : RemoteChangeType :=
  match k with
  | OnlyInCurrent => ADDED
  | OnlyInPrevious => REMOVED
  | DifferentFingerprint => MODIFIED
  end.

(** Modelled from the spec: [compareSha(current, stored, "local")], with
    the local vocabulary of spec 3 (created, deleted, changed). *)
Definition compareSha_local (currentShaMap storedShaMap : gmap string string)
  : list LocalChange.t :=
  (fun '(path, kind) =>
     {| LocalChange.path := path; LocalChange.status := localStatus kind |})
  <$> compareSha currentShaMap storedShaMap.

(** Modelled from the spec: [compareSha(current, stored, "remote")], with
    the remote vocabulary of spec 3 (ADDED, REMOVED, MODIFIED); a Change of
    the spec is a path and a kind, so [currentSha] is left unset. *)
Definition compareSha_remote (currentShaMap storedShaMap : gmap string string)
  : list RemoteChange.t :=
  (fun '(path, kind) =>
     {| RemoteChange.path := path; RemoteChange.status := remoteStatus kind;
        RemoteChange.currentSha := None |})
  <$> compareSha currentShaMap storedShaMap.

End Utils.

(** ** fit.ts *)
Module Fit.

(** The fields of the class that the methods below read. *)
Record t : Type := {
  branch : string;
  deviceName : string;
  localSha : gmap string string;
  lastFetchedCommitSha : option string;
  lastFetchedRemoteSha : gmap string string;
  encryption : Encryption.t;
}.

Definition OctokitHttpError (message : string) (status : option nat)
    (source : string) : Error.t :=
  {| Error.message := message; Error.status := status;
     Error.source := Some source |}.

Definition JsError (message : string) : Error.t :=
  {| Error.message := message; Error.status := None; Error.source := None |}.

(** [Object.fromEntries]: a later entry overrides an earlier one. *)
Definition fromEntries (entries : list (string * string)) : gmap string string :=
  fold_left (fun m e => <[e.1 := e.2]> m) entries ∅.

(** [array.indexOf(x)]; [None] is -1. *)
Fixpoint indexOf (l : list string) (x : string) : option nat :=
  match l with
  | [] => None
  | y :: r => if decide (y = x) then Some 0 else S <$> indexOf r x
  end.

(** [b.toString(16).padStart(2, '0')] *)
Definition hexDigit (n : N) : ascii :=
  match String.get (N.to_nat n) "0123456789abcdef" with
  | Some c => c
  | None => "0"%char
  end.

Definition toHex (b : byte) : string :=
  let n := Byte.to_N b in
  String (hexDigit (n / 16)) (String (hexDigit (n mod 16)) EmptyString).

Section WithPlatform.
Context (P : Platform).

Definition fileSha1 (fileContent : string) : string :=
  let hashBuf := sha1 P (utf8_encode P fileContent) in
  String.concat "" (toHex <$> hashBuf).

Definition computeFileLocalSha (path : string) : Prog string :=
  let! file := call (GetTFile path) in
  let! bin := call (ReadBinary file) in
  let content := arrayBufferToBase64 P bin in
  Ret (fileSha1 (path ++ content)).

(** [.filter(Boolean)] drops the [null] of the ignored paths, and an empty
    string. *)
Definition computeLocalSha : Prog (gmap string string) :=
  let! files := call VaultGetFiles in
  let paths :=
    filter (fun p => JS.startsWith p "_fit/" = false /\ p <> "") files in
  let! entries :=
    Promise_all
      ((fun p => let! sha := computeFileLocalSha p in Ret (p, sha)) <$> paths) in
  Ret (fromEntries entries).

Definition getRef (ref : string) : Prog string :=
  try_catch (call (GET_ref ref))
    (fun error => Throw (OctokitHttpError (Error.message error)
                           (Error.status error) "getRef")).

Definition getLatestRemoteCommitSha (this : t) : Prog string :=
  getRef ("heads/" ++ branch this).

Definition remoteUpdated (this : t) : Prog (string * bool) :=
  let! remoteCommitSha := getLatestRemoteCommitSha this in
  Ret (remoteCommitSha,
       bool_decide (Some remoteCommitSha <> lastFetchedCommitSha this)).

Definition getLocalChanges (this : t)
    (currentLocalSha : option (gmap string string)) : Prog (list LocalChange.t) :=
  let! currentLocalSha :=
    match currentLocalSha with
    | Some m => Ret m
    | None => computeLocalSha
    end in
  let localChanges := Utils.compareSha_local currentLocalSha (localSha this) in
  Ret localChanges.

Definition getRemoteChanges (this : t) (remoteTreeSha : gmap string string)
  : Prog (list RemoteChange.t) :=
  let remoteChanges :=
    Utils.compareSha_remote remoteTreeSha (lastFetchedRemoteSha this) in
  Ret remoteChanges.

(** [None]: reading [.status] of [undefined] throws a [TypeError]. *)
Definition getClashedChanges (localChanges : list LocalChange.t)
    (remoteChanges : list RemoteChange.t) : option (list ClashStatus.t) :=
  let localChangePaths := LocalChange.path <$> localChanges in
  let remoteChangePaths := RemoteChange.path <$> remoteChanges in
  let clashedFiles :=
    omap id
      (imap (fun localIndex path =>
               match indexOf remoteChangePaths path with
               | Some remoteIndex => Some (path, localIndex, remoteIndex)
               | None => None
               end) localChangePaths) in
  mapM (fun '(path, localIndex, remoteIndex) =>
          l ← localChanges !! localIndex;
          r ← remoteChanges !! remoteIndex;
          Some {| ClashStatus.path := path;
                  ClashStatus.localStatus := LocalChange.status l;
                  ClashStatus.remoteStatus := RemoteChange.status r |})
       clashedFiles.

Definition getCommitTreeSha (ref : string) : Prog string :=
  call (GET_commits ref).

(** The loop assigns the decrypted path to each node in place; when
    [decryptPath] throws, the [catch] logs and the loop goes on. *)
Definition decryptNodePath (this : t) (node : TreeNode.t) : TreeNode.t :=
  match Encryption.decryptPath P (encryption this) (TreeNode.path node) with
  | Some path =>
      {| TreeNode.path := path; TreeNode.mode := TreeNode.mode node;
         TreeNode.type := TreeNode.type node; TreeNode.sha := TreeNode.sha node |}
  | None => node
  end.

Definition getTree (this : t) (tree_sha : string) : Prog (list TreeNode.t) :=
  let! arr := call (GET_trees tree_sha) in
  Ret (decryptNodePath this <$> arr).

(** The callback of the [map] in [getRemoteTreeSha]. *)
Definition remoteShaEntry (node : TreeNode.t) : Outcome (option (string * string)) :=
  if decide (TreeNode.type node = Some blob) then
    match TreeNode.sha node with
    | Some sha =>
        if decide (TreeNode.path node = "" \/ sha = "") then
          Thrown (JsError "Path or sha not found for blob node in remote")
        else if JS.startsWith (TreeNode.path node) "_fit/" then Ok None
        else Ok (Some (TreeNode.path node, sha))
    | None => Thrown (JsError "Path or sha not found for blob node in remote")
    end
  else Ok None.

Fixpoint remoteShaEntries (nodes : list TreeNode.t)
  : Outcome (list (option (string * string))) :=
  match nodes with
  | [] => Ok []
  | node :: r =>
      match remoteShaEntry node with
      | Thrown e => Thrown e
      | Ok x =>
          match remoteShaEntries r with
          | Thrown e => Thrown e
          | Ok xs => Ok (x :: xs)
          end
      end
  end.

Definition getRemoteTreeSha (this : t) (tree_sha : string)
  : Prog (gmap string string) :=
  let! remoteTree := getTree this tree_sha in
  match remoteShaEntries remoteTree with
  | Thrown e => Throw e
  | Ok entries => Ret (fromEntries (omap id entries))
  end.

Definition createBlob (this : t) (content encoding : string) : Prog string :=
  let! encrypted := Encryption.encrypt P (encryption this) content in
  call (POST_blobs encrypted encoding).

Definition createTreeNodeFromFile (this : t) (change : LocalChange.t)
    (remoteTree : list TreeNode.t) : Prog (option TreeNode.t) :=
  let path := LocalChange.path change in
  let status := LocalChange.status change in
  if decide (status = deleted) then
    if forallb (fun node => bool_decide (TreeNode.path node <> path)) remoteTree
    then Ret None
    else Ret (Some {| TreeNode.path := path; TreeNode.mode := Some m100644;
                      TreeNode.type := Some blob; TreeNode.sha := None |})
  else
    let! file := call (GetTFile path) in
    let! fileArrayBuf := call (ReadBinary file) in
    let binaryString := string_of_list_byte fileArrayBuf in
    let content := Base64.btoa binaryString in
    let encoding := "base64" in
    let! blobSha := createBlob this content encoding in
    if existsb (fun node => bool_decide (TreeNode.path node = path)
                            && bool_decide (TreeNode.sha node = Some blobSha))
               remoteTree
    then Ret None
    else Ret (Some {| TreeNode.path := path; TreeNode.mode := Some m100644;
                      TreeNode.type := Some blob; TreeNode.sha := Some blobSha |}).

Definition encryptNodePath (this : t) (node : TreeNode.t) : TreeNode.t :=
  {| TreeNode.path := Encryption.encryptPath P (encryption this) (TreeNode.path node);
     TreeNode.mode := TreeNode.mode node; TreeNode.type := TreeNode.type node;
     TreeNode.sha := TreeNode.sha node |}.

Definition createTree (this : t) (treeNodes : list TreeNode.t)
    (base_tree_sha : string) : Prog string :=
  call (POST_trees (encryptNodePath this <$> treeNodes) base_tree_sha).

Definition createCommit (this : t) (treeSha parentSha : string) : Prog string :=
  let! date := call DateToLocaleString in
  let message := "Commit from " ++ deviceName this ++ " on " ++ date in
  call (POST_commits message treeSha [parentSha]).

Definition updateRef (this : t) (sha : string) : Prog string :=
  call (PATCH_refs ("heads/" ++ branch this) sha).

(** The [try] covers the removal of the newlines and the decryption; the
    [catch] logs and returns the content as it was fetched. *)
Definition getBlob (this : t) (file_sha : string) : Prog string :=
  let! content := call (GET_blobs file_sha) in
  let data := JS.remove_all "010" content in
  match Encryption.decrypt P (encryption this) data with
  | Some plainText => Ret plainText
  | None => Ret content
  end.

End WithPlatform.
End Fit.

(** ** fitSync.ts *)
Module FitSync.

Inductive PreSyncCheckResultType : Type :=
| inSync
| onlyLocalChanged
| onlyRemoteChanged
| onlyRemoteCommitShaChanged
| localAndRemoteChangesCompatible
| localAndRemoteChangesClashed.

#[global] Instance PreSyncCheckResultType_eq_dec :
  EqDecision PreSyncCheckResultType.
Proof. solve_decision. Defined.

Inductive PreSyncCheckResult : Type :=
| InSync
| Changes (status : PreSyncCheckResultType)
    (remoteUpdate : RemoteUpdate.t)
    (localChanges : list LocalChange.t)
    (localTreeSha : gmap string string).

Definition status (r : PreSyncCheckResult) : PreSyncCheckResultType :=
  match r with
  | InSync => inSync
  | Changes st _ _ _ => st
  end.

Module ResolveConflictsResult.
Record t : Type := {
  noConflict : bool;
  unresolvedFiles : list ClashStatus.t;
  fileOpsRecord : list FileOpRecord.t;
}.
End ResolveConflictsResult.

(** What [sync] resolves to when it is not [void]. *)
Module SyncResult.
Record t : Type := {
  ops : list (string * list FileOpRecord.t);
  clash : list ClashStatus.t;
}.
End SyncResult.

(** A value read out of a [Record<string, string>] is a string or
    [undefined]; it is truthy when it is a non-empty string. *)
Definition truthy (x : option string) : bool :=
  match x with
  | Some s => bool_decide (s <> "")
  | None => false
  end.

(** An [undefined] parameter of a route is expanded to the empty string. *)
Definition routeParameter (x : option string) : string := default "" x.

Section WithPlatform.
Context (P : Platform).
(** [removeLineEndingsFromBase64String] of utils.ts, which is not among
    the sources. *)
Context (removeLineEndingsFromBase64String : string -> string).

Definition performPreSyncChecks (fit : Fit.t) : Prog PreSyncCheckResult :=
  let! currentLocalSha := Fit.computeLocalSha P in
  let! localChanges := Fit.getLocalChanges P fit (Some currentLocalSha) in
  let! '(remoteCommitSha, remoteUpdated) := Fit.remoteUpdated fit in
  if (length localChanges =? 0)%nat && negb remoteUpdated then Ret InSync
  else
    let! remoteTreeSha := Fit.getRemoteTreeSha P fit remoteCommitSha in
    let! remoteChanges := Fit.getRemoteChanges fit remoteTreeSha in
    let! '(status, clashes) :=
      if (0 <? length localChanges)%nat && negb remoteUpdated then
        Ret (onlyLocalChanged, [])
      else if remoteUpdated && (length localChanges =? 0)%nat
              && (length remoteChanges =? 0)%nat then
        Ret (onlyRemoteCommitShaChanged, [])
      else if (length localChanges =? 0)%nat && remoteUpdated then
        Ret (onlyRemoteChanged, [])
      else
        match Fit.getClashedChanges localChanges remoteChanges with
        | None => Throw (Fit.JsError "TypeError")
        | Some clashes =>
            if (length clashes =? 0)%nat
            then Ret (localAndRemoteChangesCompatible, clashes)
            else Ret (localAndRemoteChangesClashed, clashes)
        end in
    Ret (Changes status
           {| RemoteUpdate.remoteChanges := remoteChanges;
              RemoteUpdate.remoteTreeSha := remoteTreeSha;
              RemoteUpdate.latestRemoteCommitSha := remoteCommitSha;
              RemoteUpdate.clashedFiles := clashes |}
           localChanges currentLocalSha).

Definition generateConflictReport (path localContent remoteContent : string)
  : ConflictReport.t :=
  ConflictReport.Utf8 path localContent remoteContent.

(** Neither call on [vaultOps] is awaited here. *)
Definition handleLocalDeletionConflict (path remoteContent : string)
  : Prog FileOpRecord.t :=
  let conflictResolutionFolder := "_fit" in
  do! call_detached (EnsureFolderExists conflictResolutionFolder) in
  let conflictResolutionPath := conflictResolutionFolder ++ "/" ++ path in
  do! call_detached (WriteToLocal conflictResolutionPath remoteContent) in
  Ret (FileOpRecord.make conflictResolutionPath created).

Definition resolveFileConflict (fit : Fit.t) (clash : ClashStatus.t)
    (latestRemoteFileSha : option string) : Prog ConflictResolutionResult.t :=
  let path := ClashStatus.path clash in
  if decide (ClashStatus.localStatus clash = deleted
             /\ ClashStatus.remoteStatus clash = REMOVED) then
    Ret {| ConflictResolutionResult.path := path;
           ConflictResolutionResult.noDiff := true;
           ConflictResolutionResult.fileOp := None |}
  else if decide (ClashStatus.localStatus clash = deleted) then
    let! remoteContent :=
      Fit.getBlob P fit (routeParameter latestRemoteFileSha) in
    let! fileOp := handleLocalDeletionConflict path remoteContent in
    Ret {| ConflictResolutionResult.path := path;
           ConflictResolutionResult.noDiff := false;
           ConflictResolutionResult.fileOp := Some fileOp |}
  else
    let! localFile := call (GetTFile path) in
    let! bin := call (ReadBinary localFile) in
    let localFileContent := arrayBufferToBase64 P bin in
    if truthy latestRemoteFileSha then
      let! remoteContent :=
        Fit.getBlob P fit (routeParameter latestRemoteFileSha) in
      if decide (removeLineEndingsFromBase64String remoteContent
                 <> removeLineEndingsFromBase64String localFileContent) then
        let report :=
          generateConflictReport path localFileContent remoteContent in
        let conflictResolutionFolder := "_fit" in
        let conflictResolutionPath := conflictResolutionFolder ++ "/" ++ path in
        do! call (EnsureFolderExists conflictResolutionPath) in
        do! call (WriteToLocal conflictResolutionPath
                    (ConflictReport.remoteContent report)) in
        let fileOp := FileOpRecord.make conflictResolutionPath created in
        Ret {| ConflictResolutionResult.path := path;
               ConflictResolutionResult.noDiff := false;
               ConflictResolutionResult.fileOp := Some fileOp |}
      else
        Ret {| ConflictResolutionResult.path := path;
               ConflictResolutionResult.noDiff := true;
               ConflictResolutionResult.fileOp := None |}
    else
      Ret {| ConflictResolutionResult.path := path;
             ConflictResolutionResult.noDiff := false;
             ConflictResolutionResult.fileOp := None |}.

Definition resolveConflicts (fit : Fit.t) (clashedFiles : list ClashStatus.t)
    (latestRemoteTreeSha : gmap string string)
  : Prog ResolveConflictsResult.t :=
  let! fileResolutions :=
    Promise_all
      ((fun clash =>
          resolveFileConflict fit clash
            (latestRemoteTreeSha !! ClashStatus.path clash))
       <$> clashedFiles) in
  let unresolvedFiles :=
    omap id
      (imap (fun i res =>
               if negb (ConflictResolutionResult.noDiff res)
               then clashedFiles !! i else None) fileResolutions) in
  Ret {| ResolveConflictsResult.noConflict :=
           forallb ConflictResolutionResult.noDiff fileResolutions;
         ResolveConflictsResult.unresolvedFiles := unresolvedFiles;
         ResolveConflictsResult.fileOpsRecord :=
           omap ConflictResolutionResult.fileOp fileResolutions |}.

Definition syncCompatibleChanges (fit : Fit.t) (localUpdate : LocalUpdate.t)
    (remoteUpdate : RemoteUpdate.t)
  : Prog (list FileOpRecord.t * list LocalChange.t) :=
  let! '(addToLocal, deleteFromLocal) :=
    call (PrepareChangesToExecute (RemoteUpdate.remoteChanges remoteUpdate)) in
  do! call (SetMessage "Uploading local changes") in
  let! remoteTree :=
    Fit.getTree P fit (LocalUpdate.parentCommitSha localUpdate) in
  let! createCommitResult :=
    call (CreateCommitFromLocalUpdate localUpdate remoteTree) in
  let! '(latestRemoteTreeSha, latestCommitSha, pushedChanges) :=
    match createCommitResult with
    | Some result =>
        let createdCommitSha := CreateCommitResult.createdCommitSha result in
        let! latestRefSha := Fit.updateRef fit createdCommitSha in
        let! latestRemoteTreeSha := Fit.getRemoteTreeSha P fit latestRefSha in
        Ret (latestRemoteTreeSha, createdCommitSha,
             CreateCommitResult.pushedChanges result)
    | None =>
        Ret (RemoteUpdate.remoteTreeSha remoteUpdate,
             RemoteUpdate.latestRemoteCommitSha remoteUpdate, [])
    end in
  do! call (SetMessage "Writing remote changes to local") in
  let! localFileOpsRecord :=
    call (UpdateLocalFiles addToLocal deleteFromLocal) in
  let! currentLocalSha := Fit.computeLocalSha P in
  do! call (SaveLocalStore
              {| PartialLocalStores.lastFetchedRemoteSha := Some latestRemoteTreeSha;
                 PartialLocalStores.lastFetchedCommitSha := Some latestCommitSha;
                 PartialLocalStores.localSha := Some currentLocalSha |}) in
  do! call (SetMessage "Sync successful") in
  Ret (localFileOpsRecord, pushedChanges).

Definition syncWithConflicts (fit : Fit.t) (localChanges : list LocalChange.t)
    (remoteUpdate : RemoteUpdate.t)
  : Prog (option (list ClashStatus.t * list FileOpRecord.t * list LocalChange.t)) :=
  let latestRemoteCommitSha := RemoteUpdate.latestRemoteCommitSha remoteUpdate in
  let clashedFiles := RemoteUpdate.clashedFiles remoteUpdate in
  let latestRemoteTreeSha := RemoteUpdate.remoteTreeSha remoteUpdate in
  let! resolution := resolveConflicts fit clashedFiles latestRemoteTreeSha in
  let noConflict := ResolveConflictsResult.noConflict resolution in
  let unresolvedFiles := ResolveConflictsResult.unresolvedFiles resolution in
  let fileOpsRecord := ResolveConflictsResult.fileOpsRecord resolution in
  let! '(localChangesToPush, remoteChangesToWrite) :=
    if noConflict then
      Ret (filter (fun c => ~ Exists (fun r => RemoteChange.path r = LocalChange.path c)
                              (RemoteUpdate.remoteChanges remoteUpdate))
                  localChanges,
           filter (fun c => ~ Exists (fun l => LocalChange.path l = RemoteChange.path c)
                              localChanges)
                  (RemoteUpdate.remoteChanges remoteUpdate))
    else
      do! call (SetMessage "Change conflicts detected") in
      Ret (localChanges,
           filter (fun c => ~ Exists (fun l => ClashStatus.path l = RemoteChange.path c)
                              unresolvedFiles)
                  (RemoteUpdate.remoteChanges remoteUpdate)) in
  let! '(addToLocal, deleteFromLocal) :=
    call (PrepareChangesToExecute remoteChangesToWrite) in
  let syncLocalUpdate :=
    {| LocalUpdate.localChanges := localChangesToPush;
       LocalUpdate.parentCommitSha := latestRemoteCommitSha |} in
  let! pushResult := call (PushChangedFilesToRemote syncLocalUpdate) in
  let '(pushedChanges, lastFetchedCommitSha, lastFetchedRemoteSha) :=
    match pushResult with
    | Some result =>
        (PushResult.pushedChanges result,
         PushResult.lastFetchedCommitSha result,
         PushResult.lastFetchedRemoteSha result)
    | None =>
        ([], RemoteUpdate.latestRemoteCommitSha remoteUpdate,
         RemoteUpdate.remoteTreeSha remoteUpdate)
    end in
  let! localFileOpsRecord :=
    call (UpdateLocalFiles addToLocal deleteFromLocal) in
  let! currentLocalSha := Fit.computeLocalSha P in
  do! call (SaveLocalStore
              {| PartialLocalStores.lastFetchedRemoteSha := Some lastFetchedRemoteSha;
                 PartialLocalStores.lastFetchedCommitSha := Some lastFetchedCommitSha;
                 PartialLocalStores.localSha := Some currentLocalSha |}) in
  let ops := (localFileOpsRecord ++ fileOpsRecord)%list in
  do! (if (length unresolvedFiles =? 0)%nat then
         call (SetMessage "Sync successful")
       else if existsb (fun f => bool_decide (ClashStatus.remoteStatus f <> REMOVED))
                       unresolvedFiles then
         call (SetMessage "Synced with remote, unresolved conflicts written to _fit")
       else
         call (SetMessage "Synced with remote, ignored remote deletion of locally changed files")) in
  Ret (Some (unresolvedFiles, ops, pushedChanges)).

Definition sync (fit : Fit.t) : Prog (option SyncResult.t) :=
  do! call (SetMessage "Performing pre sync checks.") in
  let! preSyncCheckResult := performPreSyncChecks fit in
  match preSyncCheckResult with
  | InSync =>
      do! call (SetMessage "Sync successful") in
      Ret None
  | Changes status remoteUpdate localChanges localTreeSha =>
      if decide (status = onlyRemoteCommitShaChanged) then
        let latestRemoteCommitSha :=
          RemoteUpdate.latestRemoteCommitSha remoteUpdate in
        do! call (SaveLocalStore
                    {| PartialLocalStores.lastFetchedRemoteSha := None;
                       PartialLocalStores.lastFetchedCommitSha :=
                         Some latestRemoteCommitSha;
                       PartialLocalStores.localSha := None |}) in
        do! call (SetMessage "Sync successful") in
        Ret None
      else if decide (status = onlyRemoteChanged) then
        let! fileOpsRecord := call (PullRemoteToLocal remoteUpdate) in
        do! call (SetMessage "Sync successful") in
        Ret (Some {| SyncResult.ops := [("Local file updates:", fileOpsRecord)];
                     SyncResult.clash := [] |})
      else
        let localUpdate :=
          {| LocalUpdate.localChanges := localChanges;
             LocalUpdate.parentCommitSha :=
               RemoteUpdate.latestRemoteCommitSha remoteUpdate |} in
        if decide (status = onlyLocalChanged) then
          do! call (SetMessage "Uploading local changes") in
          let! pushResult := call (PushChangedFilesToRemote localUpdate) in
          do! call (SetMessage "Sync successful") in
          match pushResult with
          | Some result =>
              do! call (SaveLocalStore
                          {| PartialLocalStores.localSha := Some localTreeSha;
                             PartialLocalStores.lastFetchedRemoteSha :=
                               Some (PushResult.lastFetchedRemoteSha result);
                             PartialLocalStores.lastFetchedCommitSha :=
                               Some (PushResult.lastFetchedCommitSha result) |}) in
              Ret (Some {| SyncResult.ops :=
                             [("Local file updates:", PushResult.pushedChanges result)];
                           SyncResult.clash := [] |})
          | None => Ret None
          end
        else if decide (status = localAndRemoteChangesCompatible) then
          let! '(localOps, remoteOps) :=
            syncCompatibleChanges fit localUpdate remoteUpdate in
          Ret (Some {| SyncResult.ops :=
                         [("Local file updates:", localOps);
                          ("Remote file updates:", remoteOps)];
                       SyncResult.clash := [] |})
        else if decide (status = localAndRemoteChangesClashed) then
          let! conflictResolutionResult :=
            syncWithConflicts fit (LocalUpdate.localChanges localUpdate)
              remoteUpdate in
          match conflictResolutionResult with
          | Some (unresolvedFiles, localOps, remoteOps) =>
              Ret (Some {| SyncResult.ops :=
                             [("Local file updates:", localOps);
                              ("Remote file updates:", remoteOps)];
                           SyncResult.clash := unresolvedFiles |})
          | None => Ret None
          end
        else Ret None
  end.

End WithPlatform.
End FitSync.

(** The clash that [getClashedChanges] makes of one local change: the
    first remote change of the same path, if there is one. *)
Definition clashOf (R : list RemoteChange.t) (l : LocalChange.t)
  : option ClashStatus.t :=
  j ← Fit.indexOf (RemoteChange.path <$> R) (LocalChange.path l);
  r ← R !! j;
  Some {| ClashStatus.path := LocalChange.path l;
          ClashStatus.localStatus := LocalChange.status l;
          ClashStatus.remoteStatus := RemoteChange.status r |}.

(** ** The environment

    A world is the vault, the persisted snapshot and the state of the
    remote. *)
Module World.

Record t (R : Type) : Type := {
  vault : gmap string (list byte);
  store : LocalStores.t;
  remote : R;
}.
Arguments vault {R} _.
Arguments store {R} _.
Arguments remote {R} _.

(** Modelled from the spec: the persistence callback of main.ts, which is
    not among the sources; spec 3 makes the persisted SyncSnapshot the
    three fields [localFingerprints, lastFetchedCommitId,
    lastFetchedRemoteFingerprints], and the callback writes those it is
    given. *)
Definition saveLocalStore (localStore : PartialLocalStores.t)
    (old : LocalStores.t) : LocalStores.t :=
  {| LocalStores.localSha :=
       default (LocalStores.localSha old) (PartialLocalStores.localSha localStore);
     LocalStores.lastFetchedCommitSha :=
       match PartialLocalStores.lastFetchedCommitSha localStore with
       | Some c => Some c
       | None => LocalStores.lastFetchedCommitSha old
       end;
     LocalStores.lastFetchedRemoteSha :=
       default (LocalStores.lastFetchedRemoteSha old)
               (PartialLocalStores.lastFetchedRemoteSha localStore) |}.

(** The [Fit] object as [loadLocalStore] fills it from the store. *)
Definition fit (branch deviceName : string) (encryption : Encryption.t)
    (store : LocalStores.t) : Fit.t :=
  {| Fit.branch := branch; Fit.deviceName := deviceName;
     Fit.localSha := LocalStores.localSha store;
     Fit.lastFetchedCommitSha := LocalStores.lastFetchedCommitSha store;
     Fit.lastFetchedRemoteSha := LocalStores.lastFetchedRemoteSha store;
     Fit.encryption := encryption |}.

Section Handler.
Context {R : Type}.
(** the bytes stored for a content string *)
Context (contentBytes : string -> list byte).
Context (remoteOracle :
  forall A : Type, Cmd A -> gmap string (list byte) -> R -> Outcome A * R).
Context (collaborators : forall A : Type, Cmd A -> t R -> Outcome A * t R).

Definition askRemote {A : Type} (c : Cmd A) (w : t R) : Outcome A * t R :=
  let '(o, r) := remoteOracle A c (vault w) (remote w) in
  (o, {| vault := vault w; store := store w; remote := r |}).

Definition fileNotFound (path : string) : Error.t :=
  Fit.JsError ("no file at " ++ path).

(** Modelled from the spec: the vault of vaultOps.ts, which is not among
    the sources.  Spec 6 gives it as the capabilities
    "listAllPaths()->path[]", "readBytes(path)->bytes",
    "writeBytes(path, bytes)" and "ensureFolderExists(path)", and spec 7
    lets a missing file fail the call.  GitHub, randomness, the clock and
    the push helpers are an oracle over the remote state that can read the
    vault; [updateLocalFiles] and [pullRemoteToLocal], which change the
    vault, are an oracle over the whole world. *)
Definition handler : Handler (t R) :=
  fun (A : Type) (c : Cmd A) =>
    match c in Cmd A0 return t R -> Outcome A0 * t R with
    | VaultGetFiles => fun w => (Ok (elements (dom (vault w))), w)
    | GetTFile path => fun w =>
        match vault w !! path with
        | Some _ => (Ok {| TFile.path := path |}, w)
        | None => (Thrown (fileNotFound path), w)
        end
    | ReadBinary file => fun w =>
        match vault w !! TFile.path file with
        | Some bytes => (Ok bytes, w)
        | None => (Thrown (fileNotFound (TFile.path file)), w)
        end
    | EnsureFolderExists _ => fun w => (Ok tt, w)
    | WriteToLocal path content => fun w =>
        (Ok tt, {| vault := <[path := contentBytes content]> (vault w);
                   store := store w; remote := remote w |})
    | SaveLocalStore localStore => fun w =>
        (Ok tt, {| vault := vault w;
                   store := saveLocalStore localStore (store w);
                   remote := remote w |})
    | SetMessage _ => fun w => (Ok tt, w)
    | UpdateLocalFiles a d => collaborators _ (UpdateLocalFiles a d)
    | PullRemoteToLocal u => collaborators _ (PullRemoteToLocal u)
    | GetRandomValues n => askRemote (GetRandomValues n)
    | DateToLocaleString => askRemote DateToLocaleString
    | GET_ref ref => askRemote (GET_ref ref)
    | GET_trees tree_sha => askRemote (GET_trees tree_sha)
    | GET_commits ref => askRemote (GET_commits ref)
    | POST_blobs content encoding => askRemote (POST_blobs content encoding)
    | POST_trees nodes base => askRemote (POST_trees nodes base)
    | POST_commits m t p => askRemote (POST_commits m t p)
    | PATCH_refs ref sha => askRemote (PATCH_refs ref sha)
    | GET_blobs file_sha => askRemote (GET_blobs file_sha)
    | PrepareChangesToExecute ch => askRemote (PrepareChangesToExecute ch)
    | CreateCommitFromLocalUpdate u t =>
        askRemote (CreateCommitFromLocalUpdate u t)
    | PushChangedFilesToRemote u => askRemote (PushChangedFilesToRemote u)
    end.

End Handler.
End World.

(** ** Worlds to run the code in

    A remote that answers from fixed data, on the platform of [Sample]. *)
Module Scenario.

Record Remote : Type := {
  head : string;
  listing : list TreeNode.t;
  blobs : gmap string string;
  createdBlob : string;
  pushAnswer : option PushResult.t;
}.

Definition unanswered : Error.t := Fit.JsError "not answered".

Definition oracle (A : Type) (c : Cmd A) (vault : gmap string (list byte))
    (r : Remote) : Outcome A * Remote :=
  match c in Cmd A0 return Outcome A0 * Remote with
  | GET_ref _ => (Ok (head r), r)
  | GET_trees _ => (Ok (listing r), r)
  | GET_blobs file_sha =>
      (match blobs r !! file_sha with
       | Some content => Ok content
       | None => Thrown (Fit.OctokitHttpError "Not Found" (Some 404) "getBlob")
       end, r)
  | GetRandomValues n => (Ok (repeat x00 n), r)
  | POST_blobs _ _ => (Ok (createdBlob r), r)
  | PushChangedFilesToRemote _ => (Ok (pushAnswer r), r)
  | _ => (Thrown unanswered, r)
  end.

Definition noCollaborator (A : Type) (c : Cmd A) (w : World.t Remote)
  : Outcome A * World.t Remote :=
  (Thrown unanswered, w).

Definition handler : Handler (World.t Remote) :=
  World.handler list_byte_of_string oracle noCollaborator.

Definition fit (store : LocalStores.t) : Fit.t :=
  World.fit "main" "laptop" Sample.encryption store.

(** Line endings are the characters CR and LF. *)
Definition removeLineEndings (s : string) : string :=
  JS.remove_all "013" (JS.remove_all "010" s).

Definition fingerprint (path : string) (bytes : list byte) : string :=
  Fit.fileSha1 Sample.platform
    (path ++ arrayBufferToBase64 Sample.platform bytes).

Definition emptyStore : LocalStores.t :=
  {| LocalStores.localSha := ∅;
     LocalStores.lastFetchedCommitSha := None;
     LocalStores.lastFetchedRemoteSha := ∅ |}.

(** The remote holds a file with a path in clear, as a repository set up
    with a README has it, next to a file that was pushed. *)
Definition readmeNode : TreeNode.t :=
  {| TreeNode.path := "README.md"; TreeNode.mode := Some m100644;
     TreeNode.type := Some blob; TreeNode.sha := Some "b0" |}.

Definition pushedNode : TreeNode.t :=
  {| TreeNode.path :=
       Encryption.encryptPath Sample.platform Sample.encryption "notes/a.md";
     TreeNode.mode := Some m100644;
     TreeNode.type := Some blob; TreeNode.sha := Some "b1" |}.

Definition remoteWithReadme : Remote :=
  {| head := "c1"; listing := [readmeNode; pushedNode];
     blobs := {[ "b0" := "# Fit"; "b1" := "AAAAAAAAAAAAAAAAaGVsbG9H" ]};
     createdBlob := "b2"; pushAnswer := None |}.

Definition worldWithReadme : World.t Remote :=
  {| World.vault := {[ "notes/a.md" := list_byte_of_string "hello" ]};
     World.store := emptyStore; World.remote := remoteWithReadme |}.

(** The vault is as it was at the last sync, and so is the remote. *)
Definition syncedStore : LocalStores.t :=
  {| LocalStores.localSha :=
       {[ "notes/a.md" := fingerprint "notes/a.md" (list_byte_of_string "hello") ]};
     LocalStores.lastFetchedCommitSha := Some "c1";
     LocalStores.lastFetchedRemoteSha := {[ "notes/a.md" := "b1" ]} |}.

Definition syncedRemote : Remote :=
  {| head := "c1"; listing := [pushedNode];
     blobs := {[ "b1" := "AAAAAAAAAAAAAAAAaGVsbG9H" ]};
     createdBlob := "b2"; pushAnswer := None |}.

Definition worldInSync : World.t Remote :=
  {| World.vault := {[ "notes/a.md" := list_byte_of_string "hello" ]};
     World.store := syncedStore; World.remote := syncedRemote |}.

(** The file changed here (it reads "hello") and on the remote (blob b3,
    which decrypts to the base64 of "world"). *)
Definition clashedRemote : Remote :=
  {| head := "c2"; listing := [pushedNode];
     blobs := {[ "b3" := "AAAAAAAAAAAAAAAAZDI5eWJHUT1H" ]};
     createdBlob := "b4"; pushAnswer := None |}.

Definition worldWithClash : World.t Remote :=
  {| World.vault := {[ "notes/a.md" := list_byte_of_string "hello" ]};
     World.store := emptyStore; World.remote := clashedRemote |}.

Definition clashOnNote : ClashStatus.t :=
  {| ClashStatus.path := "notes/a.md"; ClashStatus.localStatus := changed;
     ClashStatus.remoteStatus := MODIFIED |}.

(** The snapshot lists [old.md], which the vault no longer has and the
    remote tree does not list; the remote head is the last-fetched commit.
    The push helper then has nothing to push and answers [null]. *)
Definition storeWithOldFile : LocalStores.t :=
  {| LocalStores.localSha :=
       {[ "notes/a.md" := fingerprint "notes/a.md" (list_byte_of_string "hello");
          "old.md" := fingerprint "old.md" (list_byte_of_string "bye") ]};
     LocalStores.lastFetchedCommitSha := Some "c1";
     LocalStores.lastFetchedRemoteSha := {[ "notes/a.md" := "b1" ]} |}.

Definition worldAfterLocalDeletion : World.t Remote :=
  {| World.vault := {[ "notes/a.md" := list_byte_of_string "hello" ]};
     World.store := storeWithOldFile; World.remote := syncedRemote |}.

Definition deletionOfOldFile : LocalChange.t :=
  {| LocalChange.path := "old.md"; LocalChange.status := deleted |}.

End Scenario.

(** ** Further definitions, for the properties of Part III *)

(** The characters of a token of [arrayBufferToBase64Url]: letters, digits,
    [-] and [_]. *)
Definition isTokenChar (c : ascii) : bool :=
  let n := nat_of_ascii c in
  (65 <=? n)%nat && (n <=? 90)%nat
  || (97 <=? n)%nat && (n <=? 122)%nat
  || (48 <=? n)%nat && (n <=? 57)%nat
  || Ascii.eqb c "-" || Ascii.eqb c "_".

(** The characters that [base64UrlToArrayBuffer] can read: those of a
    token, [+] and [/], the padding [=], and the white space that [atob]
    drops. *)
Definition isReadable (c : ascii) : bool :=
  isTokenChar c || Ascii.eqb c "+" || Ascii.eqb c "/" || Ascii.eqb c "="
  || Base64.is_whitespace c.

(** The contracts of AES-GCM and of base64-js. *)
Definition gcm_decrypts_what_it_encrypted (P : Platform) : Prop :=
  forall key iv data,
    aes_gcm_decrypt P key iv (aes_gcm_encrypt P key iv data) = Some data.

Definition base64js_reads_back (P : Platform) : Prop :=
  forall b, toByteArray P (fromByteArray P b) = Some b.

(** The platform of [Sample] with a base64-js that writes bytes as they
    are. *)
Module Plain.
Definition platform : Platform := {|
  utf8_encode := utf8_encode Sample.platform;
  utf8_decode := utf8_decode Sample.platform;
  pako_deflate := pako_deflate Sample.platform;
  pako_inflate := pako_inflate Sample.platform;
  sha256 := sha256 Sample.platform;
  sha1 := sha1 Sample.platform;
  aes_block := aes_block Sample.platform;
  aes_gcm_encrypt := aes_gcm_encrypt Sample.platform;
  aes_gcm_decrypt := aes_gcm_decrypt Sample.platform;
  fromByteArray := string_of_list_byte;
  toByteArray := fun s => Some (list_byte_of_string s);
  arrayBufferToBase64 := arrayBufferToBase64 Sample.platform;
|}.

End Plain.

(** The error that [getRemoteTreeSha] throws. *)
Definition notFound : Error.t :=
  Fit.JsError "Path or sha not found for blob node in remote".

(** A vault that holds a note and a copy of it set aside under [_fit]. *)
Module Cases.


End Cases.

(** Programs all of whose commands are among those that [ok] allows. *)
Inductive Within (ok : Event -> bool) {A : Type} : Prog A -> Prop :=
| Within_Ret (a : A) : Within ok (Ret a)
| Within_Throw (e : Error.t) : Within ok (Throw e)
| Within_Call (R : Type) (c : Cmd R) (k : Outcome R -> Prog A) :
    ok (Ev c) = true -> (forall o, Within ok (k o)) -> Within ok (Call c k).

(** The commands that only read: the listing and the files of the vault,
    the ref and the tree of the remote. *)
Definition reads {R : Type} (c : Cmd R) : bool :=
  match c with
  | VaultGetFiles | GetTFile _ | ReadBinary _ | GET_ref _ | GET_trees _ => true
  | _ => false
  end.

Definition isRead (e : Event) : bool :=
  match e with Ev c => reads c end.

(** What the resolution of a conflict may do: read a file of the vault,
    fetch a blob, and make a folder or write a file under [_fit]. *)
Definition quarantines {R : Type} (c : Cmd R) : bool :=
  match c with
  | GetTFile _ | ReadBinary _ | GET_blobs _ => true
  | EnsureFolderExists path =>
      bool_decide (path = "_fit") || JS.startsWith path "_fit/"
  | WriteToLocal path _ => JS.startsWith path "_fit/"
  | _ => false
  end.

Definition isQuarantine (e : Event) : bool :=
  match e with Ev c => quarantines c end.

Definition isWrite (e : Event) : bool :=
  match e with
  | Ev c => match c with WriteToLocal _ _ => true | _ => false end
  end.

(** A vault that refuses to make folders and to write. *)
Module ReadOnly.

Definition refused : Error.t := Fit.JsError "read-only vault".

Definition handler : Handler (World.t Scenario.Remote) :=
  fun (A : Type) (c : Cmd A) =>
    match c in Cmd A0
          return World.t Scenario.Remote -> Outcome A0 * World.t Scenario.Remote
    with
    | EnsureFolderExists _ => fun w => (Thrown refused, w)
    | WriteToLocal _ _ => fun w => (Thrown refused, w)
    | c0 => Scenario.handler _ c0
    end.

End ReadOnly.

(** What the resolution of one clash says when it carries a file
    operation. *)
Definition settled (clash : ClashStatus.t) (res : ConflictResolutionResult.t)
  : Prop :=
  match ConflictResolutionResult.fileOp res with
  | Some op =>
      op = FileOpRecord.make ("_fit/" ++ ClashStatus.path clash) created
      /\ ConflictResolutionResult.noDiff res = false
  | None => True
  end.

(** Reading back the two digits that [toHex] writes. *)
Definition isHexDigit (c : ascii) : bool :=
  existsb (Ascii.eqb c) (list_ascii_of_string "0123456789abcdef").

Definition hexValue (c : ascii) : N :=
  match String.index 0 (String c EmptyString) "0123456789abcdef" with
  | Some n => N.of_nat n
  | None => 0%N
  end.

Definition fromHex (hi lo : ascii) : option byte :=
  Byte.of_N (hexValue hi * 16 + hexValue lo).

(** A remote that refuses the request for the ref. *)
Module Unauthorized.

Definition refused : Error.t :=
  {| Error.message := "Bad credentials"; Error.status := Some 401;
     Error.source := None |}.

Definition handler : Handler (World.t Scenario.Remote) :=
  fun (A : Type) (c : Cmd A) =>
    match c in Cmd A0
          return World.t Scenario.Remote -> Outcome A0 * World.t Scenario.Remote
    with
    | GET_ref _ => fun w => (Thrown refused, w)
    | c0 => Scenario.handler _ c0
    end.

End Unauthorized.




(** An environment in which the helpers of fitPull and fitPush answer:
    there is nothing to write locally and nothing to commit. *)
Module Helpful.

Definition handler : Handler (World.t Scenario.Remote) :=
  fun (A : Type) (c : Cmd A) =>
    match c in Cmd A0
          return World.t Scenario.Remote -> Outcome A0 * World.t Scenario.Remote
    with
    | PrepareChangesToExecute _ => fun w => (Ok ([], []), w)
    | CreateCommitFromLocalUpdate _ _ => fun w => (Ok None, w)
    | UpdateLocalFiles _ _ => fun w => (Ok [], w)
    | c0 => Scenario.handler _ c0
    end.



End Helpful.


(** The note changed on both sides. *)
Module Clashed.



End Clashed.

(** ** The listings of fit.ts

    [getRepos] asks for page after page of at most 100 repositories and
    stops at the first page that comes back short.  [request page] is the
    answer to the request for that page, as the names of the repositories
    in it; the bound [fuel] is on the number of requests, and [None] says
    that the loop has not ended within it. *)
Module Listing.

Definition perPage : nat := 100.

Fixpoint loop (request : nat -> Outcome (list string)) (fuel page : nat)
    (allRepos : list string) : option (Outcome (list string)) :=
  match fuel with
  | 0 => None
  | S fuel =>
      match request page with
      | Thrown error =>
          Some (Thrown (Fit.OctokitHttpError (Error.message error)
                          (Error.status error) "getRepos"))
      | Ok response =>
          let allRepos := (allRepos ++ response)%list in
          if (length response <? perPage)%nat then Some (Ok allRepos)
          else loop request fuel (S page) allRepos
      end
  end.

Definition getRepos (request : nat -> Outcome (list string)) (fuel : nat)
  : option (Outcome (list string)) :=
  loop request fuel 1 [].

(** [getBranches], from the answer to its one request. *)
Definition getBranches (response : Outcome (list string))
  : Outcome (list string) :=
  match response with
  | Ok names => Ok names
  | Thrown error =>
      Thrown (Fit.OctokitHttpError (Error.message error) (Error.status error)
                "getRepos")
  end.

(** The names in the answer for a page. *)
Definition names (request : nat -> Outcome (list string)) (page : nat)
  : list string :=
  match request page with
  | Ok response => response
  | Thrown _ => []
  end.

(** A page that is answered with as many repositories as were asked. *)
Definition full (request : nat -> Outcome (list string)) (page : nat) : Prop :=
  exists response,
    request page = Ok response /\ (perPage <= length response)%nat.

(** An account with 130 repositories, and one whose second page fails. *)
Definition twoPages (page : nat) : Outcome (list string) :=
  match page with
  | 1 => Ok (repeat "repo" 100)
  | 2 => Ok (repeat "more" 30)
  | _ => Ok []
  end.

Definition rateLimited : Error.t :=
  {| Error.message := "rate limit"; Error.status := Some 403;
     Error.source := None |}.

Definition secondPageFails (page : nat) : Outcome (list string) :=
  match page with
  | 1 => Ok (repeat "repo" 100)
  | _ => Thrown rateLimited
  end.

Definition endless (page : nat) : Outcome (list string) :=
  Ok (repeat "repo" 100).

End Listing.

(** The vault lost [old.md] since the last sync, the remote did not move,
    and the push of that deletion is answered. *)
Module Pushed.

Definition answer : PushResult.t :=
  {| PushResult.pushedChanges := [Scenario.deletionOfOldFile];
     PushResult.lastFetchedRemoteSha := {[ "notes/a.md" := "b1" ]};
     PushResult.lastFetchedCommitSha := "c2" |}.

Definition world : World.t Scenario.Remote :=
  {| World.vault := {[ "notes/a.md" := list_byte_of_string "hello" ]};
     World.store := Scenario.storeWithOldFile;
     World.remote :=
       {| Scenario.head := "c1"; Scenario.listing := [Scenario.pushedNode];
          Scenario.blobs := ∅; Scenario.createdBlob := "";
          Scenario.pushAnswer := Some answer |} |}.

End Pushed.


(* ===================================================================== *)
(** * Part II: theorems                                                  *)
(* ===================================================================== *)

(** ** Base64 *)
Section Base64Facts.
Import Base64 JS.

Lemma dec6_enc6 (x : sextet) : dec6 (enc6 x) = Some x.
Proof. destruct x as [[[[[[] []] []] []] []] []]; reflexivity. Qed.

Lemma enc6_alphabet (x : sextet) : bool_decide (is_Some (dec6 (enc6 x))) = true.
Proof. apply bool_decide_eq_true. rewrite dec6_enc6. eauto. Qed.

Lemma of_url_to_url_enc6 (x : sextet) : of_url (to_url (enc6 x)) = enc6 x.
Proof. destruct x as [[[[[[] []] []] []] []] []]; reflexivity. Qed.

Lemma to_url_enc6_not_pad (x : sextet) : Ascii.eqb (to_url (enc6 x)) "=" = false.
Proof. destruct x as [[[[[[] []] []] []] []] []]; reflexivity. Qed.

Lemma alphabet_not_whitespace (c : ascii) :
  bool_decide (is_Some (dec6 c)) = true -> is_whitespace c = false.
Proof.
  destruct c as [[] [] [] [] [] [] [] []]; vm_compute; congruence.
Qed.

Lemma alphabet_not_pad (c : ascii) :
  bool_decide (is_Some (dec6 c)) = true -> Ascii.eqb c pad = false.
Proof.
  destruct c as [[] [] [] [] [] [] [] []]; vm_compute; congruence.
Qed.

Lemma string_ind3 (Q : string -> Prop) :
  Q EmptyString ->
  (forall a, Q (String a EmptyString)) ->
  (forall a b, Q (String a (String b EmptyString))) ->
  (forall a b c r, Q r -> Q (String a (String b (String c r)))) ->
  forall s, Q s.
Proof.
  intros H0 H1 H2 H3.
  assert (Hall : forall s, Q s /\ (forall a, Q (String a s))
                           /\ (forall a b, Q (String a (String b s)))).
  { induction s as [|c r [IH0 [IH1 IH2]]].
    - repeat split; auto.
    - repeat split; auto. }
  intros s. apply Hall.
Qed.

Lemma replace_all_cons (c d x : ascii) (r : string) :
  replace_all c d (String x r)
  = String (if Ascii.eqb x c then d else x) (replace_all c d r).
Proof. reflexivity. Qed.

Lemma to_url_cons (x : ascii) (r : string) :
  replace_all "/" "_" (replace_all "+" "-" (String x r))
  = String (to_url x) (replace_all "/" "_" (replace_all "+" "-" r)).
Proof. reflexivity. Qed.

Lemma of_url_cons (x : ascii) (r : string) :
  replace_all "_" "/" (replace_all "-" "+" (String x r))
  = String (of_url x) (replace_all "_" "/" (replace_all "-" "+" r)).
Proof. reflexivity. Qed.

Lemma strip_trailing_cons (c x : ascii) (r : string) :
  Ascii.eqb x c = false ->
  strip_trailing c (String x r) = String x (strip_trailing c r).
Proof.
  intros Hx. cbn [strip_trailing]. rewrite Hx.
  destruct (strip_trailing c r); reflexivity.
Qed.

Lemma url_token_decodes (s : string) :
  let t := replace_all "_" "/" (replace_all "-" "+" (url_token s)) in
  all_alphabet t = true /\ decode_groups t = Some s.
Proof.
  unfold url_token.
  induction s as [|a|a b|a b c r [IHa IHd]] using string_ind3.
  - split; reflexivity.
  - destruct a as [a0 a1 a2 a3 a4 a5 a6 a7].
    cbn [btoa]. rewrite !to_url_cons.
    rewrite !strip_trailing_cons by apply to_url_enc6_not_pad.
    change (strip_trailing "=" _) with EmptyString.
    rewrite !of_url_cons, !of_url_to_url_enc6.
    cbn [all_alphabet decode_groups]. rewrite !enc6_alphabet, !dec6_enc6.
    split; reflexivity.
  - destruct a as [a0 a1 a2 a3 a4 a5 a6 a7].
    destruct b as [b0 b1 b2 b3 b4 b5 b6 b7].
    cbn [btoa]. rewrite !to_url_cons.
    rewrite !strip_trailing_cons by apply to_url_enc6_not_pad.
    change (strip_trailing "=" _) with EmptyString.
    rewrite !of_url_cons, !of_url_to_url_enc6.
    cbn [all_alphabet decode_groups]. rewrite !enc6_alphabet, !dec6_enc6.
    split; reflexivity.
  - destruct a as [a0 a1 a2 a3 a4 a5 a6 a7].
    destruct b as [b0 b1 b2 b3 b4 b5 b6 b7].
    destruct c as [c0 c1 c2 c3 c4 c5 c6 c7].
    cbn [btoa]. rewrite !to_url_cons.
    rewrite !strip_trailing_cons by apply to_url_enc6_not_pad.
    rewrite !of_url_cons, !of_url_to_url_enc6.
    cbn zeta in IHa, IHd.
    cbn [all_alphabet decode_groups]. rewrite !enc6_alphabet, !dec6_enc6.
    cbn [mbind option_bind]. rewrite IHd, IHa. split; reflexivity.
Qed.

Lemma remove_whitespace_alphabet (t : string) :
  all_alphabet t = true -> remove_whitespace t = t.
Proof.
  induction t as [|c r IH]; [reflexivity|].
  cbn [all_alphabet remove_whitespace]. intros [Hc Hr]%andb_prop.
  rewrite (alphabet_not_whitespace c Hc), (IH Hr). reflexivity.
Qed.

Lemma drop_last_pad_alphabet (t : string) :
  all_alphabet t = true -> drop_last_pad t = t.
Proof.
  induction t as [|c r IH]; [reflexivity|].
  cbn [all_alphabet]. intros [Hc Hr]%andb_prop.
  cbn [drop_last_pad]. destruct r as [|d r'].
  - rewrite (alphabet_not_pad c Hc). reflexivity.
  - rewrite (IH Hr). reflexivity.
Qed.

Lemma strip_padding_alphabet (t : string) :
  all_alphabet t = true -> strip_padding t = t.
Proof.
  intros Ht. unfold strip_padding.
  destruct (Nat.eqb _ 0); [|reflexivity].
  rewrite !(drop_last_pad_alphabet t Ht). reflexivity.
Qed.

Lemma atob_url_token (s : string) :
  atob (replace_all "_" "/" (replace_all "-" "+" (url_token s))) = Some s.
Proof.
  destruct (url_token_decodes s) as [Ha Hd]. cbn zeta in Ha, Hd.
  unfold atob.
  rewrite (remove_whitespace_alphabet _ Ha), (strip_padding_alphabet _ Ha).
  exact Hd.
Qed.
End Base64Facts.

(** ** The path cipher *)
Section PathCipher.
Import Encryption.
Context (P : Platform).

Lemma base64Url_roundtrip (buffer : list byte) :
  base64UrlToArrayBuffer (arrayBufferToBase64Url buffer) = Some buffer.
Proof.
  unfold base64UrlToArrayBuffer, arrayBufferToBase64Url.
  fold (JS.url_token (string_of_list_byte buffer)).
  rewrite atob_url_token. cbn [mbind option_bind].
  rewrite list_byte_of_string_of_list_byte. reflexivity.
Qed.

Lemma xor_byte_involutive (a k : byte) : xor_byte (xor_byte a k) k = a.
Proof.
  unfold xor_byte.
  destruct (Byte.to_bits a)
    as [a0 [a1 [a2 [a3 [a4 [a5 [a6 a7]]]]]]] eqn:Ha.
  destruct (Byte.to_bits k)
    as [k0 [k1 [k2 [k3 [k4 [k5 [k6 k7]]]]]]] eqn:Hk.
  rewrite Byte.to_bits_of_bits.
  rewrite !xorb_assoc, !xorb_nilpotent, !xorb_false_r.
  rewrite <- Ha. apply Byte.of_bits_to_bits.
Qed.

Lemma xor_stream_involutive (g : nat -> byte) (data : list byte) :
  imap (fun i b => xor_byte b (g i)) (imap (fun i b => xor_byte b (g i)) data)
  = data.
Proof.
  revert g. induction data as [|b data IH]; intros g; [reflexivity|].
  cbn [imap]. rewrite xor_byte_involutive. f_equal.
  apply (IH (g ∘ S)).
Qed.

Lemma aes_ctr_involutive key counter len data :
  aes_ctr P key counter len (aes_ctr P key counter len data) = data.
Proof. apply xor_stream_involutive. Qed.

Lemma decryptPath_encryptPath (this : Encryption.t) (path : string) :
  inflate_inverts_deflate P -> valid_path P path ->
  decryptPath P this (encryptPath P this path) = Some path.
Proof.
  intros Hz Hp. unfold decryptPath, encryptPath.
  rewrite base64Url_roundtrip. cbn [mbind option_bind].
  rewrite aes_ctr_involutive, Hz. cbn [mbind option_bind].
  rewrite Hp. reflexivity.
Qed.
End PathCipher.

(** C1. For every valid path, [decryptPath] undoes [encryptPath]; the token
    is a function of the key and the path alone (the counter block is the
    constant all-zero [IV]), and two valid paths have the same token exactly
    when they are equal.  The contract of pako is assumed. *)
Theorem encryptPath_roundtrip_injective (P : Platform) (this : Encryption.t) :
  Encryption.inflate_inverts_deflate P ->
  (forall path, Encryption.valid_path P path ->
     Encryption.decryptPath P this (Encryption.encryptPath P this path)
     = Some path)
  /\ (forall p1 p2,
       Encryption.valid_path P p1 -> Encryption.valid_path P p2 ->
       (Encryption.encryptPath P this p1 = Encryption.encryptPath P this p2
        <-> p1 = p2)).
Proof.
  intros Hz. split.
  - intros path Hp. apply decryptPath_encryptPath; assumption.
  - intros p1 p2 H1 H2. split; [|intros ->; reflexivity].
    intros Heq.
    pose proof (decryptPath_encryptPath P this p1 Hz H1) as D1.
    pose proof (decryptPath_encryptPath P this p2 Hz H2) as D2.
    rewrite Heq in D1. congruence.
Qed.

Lemma encryptPath_roundtrip_injective_witness :
  Encryption.decryptPath Sample.platform Sample.encryption
    (Encryption.encryptPath Sample.platform Sample.encryption "notes/a.md")
  = Some "notes/a.md"
  /\ (Encryption.encryptPath Sample.platform Sample.encryption "notes/a.md"
      = Encryption.encryptPath Sample.platform Sample.encryption "notes/b.md"
      <-> "notes/a.md" = "notes/b.md").
Proof.
  destruct (encryptPath_roundtrip_injective Sample.platform Sample.encryption)
    as [Hr Hi].
  - intros b. reflexivity.
  - split.
    + apply Hr. reflexivity.
    + apply Hi; reflexivity.
Defined.

(** ** Clashes *)
Section Clashes.

Lemma indexOf_Some (l : list string) (x : string) (j : nat) :
  Fit.indexOf l x = Some j -> l !! j = Some x.
Proof.
  revert j. induction l as [|y l IH]; intros j; [discriminate|].
  cbn [Fit.indexOf]. destruct (decide (y = x)) as [->|Hne].
  - intros [= <-]. reflexivity.
  - destruct (Fit.indexOf l x) as [k|] eqn:Hk; [|discriminate].
    intros [= <-]. cbn. apply IH. reflexivity.
Qed.

Lemma indexOf_None (l : list string) (x : string) :
  Fit.indexOf l x = None -> x ∉ l.
Proof.
  induction l as [|y l IH]; [intros _ Hin; inversion Hin|].
  cbn [Fit.indexOf]. destruct (decide (y = x)) as [->|Hne]; [discriminate|].
  destruct (Fit.indexOf l x) eqn:Hk; [discriminate|].
  intros _ [->|Hin]%elem_of_cons; [congruence|]. apply IH; auto.
Qed.

Lemma indexOf_remote (R : list RemoteChange.t) (x : string) (j : nat) :
  Fit.indexOf (RemoteChange.path <$> R) x = Some j ->
  exists r, R !! j = Some r /\ RemoteChange.path r = x.
Proof.
  intros H%indexOf_Some. rewrite list_lookup_fmap in H.
  destruct (R !! j) as [r|]; [|discriminate].
  injection H as <-. eauto.
Qed.

Lemma getClashedChanges_suffix (L : list LocalChange.t)
    (R : list RemoteChange.t) (pre suf : list LocalChange.t) :
  L = (pre ++ suf)%list ->
  mapM (fun '(path, localIndex, remoteIndex) =>
          l ← L !! localIndex;
          r ← R !! remoteIndex;
          Some {| ClashStatus.path := path;
                  ClashStatus.localStatus := LocalChange.status l;
                  ClashStatus.remoteStatus := RemoteChange.status r |})
       (omap id
          (imap (fun localIndex path =>
                   match Fit.indexOf (RemoteChange.path <$> R) path with
                   | Some remoteIndex =>
                       Some (path, length pre + localIndex, remoteIndex)
                   | None => None
                   end) (LocalChange.path <$> suf)))
  = Some (omap (clashOf R) suf).
Proof.
  revert pre. induction suf as [|l suf IH]; intros pre HL; [reflexivity|].
  rewrite fmap_cons. cbn [imap].
  assert (Hshift :
    imap ((fun localIndex path =>
             match Fit.indexOf (RemoteChange.path <$> R) path with
             | Some remoteIndex =>
                 Some (path, length pre + localIndex, remoteIndex)
             | None => None
             end) ∘ S) (LocalChange.path <$> suf)
    = imap (fun localIndex path =>
             match Fit.indexOf (RemoteChange.path <$> R) path with
             | Some remoteIndex =>
                 Some (path, length (pre ++ [l]) + localIndex, remoteIndex)
             | None => None
             end) (LocalChange.path <$> suf)).
  { apply imap_ext. intros i p _. cbn.
    rewrite length_app. cbn.
    replace (length pre + S i) with (length pre + 1 + i) by lia.
    reflexivity. }
  rewrite Hshift.
  specialize (IH (pre ++ [l])%list).
  rewrite <- app_assoc in IH. specialize (IH HL).
  cbn [omap list_omap]. unfold clashOf at 1.
  destruct (Fit.indexOf (RemoteChange.path <$> R) (LocalChange.path l))
    as [j|] eqn:Hj; cbn [id mbind option_bind].
  - destruct (indexOf_remote R _ j Hj) as [r [Hr Hp]].
    rewrite Hr. cbn [mbind option_bind].
    cbn [mapM]. rewrite Nat.add_0_r.
    assert (HLl : L !! length pre = Some l).
    { rewrite HL. rewrite lookup_app_r by lia.
      rewrite Nat.sub_diag. reflexivity. }
    rewrite HLl. cbn [mbind option_bind]. rewrite Hr.
    cbn [mbind option_bind]. rewrite IH. reflexivity.
  - exact IH.
Qed.

Lemma getClashedChanges_omap (L : list LocalChange.t) (R : list RemoteChange.t) :
  Fit.getClashedChanges L R = Some (omap (clashOf R) L).
Proof.
  unfold Fit.getClashedChanges.
  exact (getClashedChanges_suffix L R [] L eq_refl).
Qed.

Lemma clashOf_Some (R : list RemoteChange.t) (l : LocalChange.t)
    (c : ClashStatus.t) :
  clashOf R l = Some c ->
  ClashStatus.path c = LocalChange.path l
  /\ ClashStatus.localStatus c = LocalChange.status l
  /\ exists r, r ∈ R /\ RemoteChange.path r = LocalChange.path l
               /\ ClashStatus.remoteStatus c = RemoteChange.status r.
Proof.
  unfold clashOf.
  destruct (Fit.indexOf _ _) as [j|] eqn:Hj; [|discriminate].
  cbn [mbind option_bind].
  destruct (indexOf_remote R _ j Hj) as [r [Hr Hp]]. rewrite Hr.
  cbn [mbind option_bind]. intros [= <-]. cbn.
  repeat split. exists r. repeat split; auto.
  eapply list_elem_of_lookup_2; eauto.
Qed.

Lemma NoDup_fmap_eq {A} (f : A -> string) (l : list A) (x y : A) :
  NoDup (f <$> l) -> x ∈ l -> y ∈ l -> f x = f y -> x = y.
Proof.
  induction l as [|a l IH]; [intros _ []%elem_of_nil|].
  rewrite fmap_cons, NoDup_cons. intros [Hni Hnd] Hx Hy Hf.
  apply elem_of_cons in Hx, Hy.
  destruct Hx as [->|Hx], Hy as [->|Hy]; auto.
  - exfalso. apply Hni. rewrite Hf. apply list_elem_of_fmap_2; assumption.
  - exfalso. apply Hni. rewrite <- Hf. apply list_elem_of_fmap_2; assumption.
Qed.

Lemma clashOf_complete (R : list RemoteChange.t) (l : LocalChange.t)
    (r : RemoteChange.t) :
  NoDup (RemoteChange.path <$> R) ->
  r ∈ R -> RemoteChange.path r = LocalChange.path l ->
  clashOf R l = Some {| ClashStatus.path := LocalChange.path l;
                        ClashStatus.localStatus := LocalChange.status l;
                        ClashStatus.remoteStatus := RemoteChange.status r |}.
Proof.
  intros Hnd Hr Hp. unfold clashOf.
  destruct (Fit.indexOf _ _) as [j|] eqn:Hj.
  - cbn [mbind option_bind].
    destruct (indexOf_remote R _ j Hj) as [r' [Hr' Hp']]. rewrite Hr'.
    cbn [mbind option_bind].
    assert (r' = r) as ->; [|reflexivity].
    eapply (NoDup_fmap_eq RemoteChange.path R); eauto.
    + eapply list_elem_of_lookup_2; eauto.
    + congruence.
  - exfalso. apply indexOf_None in Hj. apply Hj.
    rewrite <- Hp. apply list_elem_of_fmap_2; assumption.
Qed.

Lemma NoDup_omap_paths (R : list RemoteChange.t) (L : list LocalChange.t) :
  NoDup (LocalChange.path <$> L) ->
  NoDup (ClashStatus.path <$> omap (clashOf R) L).
Proof.
  induction L as [|l L IH]; [intros _; constructor|].
  rewrite fmap_cons, NoDup_cons. intros [Hni Hnd].
  cbn [omap list_omap]. destruct (clashOf R l) as [c|] eqn:Hc; [|auto].
  rewrite fmap_cons. apply NoDup_cons. split; [|auto].
  intros Hin. apply Hni.
  apply list_elem_of_fmap in Hin as [c' [Hpc Hc']].
  apply list_elem_of_omap in Hc' as [l' [Hl' Hcl']].
  apply clashOf_Some in Hc as [Hp _], Hcl' as [Hp' _].
  apply list_elem_of_fmap. exists l'. split; [congruence|assumption].
Qed.

End Clashes.

(** C5. When no path occurs twice among the local changes nor among the
    remote ones, [getClashedChanges] returns (it does not throw) a list
    that has exactly one entry for each path present on both sides and
    none for any other path; the entry for a path carries the status of
    the local change and the status of the remote change of that path. *)
Theorem getClashedChanges_exact (L : list LocalChange.t)
    (R : list RemoteChange.t) :
  NoDup (LocalChange.path <$> L) ->
  NoDup (RemoteChange.path <$> R) ->
  exists clashes,
    Fit.getClashedChanges L R = Some clashes
    /\ NoDup (ClashStatus.path <$> clashes)
    /\ (forall p, p ∈ ClashStatus.path <$> clashes
                  <-> p ∈ LocalChange.path <$> L
                      /\ p ∈ RemoteChange.path <$> R)
    /\ (forall c, c ∈ clashes ->
          exists l r, l ∈ L /\ r ∈ R
            /\ LocalChange.path l = ClashStatus.path c
            /\ RemoteChange.path r = ClashStatus.path c
            /\ ClashStatus.localStatus c = LocalChange.status l
            /\ ClashStatus.remoteStatus c = RemoteChange.status r).
Proof.
  intros HL HR. exists (omap (clashOf R) L).
  split; [apply getClashedChanges_omap|].
  split; [apply NoDup_omap_paths; assumption|].
  split.
  - intros p. split.
    + intros [c [-> Hc]]%list_elem_of_fmap.
      apply list_elem_of_omap in Hc as [l [Hl Hc]].
      apply clashOf_Some in Hc as [Hp [_ [r [Hr [Hrp _]]]]].
      rewrite Hp. split.
      * apply list_elem_of_fmap_2; assumption.
      * rewrite <- Hrp. apply list_elem_of_fmap_2; assumption.
    + intros [[l [-> Hl]]%list_elem_of_fmap [r [Hp Hr]]%list_elem_of_fmap].
      apply list_elem_of_fmap.
      eexists. split; [|apply list_elem_of_omap; exists l; split;
                         [exact Hl|apply (clashOf_complete R l r); auto]].
      reflexivity.
  - intros c [l [Hl Hc]]%list_elem_of_omap.
    apply clashOf_Some in Hc as [Hp [Hs [r [Hr [Hrp Hrs]]]]].
    exists l, r. repeat split; auto; congruence.
Qed.

Lemma getClashedChanges_exact_witness :
  exists clashes,
    Fit.getClashedChanges
      [ {| LocalChange.path := "a.md"; LocalChange.status := changed |};
        {| LocalChange.path := "b.md"; LocalChange.status := deleted |} ]
      [ {| RemoteChange.path := "c.md"; RemoteChange.status := ADDED;
           RemoteChange.currentSha := None |};
        {| RemoteChange.path := "b.md"; RemoteChange.status := MODIFIED;
           RemoteChange.currentSha := None |} ]
    = Some clashes
    /\ NoDup (ClashStatus.path <$> clashes).
Proof.
  destruct (getClashedChanges_exact
      [ {| LocalChange.path := "a.md"; LocalChange.status := changed |};
        {| LocalChange.path := "b.md"; LocalChange.status := deleted |} ]
      [ {| RemoteChange.path := "c.md"; RemoteChange.status := ADDED;
           RemoteChange.currentSha := None |};
        {| RemoteChange.path := "b.md"; RemoteChange.status := MODIFIED;
           RemoteChange.currentSha := None |} ])
    as [clashes [H1 [H2 _]]].
  - apply NoDup_ListNoDup. cbn. repeat constructor; cbn; intuition discriminate.
  - apply NoDup_ListNoDup. cbn. repeat constructor; cbn; intuition discriminate.
  - exists clashes. split; assumption.
Defined.

Example getClashedChanges_example :
  Fit.getClashedChanges
    [ {| LocalChange.path := "a.md"; LocalChange.status := changed |};
      {| LocalChange.path := "b.md"; LocalChange.status := deleted |} ]
    [ {| RemoteChange.path := "c.md"; RemoteChange.status := ADDED;
         RemoteChange.currentSha := None |};
      {| RemoteChange.path := "b.md"; RemoteChange.status := MODIFIED;
         RemoteChange.currentSha := None |} ]
  = Some [ {| ClashStatus.path := "b.md"; ClashStatus.localStatus := deleted;
              ClashStatus.remoteStatus := MODIFIED |} ].
Proof. reflexivity. Qed.

(** ** Conflict reports *)

(** [generateConflictReport] builds the utf-8 variant whatever its
    arguments are. *)
Lemma generateConflictReport_utf8 (path localContent remoteContent : string) :
  ConflictReport.resolutionStrategy
    (FitSync.generateConflictReport path localContent remoteContent) = "utf-8"
  /\ (forall p c,
        FitSync.generateConflictReport path localContent remoteContent
        <> ConflictReport.Binary p c).
Proof. split; [reflexivity|]. intros p c. discriminate. Qed.

(** ** Running programs *)
Section Running.
Context {St : Type} (h : Handler St).

Lemma run_bind {A B : Type} (p : Prog A) (f : A -> Prog B) (s : St) :
  run h (bind p f) s
  = match run h p s with
    | (Ok a, s1, t1) =>
        let '(r, s2, t2) := run h (f a) s1 in (r, s2, (t1 ++ t2)%list)
    | (Thrown e, s1, t1) => (Thrown e, s1, t1)
    end.
Proof.
  revert s. induction p as [a|e|R c k IH]; intros s; cbn [bind run].
  - destruct (run h (f a) s) as [[r s2] t2]. reflexivity.
  - reflexivity.
  - destruct (h R c s) as [o s1]. rewrite IH.
    destruct (run h (k o) s1) as [[[a|e] s2] t1].
    + destruct (run h (f a) s2) as [[r s3] t2]. reflexivity.
    + reflexivity.
Qed.

Lemma run_call_ok {R : Type} (c : Cmd R) (s s1 : St) (r : R) :
  h R c s = (Ok r, s1) -> run h (call c) s = (Ok r, s1, [Ev c]).
Proof. intros H. cbn. rewrite H. reflexivity. Qed.

Lemma run_call_thrown {R : Type} (c : Cmd R) (s s1 : St) (e : Error.t) :
  h R c s = (Thrown e, s1) -> run h (call c) s = (Thrown e, s1, [Ev c]).
Proof. intros H. cbn. rewrite H. reflexivity. Qed.

Lemma run_bind_ok {A B : Type} (p : Prog A) (f : A -> Prog B)
    (s s1 : St) (a : A) (t1 : list Event) :
  run h p s = (Ok a, s1, t1) ->
  run h (bind p f) s
  = let '(r, s2, t2) := run h (f a) s1 in (r, s2, (t1 ++ t2)%list).
Proof. intros H. rewrite run_bind, H. reflexivity. Qed.

Lemma run_bind_thrown {A B : Type} (p : Prog A) (f : A -> Prog B)
    (s s1 : St) (e : Error.t) (t1 : list Event) :
  run h p s = (Thrown e, s1, t1) ->
  run h (bind p f) s = (Thrown e, s1, t1).
Proof. intros H. rewrite run_bind, H. reflexivity. Qed.

End Running.

(** ** Conflict resolution without conflict *)

(** C6. For a clash that is a deletion on both sides, [resolveFileConflict]
    is the computation that returns [{path, noDiff: true}] at once: run in
    any environment it issues no command (no blob is fetched, nothing is
    written) and leaves the environment as it was; the result carries no
    file operation. *)
Theorem resolveFileConflict_both_deleted (P : Platform)
    (removeLineEndings : string -> string) (fit : Fit.t)
    (clash : ClashStatus.t) (latestRemoteFileSha : option string) :
  ClashStatus.localStatus clash = deleted ->
  ClashStatus.remoteStatus clash = REMOVED ->
  forall (St : Type) (h : Handler St) (s : St),
    run h (FitSync.resolveFileConflict P removeLineEndings fit clash
             latestRemoteFileSha) s
    = (Ok {| ConflictResolutionResult.path := ClashStatus.path clash;
             ConflictResolutionResult.noDiff := true;
             ConflictResolutionResult.fileOp := None |}, s, []).
Proof.
  intros Hl Hr St h s. unfold FitSync.resolveFileConflict.
  destruct (decide _) as [_|Hn]; [reflexivity|].
  exfalso. apply Hn. split; assumption.
Qed.

(** ** Reading from the remote *)

(** C9. Once the blob is fetched, [getBlob] returns: the decrypted text
    when decryption succeeds, and when decryption fails the content as it
    was fetched, still encrypted; it throws in neither case. *)
Theorem getBlob_decrypted_or_raw (P : Platform) (fit : Fit.t)
    (file_sha content : string) (St : Type) (h : Handler St) (s s1 : St) :
  h _ (GET_blobs file_sha) s = (Ok content, s1) ->
  (Encryption.decrypt P (Fit.encryption fit) (JS.remove_all "010" content)
   = None ->
   run h (Fit.getBlob P fit file_sha) s
   = (Ok content, s1, [Ev (GET_blobs file_sha)]))
  /\ (forall plainText,
        Encryption.decrypt P (Fit.encryption fit) (JS.remove_all "010" content)
        = Some plainText ->
        run h (Fit.getBlob P fit file_sha) s
        = (Ok plainText, s1, [Ev (GET_blobs file_sha)])).
Proof.
  intros Hh. unfold Fit.getBlob.
  split; [intros Hd|intros plainText Hd];
    rewrite (run_bind_ok h _ _ s s1 content [Ev (GET_blobs file_sha)]
               (run_call_ok h _ s s1 content Hh));
    rewrite Hd; reflexivity.
Qed.

Lemma decryptNodePath_cases (P : Platform) (fit : Fit.t) (node : TreeNode.t) :
  match Encryption.decryptPath P (Fit.encryption fit) (TreeNode.path node) with
  | None => Fit.decryptNodePath P fit node = node
  | Some path =>
      Fit.decryptNodePath P fit node
      = {| TreeNode.path := path; TreeNode.mode := TreeNode.mode node;
           TreeNode.type := TreeNode.type node;
           TreeNode.sha := TreeNode.sha node |}
  end.
Proof.
  unfold Fit.decryptNodePath.
  destruct (Encryption.decryptPath _ _ _); reflexivity.
Qed.

(** C8, as the code has it. Once the tree is fetched, [getTree] returns one
    node for each fetched node, in the same order: a node whose path
    decrypts is returned with the decrypted path, and a node whose path
    does not decrypt is returned as it was fetched, path included; a
    failure to decrypt never makes [getTree] throw. *)
Theorem getTree_keeps_every_node (P : Platform) (fit : Fit.t)
    (tree_sha : string) (arr : list TreeNode.t)
    (St : Type) (h : Handler St) (s s1 : St) :
  h _ (GET_trees tree_sha) s = (Ok arr, s1) ->
  exists result,
    run h (Fit.getTree P fit tree_sha) s
    = (Ok result, s1, [Ev (GET_trees tree_sha)])
    /\ length result = length arr
    /\ forall i node, arr !! i = Some node ->
         match Encryption.decryptPath P (Fit.encryption fit)
                 (TreeNode.path node) with
         | None => result !! i = Some node
         | Some path =>
             result !! i
             = Some {| TreeNode.path := path; TreeNode.mode := TreeNode.mode node;
                       TreeNode.type := TreeNode.type node;
                       TreeNode.sha := TreeNode.sha node |}
         end.
Proof.
  intros Hh. exists (Fit.decryptNodePath P fit <$> arr).
  split; [|split].
  - unfold Fit.getTree.
    rewrite (run_bind_ok h _ _ s s1 arr [Ev (GET_trees tree_sha)]
               (run_call_ok h _ s s1 arr Hh)).
    reflexivity.
  - apply length_fmap.
  - intros i node Hi. rewrite list_lookup_fmap, Hi. cbn.
    pose proof (decryptNodePath_cases P fit node) as Hc.
    destruct (Encryption.decryptPath _ _ _); rewrite Hc; reflexivity.
Qed.

(** ** Building tree nodes *)

Lemma forallb_path_differs (remoteTree : list TreeNode.t) (path : string) :
  forallb (fun node => bool_decide (TreeNode.path node <> path)) remoteTree = true
  <-> path ∉ TreeNode.path <$> remoteTree.
Proof.
  induction remoteTree as [|n r IH]; cbn [forallb].
  - split; [intros _ Hin; inversion Hin|reflexivity].
  - rewrite andb_true_iff, bool_decide_eq_true, IH, fmap_cons, not_elem_of_cons.
    split; intros [H1 H2]; split; auto.
Qed.

Lemma existsb_same_entry (remoteTree : list TreeNode.t) (path blobSha : string) :
  existsb (fun node => bool_decide (TreeNode.path node = path)
                       && bool_decide (TreeNode.sha node = Some blobSha))
          remoteTree = true
  <-> exists node, node ∈ remoteTree /\ TreeNode.path node = path
                   /\ TreeNode.sha node = Some blobSha.
Proof.
  induction remoteTree as [|n r IH]; cbn [existsb].
  - split; [discriminate|]. intros [node [Hin _]]. inversion Hin.
  - rewrite orb_true_iff, andb_true_iff, !bool_decide_eq_true, IH.
    split.
    + intros [[H1 H2]|[node [Hin Hn]]].
      * exists n. split; [left|auto].
      * exists node. split; [right; assumption|assumption].
    + intros [node [Hin Hn]]. apply elem_of_cons in Hin as [->|Hin].
      * left. assumption.
      * right. exists node. auto.
Qed.

(** C7. [createTreeNodeFromFile] returns no node in two cases and only
    then: for a deleted path that the remote tree does not list (nothing
    is called), and for a created or changed file whose freshly created
    blob has the id that the remote tree already lists at that path.  In
    any other case it returns a blob node of mode 100644 at the path, with
    no id for a deletion and with the id of the created blob otherwise. *)
Theorem createTreeNodeFromFile_result (P : Platform) (fit : Fit.t)
    (change : LocalChange.t) (remoteTree : list TreeNode.t)
    (St : Type) (h : Handler St) :
  let path := LocalChange.path change in
  (LocalChange.status change = deleted ->
   forall s, exists result,
     run h (Fit.createTreeNodeFromFile P fit change remoteTree) s
     = (Ok result, s, [])
     /\ (result = None <-> path ∉ TreeNode.path <$> remoteTree)
     /\ (forall node, result = Some node ->
           node = {| TreeNode.path := path; TreeNode.mode := Some m100644;
                     TreeNode.type := Some blob; TreeNode.sha := None |}))
  /\ (LocalChange.status change <> deleted ->
      forall s s1 s2 s3 s4 file bytes iv blobSha,
        let content := Base64.btoa (string_of_list_byte bytes) in
        let key := Encryption.importKey P (Fit.encryption fit) "AES-GCM" in
        let encrypted :=
          fromByteArray P
            (iv ++ aes_gcm_encrypt P (Encryption.raw key) iv
                     (utf8_encode P content))%list in
        h _ (GetTFile path) s = (Ok file, s1) ->
        h _ (ReadBinary file) s1 = (Ok bytes, s2) ->
        h _ (GetRandomValues 12) s2 = (Ok iv, s3) ->
        h _ (POST_blobs encrypted "base64") s3 = (Ok blobSha, s4) ->
        exists result,
          run h (Fit.createTreeNodeFromFile P fit change remoteTree) s
          = (Ok result, s4,
             [Ev (GetTFile path); Ev (ReadBinary file);
              Ev (GetRandomValues 12); Ev (POST_blobs encrypted "base64")])
          /\ (result = None
              <-> exists node, node ∈ remoteTree
                    /\ TreeNode.path node = path
                    /\ TreeNode.sha node = Some blobSha)
          /\ (forall node, result = Some node ->
                node = {| TreeNode.path := path; TreeNode.mode := Some m100644;
                          TreeNode.type := Some blob;
                          TreeNode.sha := Some blobSha |})).
Proof.
  intros path. split.
  - intros Hd s. unfold Fit.createTreeNodeFromFile. fold path.
    destruct (decide _) as [_|Hn]; [|contradiction].
    destruct (forallb _ remoteTree) eqn:Hf.
    + exists None. split; [reflexivity|]. split; [|discriminate].
      split; [intros _; apply forallb_path_differs; assumption|reflexivity].
    + eexists. split; [reflexivity|]. split; [|intros node [= <-]; reflexivity].
      split; [discriminate|].
      intros Hni%forallb_path_differs. congruence.
  - intros Hd s s1 s2 s3 s4 file bytes iv blobSha content key encrypted
           H1 H2 H3 H4.
    unfold Fit.createTreeNodeFromFile. fold path.
    destruct (decide _) as [Hc|_]; [contradiction|].
    cbn [bind call run]. rewrite H1. cbn [bind call run]. rewrite H2.
    unfold Fit.createBlob, Encryption.encrypt, Encryption.generateIV.
    cbn [bind call run]. rewrite H3. cbn [bind call run].
    fold content. fold key. fold encrypted. rewrite H4.
    cbn [bind call run].
    destruct (existsb _ remoteTree) eqn:He; cbn [bind run].
    + exists None. split; [reflexivity|]. split; [|discriminate].
      split; [intros _; apply existsb_same_entry; assumption|reflexivity].
    + eexists. split; [reflexivity|]. split; [|intros node [= <-]; reflexivity].
      split; [discriminate|].
      intros Hex%existsb_same_entry. congruence.
Qed.

(** ** The theorems above, applied in the worlds of [Scenario] *)

Lemma resolveFileConflict_both_deleted_witness :
  run Scenario.handler
    (FitSync.resolveFileConflict Sample.platform Scenario.removeLineEndings
       (Scenario.fit Scenario.emptyStore)
       {| ClashStatus.path := "gone.md"; ClashStatus.localStatus := deleted;
          ClashStatus.remoteStatus := REMOVED |}
       None)
    Scenario.worldWithReadme
  = (Ok {| ConflictResolutionResult.path := "gone.md";
           ConflictResolutionResult.noDiff := true;
           ConflictResolutionResult.fileOp := None |},
     Scenario.worldWithReadme, []).
Proof.
  apply (resolveFileConflict_both_deleted Sample.platform
           Scenario.removeLineEndings (Scenario.fit Scenario.emptyStore)
           {| ClashStatus.path := "gone.md"; ClashStatus.localStatus := deleted;
              ClashStatus.remoteStatus := REMOVED |} None);
    reflexivity.
Defined.

Lemma getBlob_decrypted_or_raw_witness :
  run Scenario.handler
    (Fit.getBlob Sample.platform (Scenario.fit Scenario.emptyStore) "b0")
    Scenario.worldWithReadme
  = (Ok "# Fit", Scenario.worldWithReadme, [Ev (GET_blobs "b0")])
  /\ run Scenario.handler
       (Fit.getBlob Sample.platform (Scenario.fit Scenario.emptyStore) "b1")
       Scenario.worldWithReadme
     = (Ok "hello", Scenario.worldWithReadme, [Ev (GET_blobs "b1")]).
Proof.
  split.
  - destruct (getBlob_decrypted_or_raw Sample.platform
                (Scenario.fit Scenario.emptyStore) "b0" "# Fit"
                _ Scenario.handler Scenario.worldWithReadme
                Scenario.worldWithReadme eq_refl) as [Hraw _].
    apply Hraw. reflexivity.
  - destruct (getBlob_decrypted_or_raw Sample.platform
                (Scenario.fit Scenario.emptyStore) "b1"
                "AAAAAAAAAAAAAAAAaGVsbG9H"
                _ Scenario.handler Scenario.worldWithReadme
                Scenario.worldWithReadme eq_refl) as [_ Hdec].
    apply Hdec. reflexivity.
Defined.

Lemma getTree_keeps_every_node_witness :
  exists result,
    run Scenario.handler
      (Fit.getTree Sample.platform (Scenario.fit Scenario.emptyStore) "c1")
      Scenario.worldWithReadme
    = (Ok result, Scenario.worldWithReadme, [Ev (GET_trees "c1")])
    /\ length result = 2.
Proof.
  destruct (getTree_keeps_every_node Sample.platform
              (Scenario.fit Scenario.emptyStore) "c1"
              [Scenario.readmeNode; Scenario.pushedNode]
              _ Scenario.handler Scenario.worldWithReadme
              Scenario.worldWithReadme)
    as [result [Hrun [Hlen _]]].
  - reflexivity.
  - exists result. split; assumption.
Defined.

(** C8, as the spec has it, fails: the path of [readmeNode] does not
    decrypt, and [getTree] returns the node all the same, first in the
    result, with its path unchanged. *)
Lemma getTree_undecryptable_node_not_dropped :
  Encryption.decryptPath Sample.platform Sample.encryption
    (TreeNode.path Scenario.readmeNode) = None
  /\ fst (fst (run Scenario.handler
                 (Fit.getTree Sample.platform
                    (Scenario.fit Scenario.emptyStore) "c1")
                 Scenario.worldWithReadme))
     = Ok [ Scenario.readmeNode;
            {| TreeNode.path := "notes/a.md"; TreeNode.mode := Some m100644;
               TreeNode.type := Some blob; TreeNode.sha := Some "b1" |} ].
Proof. split; vm_compute; reflexivity. Qed.

Lemma createTreeNodeFromFile_result_witness :
  exists result,
    run Scenario.handler
      (Fit.createTreeNodeFromFile Sample.platform
         (Scenario.fit Scenario.emptyStore)
         {| LocalChange.path := "notes/a.md"; LocalChange.status := changed |}
         [Scenario.readmeNode])
      Scenario.worldWithReadme
    = (Ok result, Scenario.worldWithReadme,
       [Ev (GetTFile "notes/a.md");
        Ev (ReadBinary {| TFile.path := "notes/a.md" |});
        Ev (GetRandomValues 12);
        Ev (POST_blobs "AAAAAAAAAAAAAAAAYUdWc2JHOD1H" "base64")])
    /\ (forall node, result = Some node ->
          node = {| TreeNode.path := "notes/a.md"; TreeNode.mode := Some m100644;
                    TreeNode.type := Some blob; TreeNode.sha := Some "b2" |}).
Proof.
  destruct (createTreeNodeFromFile_result Sample.platform
              (Scenario.fit Scenario.emptyStore)
              {| LocalChange.path := "notes/a.md"; LocalChange.status := changed |}
              [Scenario.readmeNode] _ Scenario.handler) as [_ Hnew].
  destruct (Hnew ltac:(discriminate)
              Scenario.worldWithReadme Scenario.worldWithReadme
              Scenario.worldWithReadme Scenario.worldWithReadme
              Scenario.worldWithReadme
              {| TFile.path := "notes/a.md" |} (list_byte_of_string "hello")
              (repeat x00 12) "b2" eq_refl eq_refl eq_refl eq_refl)
    as [result [Hrun [_ Hnode]]].
  exists result. split; [exact Hrun|exact Hnode].
Defined.

(** ** Change detection *)
Section ChangeDetection.

Lemma changeKind_None (a b : option string) :
  Utils.changeKind a b = None <-> a = b.
Proof.
  unfold Utils.changeKind. destruct a as [x|], b as [y|]; try (split; congruence).
  destruct (decide (x = y)); split; congruence.
Qed.

Lemma omap_nil_iff {A B : Type} (f : A -> option B) (l : list A) :
  omap f l = [] <-> forall x, x ∈ l -> f x = None.
Proof.
  induction l as [|a l IH]; cbn [omap list_omap].
  - split; [intros _ x Hx; inversion Hx|reflexivity].
  - destruct (f a) eqn:Ha.
    + split; [discriminate|]. intros H. specialize (H a (list_elem_of_here _ _)).
      congruence.
    + rewrite IH. split.
      * intros H x [->|Hx]%elem_of_cons; auto.
      * intros H x Hx. apply H. right. assumption.
Qed.

Lemma compareSha_nil_iff (current stored : gmap string string) :
  Utils.compareSha current stored = [] <-> current = stored.
Proof.
  unfold Utils.compareSha. rewrite omap_nil_iff. split.
  - intros H. apply map_eq. intros path.
    destruct (decide (path ∈ dom current ∪ dom stored)) as [Hin|Hout].
    + specialize (H path). rewrite elem_of_elements in H. specialize (H Hin).
      apply changeKind_None.
      destruct (Utils.changeKind _ _); [discriminate|reflexivity].
    + apply not_elem_of_union in Hout as [H1 H2].
      apply not_elem_of_dom in H1, H2. congruence.
  - intros -> path _.
    rewrite (proj2 (changeKind_None (stored !! path) (stored !! path)) eq_refl).
    reflexivity.
Qed.

Lemma compareSha_local_nil_iff (current stored : gmap string string) :
  Utils.compareSha_local current stored = [] <-> current = stored.
Proof.
  unfold Utils.compareSha_local. rewrite <- compareSha_nil_iff.
  destruct (Utils.compareSha current stored); cbn; split; congruence.
Qed.

End ChangeDetection.

(** ** The pre-sync checks *)
Section PreSync.
Context (P : Platform) (fit : Fit.t) {St : Type} (h : Handler St).

Lemma run_remoteUpdated (s s1 : St) (c : string) :
  h _ (GET_ref ("heads/" ++ Fit.branch fit)) s = (Ok c, s1) ->
  run h (Fit.remoteUpdated fit) s
  = (Ok (c, bool_decide (Some c <> Fit.lastFetchedCommitSha fit)), s1,
     [Ev (GET_ref ("heads/" ++ Fit.branch fit))]).
Proof.
  intros H. unfold Fit.remoteUpdated, Fit.getLatestRemoteCommitSha, Fit.getRef.
  cbn [call try_catch bind run]. rewrite H. reflexivity.
Qed.

Lemma run_getRemoteTreeSha (s : St) (tree_sha : string) :
  run h (Fit.getRemoteTreeSha P fit tree_sha) s
  = match h _ (GET_trees tree_sha) s with
    | (Ok arr, s1) =>
        match Fit.remoteShaEntries (Fit.decryptNodePath P fit <$> arr) with
        | Ok entries =>
            (Ok (Fit.fromEntries (omap id entries)), s1, [Ev (GET_trees tree_sha)])
        | Thrown e => (Thrown e, s1, [Ev (GET_trees tree_sha)])
        end
    | (Thrown e, s1) => (Thrown e, s1, [Ev (GET_trees tree_sha)])
    end.
Proof.
  unfold Fit.getRemoteTreeSha, Fit.getTree. cbn [call bind run].
  destruct (h _ (GET_trees tree_sha) s) as [[arr|e] s1]; cbn [bind run];
    [|reflexivity].
  destruct (Fit.remoteShaEntries _); reflexivity.
Qed.

(** The test [localChanges.length === 0 && !remoteUpdated]. *)
Lemma inSync_test (cur : gmap string string) (c : string) :
  (length (Utils.compareSha_local cur (Fit.localSha fit)) =? 0)%nat
  && negb (bool_decide (Some c <> Fit.lastFetchedCommitSha fit)) = true
  <-> cur = Fit.localSha fit /\ Fit.lastFetchedCommitSha fit = Some c.
Proof.
  rewrite andb_true_iff, Nat.eqb_eq, negb_true_iff, bool_decide_eq_false.
  rewrite length_zero_iff_nil, compareSha_local_nil_iff.
  split; intros [H1 H2]; split; auto.
  destruct (decide (Some c = Fit.lastFetchedCommitSha fit)); [auto|contradiction].
Qed.

Lemma performPreSyncChecks_inSync (s s1 s2 : St) (cur : gmap string string)
    (c : string) (t1 : list Event) :
  run h (Fit.computeLocalSha P) s = (Ok cur, s1, t1) ->
  h _ (GET_ref ("heads/" ++ Fit.branch fit)) s1 = (Ok c, s2) ->
  cur = Fit.localSha fit -> Fit.lastFetchedCommitSha fit = Some c ->
  run h (FitSync.performPreSyncChecks P fit) s
  = (Ok FitSync.InSync, s2,
     (t1 ++ [Ev (GET_ref ("heads/" ++ Fit.branch fit))])%list).
Proof.
  intros Hc Hr Hl Hf. unfold FitSync.performPreSyncChecks.
  rewrite (run_bind_ok h _ _ _ _ _ _ Hc).
  unfold Fit.getLocalChanges. cbn [bind].
  rewrite (run_bind_ok h _ _ _ _ _ _ (run_remoteUpdated s1 s2 c Hr)).
  rewrite (proj2 (inSync_test cur c) (conj Hl Hf)).
  reflexivity.
Qed.

Lemma performPreSyncChecks_changed (s s1 s2 : St) (cur : gmap string string)
    (c : string) (t1 : list Event) :
  run h (Fit.computeLocalSha P) s = (Ok cur, s1, t1) ->
  h _ (GET_ref ("heads/" ++ Fit.branch fit)) s1 = (Ok c, s2) ->
  ~ (cur = Fit.localSha fit /\ Fit.lastFetchedCommitSha fit = Some c) ->
  match h _ (GET_trees c) s2 with
  | (Ok arr, s3) =>
      match Fit.remoteShaEntries (Fit.decryptNodePath P fit <$> arr) with
      | Ok entries =>
          exists status clashes,
            status <> FitSync.inSync
            /\ run h (FitSync.performPreSyncChecks P fit) s
               = (Ok (FitSync.Changes status
                        {| RemoteUpdate.remoteChanges :=
                             Utils.compareSha_remote
                               (Fit.fromEntries (omap id entries))
                               (Fit.lastFetchedRemoteSha fit);
                           RemoteUpdate.remoteTreeSha :=
                             Fit.fromEntries (omap id entries);
                           RemoteUpdate.latestRemoteCommitSha := c;
                           RemoteUpdate.clashedFiles := clashes |}
                        (Utils.compareSha_local cur (Fit.localSha fit)) cur),
                  s3,
                  (t1 ++ [Ev (GET_ref ("heads/" ++ Fit.branch fit));
                          Ev (GET_trees c)])%list)
      | Thrown e =>
          run h (FitSync.performPreSyncChecks P fit) s
          = (Thrown e, s3,
             (t1 ++ [Ev (GET_ref ("heads/" ++ Fit.branch fit));
                     Ev (GET_trees c)])%list)
      end
  | (Thrown e, s3) =>
      run h (FitSync.performPreSyncChecks P fit) s
      = (Thrown e, s3,
         (t1 ++ [Ev (GET_ref ("heads/" ++ Fit.branch fit));
                 Ev (GET_trees c)])%list)
  end.
Proof.
  intros Hc Hr Hn. unfold FitSync.performPreSyncChecks.
  rewrite (run_bind_ok h _ _ _ _ _ _ Hc).
  unfold Fit.getLocalChanges. cbn [bind].
  rewrite (run_bind_ok h _ _ _ _ _ _ (run_remoteUpdated s1 s2 c Hr)).
  destruct ((length _ =? 0)%nat && negb _) eqn:Htest.
  { exfalso. apply Hn. apply inSync_test. exact Htest. }
  rewrite run_bind, run_getRemoteTreeSha.
  destruct (h _ (GET_trees c) s2) as [[arr|e] s3]; [|reflexivity].
  destruct (Fit.remoteShaEntries _) as [entries|e]; [|reflexivity].
  unfold Fit.getRemoteChanges. cbn [bind].
  set (lc := Utils.compareSha_local cur (Fit.localSha fit)).
  set (T := Fit.fromEntries (omap id entries)).
  set (rc := Utils.compareSha_remote T (Fit.lastFetchedRemoteSha fit)).
  destruct ((0 <? length lc)%nat && negb _);
    [exists FitSync.onlyLocalChanged, []; split; [discriminate|reflexivity]|].
  destruct (_ && (length rc =? 0)%nat);
    [exists FitSync.onlyRemoteCommitShaChanged, [];
     split; [discriminate|reflexivity]|].
  destruct ((length lc =? 0)%nat && _);
    [exists FitSync.onlyRemoteChanged, []; split; [discriminate|reflexivity]|].
  rewrite getClashedChanges_omap.
  destruct (length (omap (clashOf rc) lc) =? 0)%nat.
  - exists FitSync.localAndRemoteChangesCompatible, (omap (clashOf rc) lc).
    split; [discriminate|reflexivity].
  - exists FitSync.localAndRemoteChangesClashed, (omap (clashOf rc) lc).
    split; [discriminate|reflexivity].
Qed.

End PreSync.

Lemma remoteUpdated_Ok {St : Type} (h : Handler St) (fit : Fit.t)
    (s s' : St) (c : string) (u : bool) (t : list Event) :
  run h (Fit.remoteUpdated fit) s = (Ok (c, u), s', t) ->
  u = bool_decide (Some c <> Fit.lastFetchedCommitSha fit).
Proof.
  unfold Fit.remoteUpdated, Fit.getLatestRemoteCommitSha, Fit.getRef.
  cbn [call try_catch bind run].
  destruct (h _ (GET_ref _) s) as [[c0|e] s1]; cbn; [|discriminate].
  intros [= <- <- <- <-]. reflexivity.
Qed.

Lemma performPreSyncChecks_table (P : Platform) (fit : Fit.t)
    (St : Type) (h : Handler St) (s s' : St) (tr : list Event)
    (st : FitSync.PreSyncCheckResultType) (ru : RemoteUpdate.t)
    (lc : list LocalChange.t) (lts : gmap string string) :
  run h (FitSync.performPreSyncChecks P fit) s
  = (Ok (FitSync.Changes st ru lc lts), s', tr) ->
  let moved :=
    Some (RemoteUpdate.latestRemoteCommitSha ru) <> Fit.lastFetchedCommitSha fit in
  let rc := RemoteUpdate.remoteChanges ru in
  let clashes := RemoteUpdate.clashedFiles ru in
  (st = FitSync.onlyLocalChanged <-> lc <> [] /\ ~ moved)
  /\ (st = FitSync.onlyRemoteCommitShaChanged <-> lc = [] /\ rc = [])
  /\ (st = FitSync.onlyRemoteChanged <-> lc = [] /\ rc <> [])
  /\ (st = FitSync.localAndRemoteChangesCompatible
      <-> lc <> [] /\ moved /\ clashes = [])
  /\ (st = FitSync.localAndRemoteChangesClashed <-> clashes <> [])
  /\ (lc = [] -> moved)
  /\ (lc <> [] -> moved ->
      Fit.getClashedChanges lc rc = Some clashes).
Proof.
  unfold FitSync.performPreSyncChecks. rewrite run_bind.
  destruct (run h (Fit.computeLocalSha P) s) as [[[cur|e] s1] t1];
    [|discriminate].
  unfold Fit.getLocalChanges. cbn [bind]. rewrite run_bind.
  destruct (run h (Fit.remoteUpdated fit) s1) as [[[[c upd]|e] s2] t2] eqn:Hup;
    [|discriminate].
  apply remoteUpdated_Ok in Hup.
  remember (Utils.compareSha_local cur (Fit.localSha fit)) as lc0 eqn:Hlc.
  destruct ((length lc0 =? 0)%nat && negb upd) eqn:Htest; [discriminate|].
  rewrite run_bind, run_getRemoteTreeSha.
  destruct (h _ (GET_trees c) s2) as [[arr|e] s3]; [|discriminate].
  destruct (Fit.remoteShaEntries _) as [entries|e]; [|discriminate].
  unfold Fit.getRemoteChanges. cbn [bind].
  remember (Utils.compareSha_remote _ _) as rc0 eqn:Hrc.
  clear Hlc Hrc.
  assert (Hmoved : upd = true
                   <-> Some c <> Fit.lastFetchedCommitSha fit).
  { rewrite Hup. apply bool_decide_eq_true. }
  assert (Hstill : upd = false
                   <-> ~ Some c <> Fit.lastFetchedCommitSha fit).
  { rewrite Hup. apply bool_decide_eq_false. }
  clear Hup.
  destruct lc0 as [|l0 lc0], upd; cbn in Htest; try discriminate;
    destruct rc0 as [|r0 rc0]; cbn [length Nat.eqb Nat.ltb Nat.leb andb negb].
  - cbn. intros [= <- <- <- <- <- <-]. cbn.
    repeat split; try discriminate; try tauto; try (intros [? ?]; congruence);
      try apply Hmoved; auto.
  - cbn. intros [= <- <- <- <- <- <-]. cbn.
    repeat split; try discriminate; try tauto; try (intros [? ?]; congruence);
      try apply Hmoved; auto.
  - destruct (Fit.getClashedChanges _ _) as [[|c0 cl]|] eqn:Hcl;
      cbn; try discriminate; intros [= <- <- <- <- <- <-]; cbn;
      repeat split; try discriminate; try tauto;
      try (intros [? ?]; congruence); try (intros [? [? ?]]; congruence);
      try apply Hmoved; auto.
  - destruct (Fit.getClashedChanges _ _) as [[|c0 cl]|] eqn:Hcl;
      cbn; try discriminate; intros [= <- <- <- <- <- <-]; cbn;
      repeat split; try discriminate; try tauto;
      try (intros [? ?]; congruence); try (intros [? [? ?]]; congruence);
      try apply Hmoved; auto.
  - cbn. intros [= <- <- <- <- <- <-]. cbn.
    pose proof (proj1 Hstill eq_refl).
    repeat split; try discriminate; try tauto;
      try (intros [? ?]; congruence); try (intros [? [? ?]]; tauto).
  - cbn. intros [= <- <- <- <- <- <-]. cbn.
    pose proof (proj1 Hstill eq_refl).
    repeat split; try discriminate; try tauto;
      try (intros [? ?]; congruence); try (intros [? [? ?]]; tauto).
Qed.

(** C2. Let the local fingerprints be computed and the remote ref be
    fetched.  If the fingerprints equal the last-synced snapshot and the
    commit id fetched is the last-fetched one, then [getLocalChanges]
    returns the empty list, and [performPreSyncChecks] returns [inSync]
    after exactly the calls of the fingerprint computation and the one
    fetch of the ref.  Otherwise whatever [performPreSyncChecks] returns
    was returned after one more call, the fetch of the tree of that
    commit; it has a status other than [inSync] and carries the computed
    local changes and fingerprints and the computed remote update: the
    commit id, the fingerprints read off the fetched tree, the remote
    changes computed from them, and the clash list, which is that of
    [getClashedChanges] when both sides moved and empty otherwise.  Which
    of the five statuses it is follows from these; and it does return when
    the tree is fetched and well formed. *)
Theorem performPreSyncChecks_inSync_iff_unchanged (P : Platform) (fit : Fit.t)
    (St : Type) (h : Handler St) (s s1 s2 : St) (cur : gmap string string)
    (c : string) (t1 : list Event) :
  run h (Fit.computeLocalSha P) s = (Ok cur, s1, t1) ->
  h _ (GET_ref ("heads/" ++ Fit.branch fit)) s1 = (Ok c, s2) ->
  (cur = Fit.localSha fit /\ Fit.lastFetchedCommitSha fit = Some c ->
   run h (Fit.getLocalChanges P fit (Some cur)) s1 = (Ok [], s1, [])
   /\ run h (FitSync.performPreSyncChecks P fit) s
      = (Ok FitSync.InSync, s2,
         (t1 ++ [Ev (GET_ref ("heads/" ++ Fit.branch fit))])%list))
  /\ (~ (cur = Fit.localSha fit /\ Fit.lastFetchedCommitSha fit = Some c) ->
      (forall r s' tr,
         run h (FitSync.performPreSyncChecks P fit) s = (Ok r, s', tr) ->
         FitSync.status r <> FitSync.inSync
         /\ exists status remoteUpdate arr entries,
              let localChanges :=
                Utils.compareSha_local cur (Fit.localSha fit) in
              let remoteChanges := RemoteUpdate.remoteChanges remoteUpdate in
              let clashes := RemoteUpdate.clashedFiles remoteUpdate in
              r = FitSync.Changes status remoteUpdate localChanges cur
              /\ RemoteUpdate.latestRemoteCommitSha remoteUpdate = c
              /\ remoteChanges
                 = Utils.compareSha_remote
                     (RemoteUpdate.remoteTreeSha remoteUpdate)
                     (Fit.lastFetchedRemoteSha fit)
              /\ h _ (GET_trees c) s2 = (Ok arr, s')
              /\ Fit.remoteShaEntries (Fit.decryptNodePath P fit <$> arr)
                 = Ok entries
              /\ RemoteUpdate.remoteTreeSha remoteUpdate
                 = Fit.fromEntries (omap id entries)
              /\ tr = (t1 ++ [Ev (GET_ref ("heads/" ++ Fit.branch fit));
                              Ev (GET_trees c)])%list
              /\ (localChanges <> []
                  /\ Some c <> Fit.lastFetchedCommitSha fit ->
                  Fit.getClashedChanges localChanges remoteChanges
                  = Some clashes)
              /\ (localChanges = []
                  \/ Some c = Fit.lastFetchedCommitSha fit ->
                  clashes = [])
              /\ (status = FitSync.onlyLocalChanged
                  <-> localChanges <> []
                      /\ Some c = Fit.lastFetchedCommitSha fit)
              /\ (status = FitSync.onlyRemoteCommitShaChanged
                  <-> localChanges = [] /\ remoteChanges = [])
              /\ (status = FitSync.onlyRemoteChanged
                  <-> localChanges = [] /\ remoteChanges <> [])
              /\ (status = FitSync.localAndRemoteChangesCompatible
                  <-> localChanges <> []
                      /\ Some c <> Fit.lastFetchedCommitSha fit
                      /\ clashes = [])
              /\ (status = FitSync.localAndRemoteChangesClashed
                  <-> clashes <> []))
      /\ (forall arr s3 entries,
            h _ (GET_trees c) s2 = (Ok arr, s3) ->
            Fit.remoteShaEntries (Fit.decryptNodePath P fit <$> arr)
            = Ok entries ->
            exists r,
              run h (FitSync.performPreSyncChecks P fit) s
              = (Ok r, s3,
                 (t1 ++ [Ev (GET_ref ("heads/" ++ Fit.branch fit));
                         Ev (GET_trees c)])%list))).
Proof.
  intros Hc Hr. split.
  - intros [Hl Hf]. split.
    + unfold Fit.getLocalChanges. cbn [bind run].
      rewrite (proj2 (compareSha_local_nil_iff cur (Fit.localSha fit)) Hl).
      reflexivity.
    + apply (performPreSyncChecks_inSync P fit h s s1 s2 cur c t1); assumption.
  - intros Hn.
    pose proof (performPreSyncChecks_changed P fit h s s1 s2 cur c t1 Hc Hr Hn)
      as Hrun.
    split.
    + intros r s' tr Hok.
      destruct (h _ (GET_trees c) s2) as [[arr|e] s3] eqn:Ht; [|congruence].
      destruct (Fit.remoteShaEntries _) as [entries|e] eqn:He; [|congruence].
      destruct Hrun as [status [clashes [Hst Hrun]]].
      pose proof (performPreSyncChecks_table P fit St h s s3 _ _ _ _ _ Hrun)
        as Htable.
      rewrite Hrun in Hok. injection Hok as <- <- <-.
      split; [exact Hst|]. eexists status, _, arr, entries. cbn zeta.
      cbn [RemoteUpdate.remoteChanges RemoteUpdate.remoteTreeSha
           RemoteUpdate.latestRemoteCommitSha RemoteUpdate.clashedFiles]
        in Htable |- *.
      set (lc := Utils.compareSha_local cur (Fit.localSha fit)) in *.
      set (rc := Utils.compareSha_remote _ _) in *.
      destruct Htable
        as [Hlocal [Hhead [Hremote [Hcompat [Hclash [Hmoved Hboth]]]]]].
      assert (Hstill : ~ Some c <> Fit.lastFetchedCommitSha fit
                       <-> Some c = Fit.lastFetchedCommitSha fit).
      { destruct (decide (Some c = Fit.lastFetchedCommitSha fit)); tauto. }
      repeat (split; [first [reflexivity | assumption]|]).
      split; [intros [H1 H2]; auto|].
      split.
      { intros Hside. destruct clashes as [|x l]; [reflexivity|].
        assert (Hst' : status = FitSync.localAndRemoteChangesClashed)
          by (apply Hclash; discriminate).
        exfalso. subst status. destruct Hside as [Hnil|Hsame].
        - destruct rc as [|r0 rc0].
          + assert (E : FitSync.localAndRemoteChangesClashed
                        = FitSync.onlyRemoteCommitShaChanged)
              by (apply Hhead; auto).
            discriminate E.
          + assert (E : FitSync.localAndRemoteChangesClashed
                        = FitSync.onlyRemoteChanged)
              by (apply Hremote; split; [exact Hnil|discriminate]).
            discriminate E.
        - destruct lc as [|l0 lc0].
          + apply (Hmoved eq_refl). exact Hsame.
          + assert (E : FitSync.localAndRemoteChangesClashed
                        = FitSync.onlyLocalChanged).
            { apply Hlocal. split; [discriminate|]. apply Hstill. exact Hsame. }
            discriminate E. }
      split; [rewrite Hlocal, Hstill; reflexivity|].
      repeat (split; [assumption|]). assumption.
    + intros arr s3 entries Ht He. rewrite Ht, He in Hrun.
      destruct Hrun as [status [clashes [_ Hrun]]]. eexists. exact Hrun.
Qed.

Lemma performPreSyncChecks_inSync_iff_unchanged_witness :
  run Scenario.handler
    (FitSync.performPreSyncChecks Sample.platform
       (Scenario.fit Scenario.syncedStore))
    Scenario.worldInSync
  = (Ok FitSync.InSync, Scenario.worldInSync,
     [Ev VaultGetFiles; Ev (GetTFile "notes/a.md");
      Ev (ReadBinary {| TFile.path := "notes/a.md" |});
      Ev (GET_ref "heads/main")])
  /\ exists r w tr,
       run Scenario.handler
         (FitSync.performPreSyncChecks Sample.platform
            (Scenario.fit Scenario.emptyStore))
         Scenario.worldWithClash = (Ok r, w, tr)
       /\ FitSync.status r <> FitSync.inSync
       /\ FitSync.status r = FitSync.localAndRemoteChangesClashed.
Proof.
  split.
  - destruct (performPreSyncChecks_inSync_iff_unchanged Sample.platform
                (Scenario.fit Scenario.syncedStore) _ Scenario.handler
                Scenario.worldInSync Scenario.worldInSync Scenario.worldInSync
                (LocalStores.localSha Scenario.syncedStore) "c1"
                [Ev VaultGetFiles; Ev (GetTFile "notes/a.md");
                 Ev (ReadBinary {| TFile.path := "notes/a.md" |})])
      as [Hsame _].
    + vm_compute. reflexivity.
    + reflexivity.
    + apply Hsame. split; reflexivity.
  - destruct (run Scenario.handler (Fit.computeLocalSha Sample.platform)
                Scenario.worldWithClash) as [[o w1] t1] eqn:Hcur.
    pose proof Hcur as Hres. vm_compute in Hres.
    destruct o as [cur|e]; [|discriminate Hres].
    assert (Hw : w1 = Scenario.worldWithClash)
      by (injection Hres as _ <- _; reflexivity).
    clear Hres. subst w1.
    destruct (performPreSyncChecks_inSync_iff_unchanged Sample.platform
                (Scenario.fit Scenario.emptyStore) _ Scenario.handler
                Scenario.worldWithClash Scenario.worldWithClash
                Scenario.worldWithClash cur "c2" t1 Hcur eq_refl)
      as [_ Hother].
    destruct Hother as [Hshape _]; [intros [_ Hsame]; discriminate Hsame|].
    destruct (run Scenario.handler
                (FitSync.performPreSyncChecks Sample.platform
                   (Scenario.fit Scenario.emptyStore))
                Scenario.worldWithClash) as [[o w] tr] eqn:Hrun.
    pose proof Hrun as Hres. vm_compute in Hres.
    destruct o as [r|e]; [|discriminate Hres].
    exists r, w, tr. split; [reflexivity|].
    split; [exact (proj1 (Hshape r w tr eq_refl))|].
    injection Hres as <- _ _. reflexivity.
Defined.

(** ** Conflict resolution and the local files *)
Section Quarantine.
Context {R : Type} (P : Platform) (removeLineEndings : string -> string).
Context (contentBytes : string -> list byte).
Context (oracle :
  forall A : Type, Cmd A -> gmap string (list byte) -> R -> Outcome A * R).
Context (collaborators :
  forall A : Type, Cmd A -> World.t R -> Outcome A * World.t R).

Lemma quarantine_path_differs (path : string) : path <> "_fit/" ++ path.
Proof.
  intros H. apply (f_equal String.length) in H.
  change ("_fit/" ++ path)
    with (String "_" (String "f" (String "i" (String "t" (String "/" path)))))
    in H.
  cbn [String.length] in H. lia.
Qed.

Lemma resolveFileConflict_frame (fit : Fit.t) (clash : ClashStatus.t)
    (latestRemoteFileSha : option string) (w w' : World.t R)
    (o : Outcome ConflictResolutionResult.t) (tr : list Event) :
  run (World.handler contentBytes oracle collaborators)
      (FitSync.resolveFileConflict P removeLineEndings fit clash
         latestRemoteFileSha) w = (o, w', tr) ->
  World.store w' = World.store w
  /\ forall p, p <> "_fit/" ++ ClashStatus.path clash ->
               World.vault w' !! p = World.vault w !! p.
Proof.
  unfold FitSync.resolveFileConflict, FitSync.handleLocalDeletionConflict,
    Fit.getBlob.
  repeat first
    [ progress cbn [bind call call_detached run World.handler World.askRemote
                    World.vault World.store World.remote fst snd]
    | progress unfold World.askRemote
    | match goal with
      | |- (_, _, _) = (_, _, _) -> _ =>
          intros [= <- <- <-]; cbn [World.vault World.store];
          split; [reflexivity|]; intros p Hp;
          try (change ("_fit" ++ "/" ++ ClashStatus.path clash)
                 with ("_fit/" ++ ClashStatus.path clash);
               rewrite lookup_insert_ne by congruence);
          reflexivity
      | |- context [if decide ?Q then _ else _] => destruct (decide Q)
      | |- context [oracle ?A ?c ?v ?r] =>
          destruct (oracle A c v r) as [[?|?] ?]
      | |- context [match World.vault w !! ?p with _ => _ end] =>
          destruct (World.vault w !! p)
      | |- context [Encryption.decrypt ?a ?b ?c] =>
          destruct (Encryption.decrypt a b c)
      | |- context [if FitSync.truthy ?x then _ else _] =>
          destruct (FitSync.truthy x)
      end ].
Qed.

Lemma resolveFileConflict_differing_run (fit : Fit.t) (clash : ClashStatus.t)
    (latestRemoteFileSha : option string) (w : World.t R)
    (bytes : list byte) (content : string) (r1 : R) :
  let path := ClashStatus.path clash in
  let remoteContent :=
    match Encryption.decrypt P (Fit.encryption fit)
            (JS.remove_all "010" content) with
    | Some plainText => plainText
    | None => content
    end in
  ClashStatus.localStatus clash <> deleted ->
  World.vault w !! path = Some bytes ->
  FitSync.truthy latestRemoteFileSha = true ->
  oracle _ (GET_blobs (FitSync.routeParameter latestRemoteFileSha))
    (World.vault w) (World.remote w) = (Ok content, r1) ->
  removeLineEndings remoteContent
  <> removeLineEndings (arrayBufferToBase64 P bytes) ->
  run (World.handler contentBytes oracle collaborators)
      (FitSync.resolveFileConflict P removeLineEndings fit clash
         latestRemoteFileSha) w
  = (Ok {| ConflictResolutionResult.path := path;
           ConflictResolutionResult.noDiff := false;
           ConflictResolutionResult.fileOp :=
             Some (FileOpRecord.make ("_fit/" ++ path) created) |},
     {| World.vault := <["_fit/" ++ path := contentBytes remoteContent]>
                         (World.vault w);
        World.store := World.store w; World.remote := r1 |},
     [Ev (GetTFile path); Ev (ReadBinary {| TFile.path := path |});
      Ev (GET_blobs (FitSync.routeParameter latestRemoteFileSha));
      Ev (EnsureFolderExists ("_fit/" ++ path));
      Ev (WriteToLocal ("_fit/" ++ path) remoteContent)]).
Proof.
  intros path remoteContent Hl Hv Ht Ho Hd.
  unfold FitSync.resolveFileConflict, Fit.getBlob. fold path.
  destruct (decide (_ /\ _)) as [[Hc _]|_]; [contradiction|].
  destruct (decide (ClashStatus.localStatus clash = deleted)) as [Hc|_];
    [contradiction|].
  cbn [bind call run World.handler]. rewrite Hv.
  cbn [bind call run World.handler TFile.path]. rewrite Hv, Ht.
  cbn [bind call run World.handler]. unfold World.askRemote. rewrite Ho.
  cbn [bind call run World.handler World.vault World.store World.remote].
  assert (Hrun : forall rc,
    rc = remoteContent ->
    removeLineEndings rc <> removeLineEndings (arrayBufferToBase64 P bytes)).
  { intros rc ->. exact Hd. }
  subst remoteContent.
  destruct (Encryption.decrypt P (Fit.encryption fit) _) as [plainText|];
    cbn [bind call run World.handler World.vault World.store World.remote];
    (destruct (decide _) as [_|Hn];
     [reflexivity|exfalso; apply Hn; apply Hrun; reflexivity]).
Qed.

Lemma resolveFileConflict_local_deletion_run (fit : Fit.t)
    (clash : ClashStatus.t) (latestRemoteFileSha : option string)
    (w : World.t R) (content : string) (r1 : R) :
  let path := ClashStatus.path clash in
  let remoteContent :=
    match Encryption.decrypt P (Fit.encryption fit)
            (JS.remove_all "010" content) with
    | Some plainText => plainText
    | None => content
    end in
  ClashStatus.localStatus clash = deleted ->
  ClashStatus.remoteStatus clash <> REMOVED ->
  oracle _ (GET_blobs (FitSync.routeParameter latestRemoteFileSha))
    (World.vault w) (World.remote w) = (Ok content, r1) ->
  run (World.handler contentBytes oracle collaborators)
      (FitSync.resolveFileConflict P removeLineEndings fit clash
         latestRemoteFileSha) w
  = (Ok {| ConflictResolutionResult.path := path;
           ConflictResolutionResult.noDiff := false;
           ConflictResolutionResult.fileOp :=
             Some (FileOpRecord.make ("_fit/" ++ path) created) |},
     {| World.vault := <["_fit/" ++ path := contentBytes remoteContent]>
                         (World.vault w);
        World.store := World.store w; World.remote := r1 |},
     [Ev (GET_blobs (FitSync.routeParameter latestRemoteFileSha));
      Ev (EnsureFolderExists "_fit");
      Ev (WriteToLocal ("_fit/" ++ path) remoteContent)]).
Proof.
  intros path remoteContent Hl Hr Ho.
  unfold FitSync.resolveFileConflict, FitSync.handleLocalDeletionConflict,
    Fit.getBlob. fold path.
  destruct (decide (_ /\ _)) as [[_ Hc]|_]; [contradiction|].
  destruct (decide (ClashStatus.localStatus clash = deleted)) as [_|Hc];
    [|contradiction].
  cbn [bind call run World.handler]. unfold World.askRemote. rewrite Ho.
  cbn [bind call run]. subst remoteContent.
  destruct (Encryption.decrypt P (Fit.encryption fit) _) as [plainText|];
    reflexivity.
Qed.

End Quarantine.

(** C4. Whatever the environment answers and however the resolution of a
    clash ends, the vault holds at the clashed path what it held before
    (the file is neither overwritten nor deleted), and so does every path
    other than ["_fit/<path>"]; the persisted snapshot is untouched.  When
    the local file exists, the remote tree has an id for the path, the
    blob is fetched, and its content differs from the local content, then
    the remote content is written at ["_fit/<path>"] and nowhere else, the
    result is [noDiff: false] with the file operation
    [{path: "_fit/<path>", status: "created"}].  The same holds for a
    local deletion against a remote change. *)
Theorem resolveFileConflict_keeps_local_file (R : Type) (P : Platform)
    (removeLineEndings : string -> string)
    (contentBytes : string -> list byte)
    (oracle :
       forall A : Type, Cmd A -> gmap string (list byte) -> R -> Outcome A * R)
    (collaborators :
       forall A : Type, Cmd A -> World.t R -> Outcome A * World.t R)
    (fit : Fit.t) (clash : ClashStatus.t) (latestRemoteFileSha : option string)
    (w w' : World.t R) (o : Outcome ConflictResolutionResult.t)
    (tr : list Event) :
  let path := ClashStatus.path clash in
  let quarantine := "_fit/" ++ path in
  run (World.handler contentBytes oracle collaborators)
      (FitSync.resolveFileConflict P removeLineEndings fit clash
         latestRemoteFileSha) w = (o, w', tr) ->
  World.vault w' !! path = World.vault w !! path
  /\ (forall p, p <> quarantine -> World.vault w' !! p = World.vault w !! p)
  /\ World.store w' = World.store w
  /\ (forall content r1,
        let remoteContent :=
          match Encryption.decrypt P (Fit.encryption fit)
                  (JS.remove_all "010" content) with
          | Some plainText => plainText
          | None => content
          end in
        oracle _ (GET_blobs (FitSync.routeParameter latestRemoteFileSha))
          (World.vault w) (World.remote w) = (Ok content, r1) ->
        (ClashStatus.localStatus clash <> deleted
         /\ FitSync.truthy latestRemoteFileSha = true
         /\ exists bytes,
              World.vault w !! path = Some bytes
              /\ removeLineEndings remoteContent
                 <> removeLineEndings (arrayBufferToBase64 P bytes))
        \/ (ClashStatus.localStatus clash = deleted
            /\ ClashStatus.remoteStatus clash <> REMOVED) ->
        o = Ok {| ConflictResolutionResult.path := path;
                  ConflictResolutionResult.noDiff := false;
                  ConflictResolutionResult.fileOp :=
                    Some (FileOpRecord.make quarantine created) |}
        /\ World.vault w'
           = <[quarantine := contentBytes remoteContent]> (World.vault w)).
Proof.
  intros path quarantine Hrun.
  destruct (resolveFileConflict_frame P removeLineEndings contentBytes oracle
              collaborators fit clash latestRemoteFileSha w w' o tr Hrun)
    as [Hstore Hframe].
  split; [apply Hframe, quarantine_path_differs|].
  split; [exact Hframe|]. split; [exact Hstore|].
  intros content r1 remoteContent Ho [[Hl [Ht [bytes [Hv Hd]]]]|[Hl Hr]].
  - rewrite (resolveFileConflict_differing_run P removeLineEndings
               contentBytes oracle collaborators fit clash
               latestRemoteFileSha w bytes content r1 Hl Hv Ht Ho Hd) in Hrun.
    injection Hrun as <- <- <-. split; reflexivity.
  - rewrite (resolveFileConflict_local_deletion_run P removeLineEndings
               contentBytes oracle collaborators fit clash
               latestRemoteFileSha w content r1 Hl Hr Ho) in Hrun.
    injection Hrun as <- <- <-. split; reflexivity.
Qed.

Lemma resolveFileConflict_keeps_local_file_witness :
  exists w',
    run Scenario.handler
      (FitSync.resolveFileConflict Sample.platform Scenario.removeLineEndings
         (Scenario.fit Scenario.emptyStore) Scenario.clashOnNote (Some "b3"))
      Scenario.worldWithClash
    = (Ok {| ConflictResolutionResult.path := "notes/a.md";
             ConflictResolutionResult.noDiff := false;
             ConflictResolutionResult.fileOp :=
               Some (FileOpRecord.make "_fit/notes/a.md" created) |},
       w',
       [Ev (GetTFile "notes/a.md");
        Ev (ReadBinary {| TFile.path := "notes/a.md" |});
        Ev (GET_blobs "b3");
        Ev (EnsureFolderExists "_fit/notes/a.md");
        Ev (WriteToLocal "_fit/notes/a.md" "d29ybGQ=")])
    /\ World.vault w' !! "notes/a.md" = Some (list_byte_of_string "hello")
    /\ World.vault w' !! "_fit/notes/a.md"
       = Some (list_byte_of_string "d29ybGQ=").
Proof.
  destruct (run Scenario.handler
      (FitSync.resolveFileConflict Sample.platform Scenario.removeLineEndings
         (Scenario.fit Scenario.emptyStore) Scenario.clashOnNote (Some "b3"))
      Scenario.worldWithClash) as [[o w'] tr] eqn:Hrun.
  destruct (resolveFileConflict_keeps_local_file _ Sample.platform
              Scenario.removeLineEndings list_byte_of_string Scenario.oracle
              Scenario.noCollaborator (Scenario.fit Scenario.emptyStore)
              Scenario.clashOnNote (Some "b3") Scenario.worldWithClash
              w' o tr Hrun) as [Hkeep [_ [_ Hwrite]]].
  destruct (Hwrite "AAAAAAAAAAAAAAAAZDI5eWJHUT1H" Scenario.clashedRemote
              eq_refl) as [Ho Hv].
  { left. split; [discriminate|]. split; [reflexivity|].
    exists (list_byte_of_string "hello"). split; [reflexivity|].
    vm_compute. discriminate. }
  exists w'. split; [|split].
  - vm_compute in Hrun. injection Hrun as <- <- <-. reflexivity.
  - exact Hkeep.
  - rewrite Hv. reflexivity.
Defined.

(** The whole conflict resolver leaves every file outside ["_fit/"] as it
    was, for any list of clashes. *)
Section QuarantineAll.
Context {R : Type} (P : Platform) (removeLineEndings : string -> string).
Context (contentBytes : string -> list byte).
Context (oracle :
  forall A : Type, Cmd A -> gmap string (list byte) -> R -> Outcome A * R).
Context (collaborators :
  forall A : Type, Cmd A -> World.t R -> Outcome A * World.t R).

Lemma quarantine_path_prefixed (path : string) :
  JS.startsWith ("_fit/" ++ path) "_fit/" = true.
Proof.
  unfold JS.startsWith.
  change ("_fit/" ++ path)
    with (String "_" (String "f" (String "i" (String "t" (String "/" path))))).
  cbn. destruct path; reflexivity.
Qed.

Lemma Promise_all_frame {A : Type} (ps : list (Prog A))
    (w w' : World.t R) (o : Outcome (list A)) (tr : list Event) :
  (forall p, p ∈ ps ->
     forall w1 w2 o1 t1,
       run (World.handler contentBytes oracle collaborators) p w1 = (o1, w2, t1) ->
       World.store w2 = World.store w1
       /\ forall x, JS.startsWith x "_fit/" = false ->
                    World.vault w2 !! x = World.vault w1 !! x) ->
  run (World.handler contentBytes oracle collaborators) (Promise_all ps) w
  = (o, w', tr) ->
  World.store w' = World.store w
  /\ forall x, JS.startsWith x "_fit/" = false ->
               World.vault w' !! x = World.vault w !! x.
Proof.
  revert w w' o tr. induction ps as [|p ps IH]; intros w w' o tr Hps.
  - cbn. intros [= <- <- <-]. split; reflexivity.
  - cbn [Promise_all]. rewrite run_bind.
    destruct (run _ p w) as [[[y|e] w1] t1] eqn:Hp.
    + rewrite run_bind.
      destruct (run _ (Promise_all ps) w1) as [[[ys|e] w2] t2] eqn:Hr.
      * cbn. intros [= <- <- <-].
        destruct (Hps p (list_elem_of_here _ _) _ _ _ _ Hp) as [Hs1 Hv1].
        destruct (IH w1 w2 _ _
                    (fun q Hq => Hps q (list_elem_of_further _ _ _ Hq)) Hr)
          as [Hs2 Hv2].
        split; [congruence|]. intros x Hx. rewrite Hv2, Hv1; auto.
      * intros [= <- <- <-].
        destruct (Hps p (list_elem_of_here _ _) _ _ _ _ Hp) as [Hs1 Hv1].
        destruct (IH w1 w2 _ _
                    (fun q Hq => Hps q (list_elem_of_further _ _ _ Hq)) Hr)
          as [Hs2 Hv2].
        split; [congruence|]. intros x Hx. rewrite Hv2, Hv1; auto.
    + intros [= <- <- <-].
      exact (Hps p (list_elem_of_here _ _) _ _ _ _ Hp).
Qed.

Lemma resolveConflicts_keeps_working_files (fit : Fit.t)
    (clashedFiles : list ClashStatus.t)
    (latestRemoteTreeSha : gmap string string)
    (w w' : World.t R) (o : Outcome FitSync.ResolveConflictsResult.t)
    (tr : list Event) :
  run (World.handler contentBytes oracle collaborators)
      (FitSync.resolveConflicts P removeLineEndings fit clashedFiles
         latestRemoteTreeSha) w = (o, w', tr) ->
  World.store w' = World.store w
  /\ forall x, JS.startsWith x "_fit/" = false ->
               World.vault w' !! x = World.vault w !! x.
Proof.
  unfold FitSync.resolveConflicts. rewrite run_bind.
  destruct (run _ (Promise_all _) w) as [[[rs|e] w1] t1] eqn:Hall;
    cbn; intros [= <- <- <-];
    (eapply Promise_all_frame; [|exact Hall]);
    intros p [clash [-> _]]%list_elem_of_fmap w1' w2 o1 t1' Hp;
    destruct (resolveFileConflict_frame P removeLineEndings contentBytes
                oracle collaborators fit clash _ _ _ _ _ Hp) as [Hs Hv];
    (split; [exact Hs|]); intros x Hx; apply Hv; intros ->;
    rewrite quarantine_path_prefixed in Hx; discriminate.
Qed.

End QuarantineAll.

(** ** The persistence callback in the runs of [sync] *)
Section Persistence.

Lemma NeverPersists_bind {A B : Type} (p : Prog A) (f : A -> Prog B) :
  NeverPersists p -> (forall a, NeverPersists (f a)) ->
  NeverPersists (bind p f).
Proof.
  intros Hp Hf. induction Hp as [a|e|R c k Hc Hk IH]; cbn [bind].
  - apply Hf.
  - constructor.
  - constructor; assumption.
Qed.

Lemma NeverPersists_call {R : Type} (c : Cmd R) :
  persists c = false -> NeverPersists (call c).
Proof. intros H. constructor; [exact H|]. intros [r|e]; constructor. Qed.

Lemma NeverPersists_call_detached {R : Type} (c : Cmd R) :
  persists c = false -> NeverPersists (call_detached c).
Proof. intros H. constructor; [exact H|]. intros o; constructor. Qed.

Lemma NeverPersists_try_catch {A : Type} (p : Prog A) (h : Error.t -> Prog A) :
  NeverPersists p -> (forall e, NeverPersists (h e)) ->
  NeverPersists (try_catch p h).
Proof.
  intros Hp Hh. induction Hp as [a|e|R c k Hc Hk IH]; cbn [try_catch].
  - constructor.
  - apply Hh.
  - constructor; assumption.
Qed.

Lemma NeverPersists_Promise_all {A : Type} (ps : list (Prog A)) :
  Forall NeverPersists ps -> NeverPersists (Promise_all ps).
Proof.
  induction 1 as [|p ps Hp _ IH]; cbn [Promise_all]; [constructor|].
  apply NeverPersists_bind; [exact Hp|]. intros y.
  apply NeverPersists_bind; [exact IH|]. intros ys. constructor.
Qed.

Lemma OnlyNotifies_call_bind {A : Type} (m : string) (q : Prog A) :
  OnlyNotifies q -> OnlyNotifies (bind (call (SetMessage m)) (fun _ => q)).
Proof.
  intros Hq. cbn [call bind]. constructor; [reflexivity|].
  intros [r|e]; cbn [bind]; [exact Hq|constructor].
Qed.

Lemma PersistsLast_bind {A B : Type} (p : Prog A) (f : A -> Prog B) :
  NeverPersists p -> (forall a, PersistsLast (f a)) ->
  PersistsLast (bind p f).
Proof.
  intros Hp Hf. induction Hp as [a|e|R c k Hc Hk IH]; cbn [bind].
  - apply Hf.
  - constructor.
  - apply PersistsLast_Call; assumption.
Qed.

Lemma PersistsLast_persist_bind {A R : Type} (c : Cmd R) (q : R -> Prog A) :
  persists c = true -> (forall r, OnlyNotifies (q r)) ->
  PersistsLast (bind (call c) q).
Proof.
  intros Hc Hq. cbn [call bind]. apply PersistsLast_Persist; [exact Hc|].
  intros [r|e]; cbn [bind]; [apply Hq|constructor].
Qed.

Lemma NeverPersists_PersistsLast {A : Type} (p : Prog A) :
  NeverPersists p -> PersistsLast p.
Proof.
  induction 1 as [a|e|R c k Hc Hk IH]; [constructor|constructor|].
  apply PersistsLast_Call; assumption.
Qed.

(** What the shapes say of the traces. *)
Lemma OnlyNotifies_trace {St A : Type} (h : Handler St) (p : Prog A) (s : St) :
  OnlyNotifies p -> forallb isNotice (run h p s).2 = true.
Proof.
  intros Hp. revert s. induction Hp as [a|e|R c k Hc Hk IH]; intros s;
    cbn [run]; [reflexivity|reflexivity|].
  destruct (h R c s) as [o s1]. specialize (IH o s1).
  destruct (run h (k o) s1) as [[r s2] tr]. cbn [snd forallb] in *.
  rewrite IH. cbn [isNotice]. rewrite Hc. reflexivity.
Qed.

Lemma PersistsLast_trace {St A : Type} (h : Handler St) (p : Prog A) (s : St) :
  PersistsLast p ->
  let tr := (run h p s).2 in
  length (filter (fun e => reachesCallback e = true) tr) <= 1
  /\ forall pre e post,
       tr = (pre ++ e :: post)%list -> reachesCallback e = true ->
       forallb isNotice post = true.
Proof.
  intros Hp. revert s.
  induction Hp as [a|err|R c k Hc Hk IH|R c k Hc Hk]; intros s; cbn [run].
  - cbn. split; [lia|]. intros [|e0 pre] e post H; discriminate.
  - cbn. split; [lia|]. intros [|e0 pre] e post H; discriminate.
  - destruct (h R c s) as [o s1]. specialize (IH o s1).
    destruct (run h (k o) s1) as [[r s2] tr]. cbn [snd] in *.
    destruct IH as [Hlen Hpost]. split.
    + rewrite filter_cons_False; [exact Hlen|].
      cbn. rewrite Hc. discriminate.
    + intros [|e0 pre] e post Heq He.
      * cbn in Heq. injection Heq as <- <-. cbn in He. congruence.
      * cbn in Heq. injection Heq as <- ->. eapply Hpost; eauto.
  - destruct (h R c s) as [o s1].
    pose proof (OnlyNotifies_trace h (k o) s1 (Hk o)) as Hn.
    destruct (run h (k o) s1) as [[r s2] tr]. cbn [snd] in *.
    assert (Hnone : filter (fun e => reachesCallback e = true) tr = []).
    { clear -Hn. induction tr as [|e tr IH]; [reflexivity|].
      cbn [forallb] in Hn. apply andb_prop in Hn as [He Ht].
      rewrite filter_cons_False; [auto|].
      destruct e as [R0 c0]. destruct c0; cbn in *; congruence. }
    split.
    + rewrite filter_cons_True by (cbn; exact Hc). cbn [length].
      rewrite Hnone. cbn. lia.
    + intros [|e0 pre] e post Heq He.
      * cbn in Heq. injection Heq as _ <-. exact Hn.
      * cbn in Heq. injection Heq as _ ->.
        rewrite forallb_app in Hn. apply andb_prop in Hn as [_ Hn].
        cbn [forallb] in Hn. apply andb_prop in Hn as [_ Hn]. exact Hn.
Qed.

Lemma notifies_not_persists {R : Type} (c : Cmd R) :
  notifies c = true -> persists c = false.
Proof. destruct c; cbn; congruence. Qed.

Lemma OnlyNotifies_bind {A B : Type} (p : Prog A) (f : A -> Prog B) :
  OnlyNotifies p -> (forall a, OnlyNotifies (f a)) -> OnlyNotifies (bind p f).
Proof.
  intros Hp Hf. induction Hp as [a|e|R c k Hc Hk IH]; cbn [bind].
  - apply Hf.
  - constructor.
  - constructor; assumption.
Qed.

Lemma OnlyNotifies_PersistsLast {A : Type} (p : Prog A) :
  OnlyNotifies p -> PersistsLast p.
Proof.
  induction 1 as [a|e|R c k Hc Hk IH]; [constructor|constructor|].
  apply PersistsLast_Call; [apply notifies_not_persists|]; assumption.
Qed.

Lemma PersistsLast_then_notifies {A B : Type} (p : Prog A) (f : A -> Prog B) :
  PersistsLast p -> (forall a, OnlyNotifies (f a)) -> PersistsLast (bind p f).
Proof.
  intros Hp Hf. induction Hp as [a|e|R c k Hc Hk IH|R c k Hc Hk]; cbn [bind].
  - apply OnlyNotifies_PersistsLast, Hf.
  - constructor.
  - apply PersistsLast_Call; assumption.
  - apply PersistsLast_Persist; [exact Hc|].
    intros o. apply OnlyNotifies_bind; auto.
Qed.

Create HintDb quiet.

Ltac quiet :=
  repeat first
    [ solve [auto 1 with quiet nocore]
    | apply NeverPersists_Ret
    | apply NeverPersists_Throw
    | apply NeverPersists_call; reflexivity
    | apply NeverPersists_call_detached; reflexivity
    | apply NeverPersists_bind; [|intros ?]
    | apply NeverPersists_try_catch; [|intros ?]
    | apply NeverPersists_Call; [reflexivity|intros ?]
    | match goal with
      | |- NeverPersists (if ?b then _ else _) => destruct b
      | |- NeverPersists (match ?x with _ => _ end) => destruct x
      end ].

Context (P : Platform) (removeLineEndings : string -> string) (fit : Fit.t).

Lemma computeLocalSha_quiet : NeverPersists (Fit.computeLocalSha P).
Proof.
  unfold Fit.computeLocalSha. quiet.
  apply NeverPersists_Promise_all, Forall_fmap, Forall_forall.
  intros p _. unfold compose. cbn beta.
  unfold Fit.computeFileLocalSha. quiet.
Qed.
#[local] Hint Resolve computeLocalSha_quiet : quiet.

Lemma getTree_quiet (tree_sha : string) :
  NeverPersists (Fit.getTree P fit tree_sha).
Proof. unfold Fit.getTree. quiet. Qed.
#[local] Hint Resolve getTree_quiet : quiet.

Lemma getRemoteTreeSha_quiet (tree_sha : string) :
  NeverPersists (Fit.getRemoteTreeSha P fit tree_sha).
Proof.
  unfold Fit.getRemoteTreeSha. quiet.
Qed.
#[local] Hint Resolve getRemoteTreeSha_quiet : quiet.

Lemma getBlob_quiet (file_sha : string) :
  NeverPersists (Fit.getBlob P fit file_sha).
Proof. unfold Fit.getBlob. quiet. Qed.
#[local] Hint Resolve getBlob_quiet : quiet.

Lemma performPreSyncChecks_quiet :
  NeverPersists (FitSync.performPreSyncChecks P fit).
Proof.
  unfold FitSync.performPreSyncChecks, Fit.getLocalChanges,
    Fit.remoteUpdated, Fit.getLatestRemoteCommitSha, Fit.getRef,
    Fit.getRemoteChanges.
  quiet.
Qed.
#[local] Hint Resolve performPreSyncChecks_quiet : quiet.

Lemma resolveFileConflict_quiet (clash : ClashStatus.t)
    (latestRemoteFileSha : option string) :
  NeverPersists (FitSync.resolveFileConflict P removeLineEndings fit clash
                   latestRemoteFileSha).
Proof.
  unfold FitSync.resolveFileConflict, FitSync.handleLocalDeletionConflict.
  quiet.
Qed.
#[local] Hint Resolve resolveFileConflict_quiet : quiet.

Lemma resolveConflicts_quiet (clashedFiles : list ClashStatus.t)
    (latestRemoteTreeSha : gmap string string) :
  NeverPersists (FitSync.resolveConflicts P removeLineEndings fit clashedFiles
                   latestRemoteTreeSha).
Proof.
  unfold FitSync.resolveConflicts. quiet.
  apply NeverPersists_Promise_all, Forall_fmap, Forall_forall.
  intros clash _. apply resolveFileConflict_quiet.
Qed.
#[local] Hint Resolve resolveConflicts_quiet : quiet.

Lemma syncCompatibleChanges_persists_last (localUpdate : LocalUpdate.t)
    (remoteUpdate : RemoteUpdate.t) :
  PersistsLast (FitSync.syncCompatibleChanges P fit localUpdate remoteUpdate).
Proof.
  unfold FitSync.syncCompatibleChanges, Fit.updateRef.
  apply PersistsLast_bind; [quiet|]. intros [addToLocal deleteFromLocal].
  apply PersistsLast_bind; [quiet|]. intros _.
  apply PersistsLast_bind; [quiet|]. intros remoteTree.
  apply PersistsLast_bind; [quiet|]. intros createCommitResult.
  apply PersistsLast_bind; [quiet|].
  intros [[latestRemoteTreeSha latestCommitSha] pushedChanges].
  apply PersistsLast_bind; [quiet|]. intros _.
  apply PersistsLast_bind; [quiet|]. intros localFileOpsRecord.
  apply PersistsLast_bind; [quiet|]. intros sha.
  apply PersistsLast_persist_bind; [reflexivity|]. intros _.
  apply OnlyNotifies_call_bind. constructor.
Qed.

Lemma syncWithConflicts_persists_last (localChanges : list LocalChange.t)
    (remoteUpdate : RemoteUpdate.t) :
  PersistsLast (FitSync.syncWithConflicts P removeLineEndings fit localChanges
                  remoteUpdate).
Proof.
  unfold FitSync.syncWithConflicts.
  apply PersistsLast_bind; [quiet|]. intros resolution.
  apply PersistsLast_bind; [quiet|].
  intros [localChangesToPush remoteChangesToWrite].
  apply PersistsLast_bind; [quiet|]. intros [addToLocal deleteFromLocal].
  apply PersistsLast_bind; [quiet|]. intros pushResult.
  destruct (match pushResult with Some _ => _ | None => _ end)
    as [[pushedChanges lastFetchedCommitSha] lastFetchedRemoteSha].
  apply PersistsLast_bind; [quiet|]. intros localFileOpsRecord.
  apply PersistsLast_bind; [quiet|]. intros sha.
  apply PersistsLast_persist_bind; [reflexivity|]. intros _.
  apply OnlyNotifies_bind; [|intros _; constructor].
  destruct (_ =? 0)%nat; [|destruct (existsb _ _)];
    (constructor; [reflexivity|intros [r|e]; constructor]).
Qed.

(** In every environment a run of [sync] reaches the persistence callback
    at most once, and after it only sets notices. *)
Lemma sync_persists_last :
  PersistsLast (FitSync.sync P removeLineEndings fit).
Proof.
  unfold FitSync.sync.
  apply PersistsLast_bind; [quiet|]. intros _.
  apply PersistsLast_bind; [quiet|].
  intros [|status remoteUpdate localChanges localTreeSha].
  { apply NeverPersists_PersistsLast. quiet. }
  destruct (decide (status = _)).
  { apply PersistsLast_persist_bind; [reflexivity|]. intros _.
    apply OnlyNotifies_call_bind. constructor. }
  destruct (decide (status = _)).
  { apply PersistsLast_persist_bind; [reflexivity|]. intros fileOpsRecord.
    apply OnlyNotifies_call_bind. constructor. }
  destruct (decide (status = _)).
  { apply PersistsLast_bind; [quiet|]. intros _.
    apply PersistsLast_bind; [quiet|]. intros pushResult.
    apply PersistsLast_bind; [quiet|]. intros _.
    destruct pushResult as [result|]; [|constructor].
    apply PersistsLast_persist_bind; [reflexivity|]. intros _. constructor. }
  destruct (decide (status = _)).
  { apply PersistsLast_then_notifies;
      [apply syncCompatibleChanges_persists_last|].
    intros [localOps remoteOps]. constructor. }
  destruct (decide (status = _)); [|constructor].
  apply PersistsLast_then_notifies; [apply syncWithConflicts_persists_last|].
  intros [[[unresolvedFiles localOps] remoteOps]|]; constructor.
Qed.

Lemma sync_reaches_callback_at_most_once {St : Type} (h : Handler St) (s : St) :
  let tr := (run h (FitSync.sync P removeLineEndings fit) s).2 in
  length (filter (fun e => reachesCallback e = true) tr) <= 1
  /\ forall pre e post,
       tr = (pre ++ e :: post)%list -> reachesCallback e = true ->
       forallb isNotice post = true.
Proof. apply PersistsLast_trace, sync_persists_last. Qed.

End Persistence.

(** C3 fails in the branch [onlyLocalChanged]. In the world
    [worldAfterLocalDeletion] the only local change is the deletion of
    [old.md]; the remote head is the last-fetched commit, so the pre-sync
    checks answer [onlyLocalChanged]; [createTreeNodeFromFile] makes no
    node of the deletion, since the remote tree does not list the path, so
    that nothing is pushed and the push helper resolves to [null].  [sync]
    then sets the notice "Sync successful" and returns without a call of
    the persistence callback: the snapshot is written zero times, the world
    is as before, and the next sync finds the same change again. *)
Theorem sync_onlyLocalChanged_nothing_pushed_never_saves :
  let fit := Scenario.fit Scenario.storeWithOldFile in
  let w := Scenario.worldAfterLocalDeletion in
  let pushed :=
    {| LocalUpdate.localChanges := [Scenario.deletionOfOldFile];
       LocalUpdate.parentCommitSha := "c1" |} in
  let trace :=
    [Ev (SetMessage "Performing pre sync checks.");
     Ev VaultGetFiles; Ev (GetTFile "notes/a.md");
     Ev (ReadBinary {| TFile.path := "notes/a.md" |});
     Ev (GET_ref "heads/main"); Ev (GET_trees "c1");
     Ev (SetMessage "Uploading local changes");
     Ev (PushChangedFilesToRemote pushed);
     Ev (SetMessage "Sync successful")] in
  (exists remoteUpdate localTreeSha,
     fst (fst (run Scenario.handler
                 (FitSync.performPreSyncChecks Sample.platform fit) w))
     = Ok (FitSync.Changes FitSync.onlyLocalChanged remoteUpdate
             [Scenario.deletionOfOldFile] localTreeSha))
  /\ (exists remoteTree,
        fst (fst (run Scenario.handler (Fit.getTree Sample.platform fit "c1") w))
        = Ok remoteTree
        /\ fst (fst (run Scenario.handler
                       (Fit.createTreeNodeFromFile Sample.platform fit
                          Scenario.deletionOfOldFile remoteTree) w))
           = Ok None)
  /\ run Scenario.handler
       (FitSync.sync Sample.platform Scenario.removeLineEndings fit) w
     = (Ok None, w, trace)
  /\ filter isSave trace = [].
Proof.
  cbv zeta. split; [|split; [|split]].
  - eexists _, _. vm_compute. reflexivity.
  - eexists. split; vm_compute; reflexivity.
  - vm_compute. reflexivity.
  - reflexivity.
Qed.

(* ===================================================================== *)
(** * Part III: further properties of the code                           *)
(* ===================================================================== *)

(** ** Tokens *)
Section Tokens.
Import Base64 JS.

Lemma to_url_enc6_token (x : sextet) : isTokenChar (to_url (enc6 x)) = true.
Proof. destruct x as [[[[[[] []] []] []] []] []]; reflexivity. Qed.

Lemma url_token_chars (s : string) (c : ascii) :
  In c (list_ascii_of_string (url_token s)) -> isTokenChar c = true.
Proof.
  unfold url_token. revert c.
  induction s as [|a|a b|a b d r IH] using string_ind3; intros c.
  - intros [].
  - destruct a as [a0 a1 a2 a3 a4 a5 a6 a7].
    cbn [btoa]. rewrite !to_url_cons.
    rewrite !strip_trailing_cons by apply to_url_enc6_not_pad.
    change (strip_trailing "=" _) with EmptyString.
    cbn [list_ascii_of_string In].
    intros [<-|[<-|[]]]; apply to_url_enc6_token.
  - destruct a as [a0 a1 a2 a3 a4 a5 a6 a7].
    destruct b as [b0 b1 b2 b3 b4 b5 b6 b7].
    cbn [btoa]. rewrite !to_url_cons.
    rewrite !strip_trailing_cons by apply to_url_enc6_not_pad.
    change (strip_trailing "=" _) with EmptyString.
    cbn [list_ascii_of_string In].
    intros [<-|[<-|[<-|[]]]]; apply to_url_enc6_token.
  - destruct a as [a0 a1 a2 a3 a4 a5 a6 a7].
    destruct b as [b0 b1 b2 b3 b4 b5 b6 b7].
    destruct d as [d0 d1 d2 d3 d4 d5 d6 d7].
    cbn [btoa]. rewrite !to_url_cons.
    rewrite !strip_trailing_cons by apply to_url_enc6_not_pad.
    cbn [list_ascii_of_string In].
    intros [<-|[<-|[<-|[<-|Hin]]]]; try apply to_url_enc6_token.
    apply IH. exact Hin.
Qed.

Lemma string_ind4 (Q : string -> Prop) :
  Q EmptyString ->
  (forall a, Q (String a EmptyString)) ->
  (forall a b, Q (String a (String b EmptyString))) ->
  (forall a b c, Q (String a (String b (String c EmptyString)))) ->
  (forall a b c d r, Q r -> Q (String a (String b (String c (String d r))))) ->
  forall s, Q s.
Proof.
  intros H0 H1 H2 H3 H4.
  assert (Hall : forall s,
            Q s /\ (forall a, Q (String a s))
            /\ (forall a b, Q (String a (String b s)))
            /\ (forall a b c, Q (String a (String b (String c s))))).
  { induction s as [|x r [I0 [I1 [I2 I3]]]]; repeat split; auto. }
  intros s. apply Hall.
Qed.

Lemma decode_groups_rejects (s : string) (c : ascii) :
  In c (list_ascii_of_string s) -> dec6 c = None -> decode_groups s = None.
Proof.
  induction s as [|x|x y|x y z|x y z w r IH] using string_ind4;
    cbn [list_ascii_of_string In decode_groups].
  - intros [].
  - reflexivity.
  - intros [<-|[<-|[]]] Hc.
    + rewrite Hc. reflexivity.
    + destruct (dec6 x) as [[[[[[? ?] ?] ?] ?] ?]|]; [|reflexivity].
      cbn [mbind option_bind]. rewrite Hc. reflexivity.
  - intros [<-|[<-|[<-|[]]]] Hc.
    + rewrite Hc. reflexivity.
    + destruct (dec6 x) as [[[[[[? ?] ?] ?] ?] ?]|]; [|reflexivity].
      cbn [mbind option_bind]. rewrite Hc. reflexivity.
    + destruct (dec6 x) as [[[[[[? ?] ?] ?] ?] ?]|]; [|reflexivity].
      cbn [mbind option_bind]. destruct (dec6 y) as [[[[[[? ?] ?] ?] ?] ?]|]; [|reflexivity].
      cbn [mbind option_bind]. rewrite Hc. reflexivity.
  - intros [<-|[<-|[<-|[<-|Hin]]]] Hc.
    + rewrite Hc. reflexivity.
    + destruct (dec6 x) as [[[[[[? ?] ?] ?] ?] ?]|]; [|reflexivity].
      cbn [mbind option_bind]. rewrite Hc. reflexivity.
    + destruct (dec6 x) as [[[[[[? ?] ?] ?] ?] ?]|]; [|reflexivity].
      cbn [mbind option_bind]. destruct (dec6 y) as [[[[[[? ?] ?] ?] ?] ?]|]; [|reflexivity].
      cbn [mbind option_bind]. rewrite Hc. reflexivity.
    + destruct (dec6 x) as [[[[[[? ?] ?] ?] ?] ?]|]; [|reflexivity].
      cbn [mbind option_bind]. destruct (dec6 y) as [[[[[[? ?] ?] ?] ?] ?]|]; [|reflexivity].
      cbn [mbind option_bind]. destruct (dec6 z) as [[[[[[? ?] ?] ?] ?] ?]|]; [|reflexivity].
      cbn [mbind option_bind]. rewrite Hc. reflexivity.
    + destruct (dec6 x) as [[[[[[? ?] ?] ?] ?] ?]|]; [|reflexivity].
      cbn [mbind option_bind]. destruct (dec6 y) as [[[[[[? ?] ?] ?] ?] ?]|]; [|reflexivity].
      cbn [mbind option_bind]. destruct (dec6 z) as [[[[[[? ?] ?] ?] ?] ?]|]; [|reflexivity].
      cbn [mbind option_bind]. destruct (dec6 w) as [[[[[[? ?] ?] ?] ?] ?]|]; [|reflexivity].
      cbn [mbind option_bind]. rewrite (IH Hin Hc). reflexivity.
Qed.

Lemma drop_last_pad_keeps (s : string) (c : ascii) :
  In c (list_ascii_of_string s) -> Ascii.eqb c pad = false ->
  In c (list_ascii_of_string (drop_last_pad s)).
Proof.
  induction s as [|x r IH]; [intros []|].
  intros Hin Hc. cbn [drop_last_pad]. destruct r as [|y r'].
  - cbn in Hin. destruct Hin as [<-|[]]. rewrite Hc. left. reflexivity.
  - cbn [list_ascii_of_string In] in Hin |- *.
    destruct Hin as [<-|Hin]; [left; reflexivity|right].
    apply IH; assumption.
Qed.

Lemma strip_padding_keeps (s : string) (c : ascii) :
  In c (list_ascii_of_string s) -> Ascii.eqb c pad = false ->
  In c (list_ascii_of_string (strip_padding s)).
Proof.
  intros Hin Hc. unfold strip_padding.
  destruct (Nat.eqb _ 0); [|exact Hin].
  apply drop_last_pad_keeps; [apply drop_last_pad_keeps|]; assumption.
Qed.

Lemma remove_whitespace_keeps (s : string) (c : ascii) :
  In c (list_ascii_of_string s) -> is_whitespace c = false ->
  In c (list_ascii_of_string (remove_whitespace s)).
Proof.
  induction s as [|x r IH]; [intros []|].
  cbn [list_ascii_of_string In remove_whitespace].
  intros [<-|Hin] Hc.
  - rewrite Hc. left. reflexivity.
  - destruct (is_whitespace x); [|right]; apply IH; assumption.
Qed.

Lemma of_url_in (s : string) (c : ascii) :
  In c (list_ascii_of_string s) ->
  In (of_url c)
     (list_ascii_of_string (replace_all "_" "/" (replace_all "-" "+" s))).
Proof.
  induction s as [|x r IH]; [intros []|].
  rewrite of_url_cons. cbn [list_ascii_of_string In].
  intros [<-|Hin]; [left; reflexivity|right; apply IH; exact Hin].
Qed.

Lemma unreadable_char (c : ascii) :
  isReadable c = false ->
  dec6 (of_url c) = None /\ is_whitespace (of_url c) = false
  /\ Ascii.eqb (of_url c) pad = false.
Proof.
  destruct c as [[] [] [] [] [] [] [] []]; vm_compute;
    intros H; try discriminate H; repeat split.
Qed.

Lemma atob_rejects (s : string) (c : ascii) :
  In c (list_ascii_of_string s) -> isReadable c = false ->
  atob (replace_all "_" "/" (replace_all "-" "+" s)) = None.
Proof.
  intros Hin Hc. destruct (unreadable_char c Hc) as [Hd [Hw Hp]].
  unfold atob. apply (decode_groups_rejects _ (of_url c)); [|exact Hd].
  apply strip_padding_keeps; [|exact Hp].
  apply remove_whitespace_keeps; [|exact Hw].
  apply of_url_in. exact Hin.
Qed.

End Tokens.

(** X1. [base64UrlToArrayBuffer] reads back every buffer that
    [arrayBufferToBase64Url] has written, although the padding was
    stripped. *)
Theorem base64Url_reads_back_what_it_wrote (buffer : list byte) :
  Encryption.base64UrlToArrayBuffer (Encryption.arrayBufferToBase64Url buffer)
  = Some buffer.
Proof. apply base64Url_roundtrip. Qed.

(** X2. A token of [arrayBufferToBase64Url], and so an encrypted path, is
    made of letters, digits, [-] and [_] only: it holds no [/], [+], [=]
    or dot. *)
Theorem path_token_characters (P : Platform) (this : Encryption.t)
    (buffer : list byte) (path : string) (c : ascii) :
  (In c (list_ascii_of_string (Encryption.arrayBufferToBase64Url buffer)) ->
   isTokenChar c = true)
  /\ (In c (list_ascii_of_string (Encryption.encryptPath P this path)) ->
      isTokenChar c = true /\ c <> "/"%char /\ c <> "+"%char
      /\ c <> "="%char /\ c <> "."%char).
Proof.
  split.
  - apply url_token_chars.
  - intros Hin. apply url_token_chars in Hin.
    repeat split; try exact Hin; intros ->; discriminate Hin.
Qed.

Lemma path_token_characters_witness :
  isTokenChar "Q" = true.
Proof.
  apply (proj1 (path_token_characters Sample.platform Sample.encryption
                  [x41] "notes/a.md" "Q"%char)).
  left. reflexivity.
Defined.

(** X3. A string that holds a character which is neither of a token, nor
    [+], [/], [=] or white space, is not a path that decrypts:
    [base64UrlToArrayBuffer] and [decryptPath] throw on it whatever the
    key, and [getTree] leaves a node with such a path as it is. *)
Theorem decryptPath_rejects_foreign_character (P : Platform) (fit : Fit.t)
    (data : string) (c : ascii) :
  In c (list_ascii_of_string data) -> isReadable c = false ->
  Encryption.base64UrlToArrayBuffer data = None
  /\ Encryption.decryptPath P (Fit.encryption fit) data = None
  /\ forall node, TreeNode.path node = data ->
                  Fit.decryptNodePath P fit node = node.
Proof.
  intros Hin Hc.
  assert (Hb : Encryption.base64UrlToArrayBuffer data = None).
  { unfold Encryption.base64UrlToArrayBuffer.
    rewrite (atob_rejects data c Hin Hc). reflexivity. }
  assert (Hd : Encryption.decryptPath P (Fit.encryption fit) data = None).
  { unfold Encryption.decryptPath. rewrite Hb. reflexivity. }
  repeat split; [exact Hb|exact Hd|].
  intros node Hn. unfold Fit.decryptNodePath. rewrite Hn, Hd. reflexivity.
Qed.

Lemma decryptPath_rejects_foreign_character_witness :
  Encryption.decryptPath Sample.platform Sample.encryption "notes/a.md" = None.
Proof.
  destruct (decryptPath_rejects_foreign_character Sample.platform
              (Scenario.fit Scenario.emptyStore) "notes/a.md" "."%char)
    as [_ [Hd _]].
  - cbn. tauto.
  - reflexivity.
  - exact Hd.
Defined.

(** ** Content encryption *)

Lemma Plain_gcm : gcm_decrypts_what_it_encrypted Plain.platform.
Proof.
  intros key iv data.
  change (match rev (data ++ [x47]) with
          | x47 :: r => Some (rev r)
          | _ => None
          end = Some data).
  rewrite rev_app_distr. cbn [rev app]. rewrite rev_involutive. reflexivity.
Qed.

Lemma Plain_base64js : base64js_reads_back Plain.platform.
Proof.
  intros b.
  change (Some (list_byte_of_string (string_of_list_byte b)) = Some b).
  rewrite list_byte_of_string_of_list_byte. reflexivity.
Qed.

Lemma decrypt_sealed (P : Platform) (this : Encryption.t)
    (plainText : string) (iv : list byte) :
  gcm_decrypts_what_it_encrypted P ->
  base64js_reads_back P ->
  Encryption.valid_path P plainText ->
  length iv = 12 ->
  Encryption.decrypt P this
    (fromByteArray P
       (iv ++ aes_gcm_encrypt P
                (Encryption.raw (Encryption.importKey P this "AES-GCM")) iv
                (utf8_encode P plainText))%list)
  = Some plainText.
Proof.
  intros Hgcm Hb64 Htext Hlen.
  unfold Encryption.decrypt. rewrite Hb64. cbn [mbind option_bind].
  rewrite <- Hlen at 1. rewrite take_app_length.
  rewrite <- Hlen at 1. rewrite drop_app_length.
  rewrite Hgcm. cbn [mbind option_bind]. rewrite Htext. reflexivity.
Qed.

(** X4. Under the contracts of AES-GCM and of base64-js, and for a text
    that survives text encoding, [decrypt] gives back the text from what
    [encrypt] returned, provided the random source delivered the 12 bytes
    it was asked for: the nonce is found again as the first 12 bytes. *)
Theorem decrypt_reads_what_encrypt_wrote (P : Platform) (this : Encryption.t)
    (plainText : string) (St : Type) (h : Handler St) (s s1 : St)
    (iv : list byte) :
  gcm_decrypts_what_it_encrypted P ->
  base64js_reads_back P ->
  Encryption.valid_path P plainText ->
  h _ (GetRandomValues 12) s = (Ok iv, s1) ->
  length iv = 12 ->
  exists encrypted,
    run h (Encryption.encrypt P this plainText) s
    = (Ok encrypted, s1, [Ev (GetRandomValues 12)])
    /\ Encryption.decrypt P this encrypted = Some plainText.
Proof.
  intros Hgcm Hb64 Htext Hiv Hlen. eexists. split.
  - unfold Encryption.encrypt, Encryption.generateIV.
    cbn [bind call run]. rewrite Hiv. reflexivity.
  - apply decrypt_sealed; assumption.
Qed.

Lemma decrypt_reads_what_encrypt_wrote_witness :
  exists encrypted,
    run Scenario.handler
      (Encryption.encrypt Plain.platform Sample.encryption "hello")
      Scenario.worldWithReadme
    = (Ok encrypted, Scenario.worldWithReadme, [Ev (GetRandomValues 12)])
    /\ Encryption.decrypt Plain.platform Sample.encryption encrypted
       = Some "hello".
Proof.
  apply (decrypt_reads_what_encrypt_wrote Plain.platform Sample.encryption
           "hello" _ Scenario.handler Scenario.worldWithReadme
           Scenario.worldWithReadme (repeat x00 12)
           Plain_gcm Plain_base64js eq_refl eq_refl eq_refl).
Defined.

(** X5. What [createBlob] uploads, [getBlob] reads back: when the remote
    answers a blob request with the uploaded string, with or without the
    line breaks it may have put in, [getBlob] returns the content that was
    given to [createBlob]. *)
Theorem getBlob_reads_what_createBlob_uploaded (P : Platform) (fit : Fit.t)
    (content encoding : string) (St : Type) (h : Handler St)
    (s s1 s2 : St) (iv : list byte) (blobSha : string) :
  gcm_decrypts_what_it_encrypted P ->
  base64js_reads_back P ->
  Encryption.valid_path P content ->
  h _ (GetRandomValues 12) s = (Ok iv, s1) ->
  length iv = 12 ->
  exists uploaded,
    (h _ (POST_blobs uploaded encoding) s1 = (Ok blobSha, s2) ->
     run h (Fit.createBlob P fit content encoding) s
     = (Ok blobSha, s2,
        [Ev (GetRandomValues 12); Ev (POST_blobs uploaded encoding)]))
    /\ forall (St' : Type) (h' : Handler St') (t t1 : St')
              (file_sha fetched : string),
         h' _ (GET_blobs file_sha) t = (Ok fetched, t1) ->
         JS.remove_all "010" fetched = uploaded ->
         run h' (Fit.getBlob P fit file_sha) t
         = (Ok content, t1, [Ev (GET_blobs file_sha)]).
Proof.
  intros Hgcm Hb64 Htext Hiv Hlen.
  pose proof (decrypt_sealed P (Fit.encryption fit) content iv
                Hgcm Hb64 Htext Hlen) as Hdec.
  eexists. split.
  - intros Hpost. unfold Fit.createBlob, Encryption.encrypt,
      Encryption.generateIV.
    cbn [bind call run]. rewrite Hiv. cbn [bind call run].
    rewrite Hpost. reflexivity.
  - intros St' h' t t1 file_sha fetched Hget Hrm. unfold Fit.getBlob.
    cbn [bind call run]. rewrite Hget. cbn [bind call run].
    rewrite Hrm, Hdec. reflexivity.
Qed.

Lemma getBlob_reads_what_createBlob_uploaded_witness :
  exists uploaded,
    run Scenario.handler
      (Fit.createBlob Plain.platform (Scenario.fit Scenario.emptyStore)
         "aGVsbG8=" "base64")
      Scenario.worldWithReadme
    = (Ok "b2", Scenario.worldWithReadme,
       [Ev (GetRandomValues 12); Ev (POST_blobs uploaded "base64")]).
Proof.
  destruct (getBlob_reads_what_createBlob_uploaded Plain.platform
              (Scenario.fit Scenario.emptyStore) "aGVsbG8=" "base64"
              _ Scenario.handler Scenario.worldWithReadme
              Scenario.worldWithReadme Scenario.worldWithReadme
              (repeat x00 12) "b2"
              Plain_gcm Plain_base64js eq_refl eq_refl eq_refl)
    as [uploaded [Hup _]].
  exists uploaded. apply Hup. reflexivity.
Defined.

(** ** The fingerprints of the remote tree *)
Section RemoteTreeSha.






Lemma remoteShaEntry_Thrown (node : TreeNode.t) (e : Error.t) :
  Fit.remoteShaEntry node = Thrown e <->
  e = notFound /\ TreeNode.type node = Some blob
  /\ (TreeNode.path node = "" \/ TreeNode.sha node = None
      \/ TreeNode.sha node = Some "").
Proof.
  unfold Fit.remoteShaEntry, notFound.
  destruct (decide (TreeNode.type node = Some blob)) as [Ht|Ht].
  - destruct (TreeNode.sha node) as [sha|].
    + destruct (decide _) as [Hor|Hor].
      * split; [intros [= <-]|reflexivity || (intros [-> _]; reflexivity)].
        split; [reflexivity|]. split; [exact Ht|].
        destruct Hor as [Hp| ->]; auto.
      * destruct (JS.startsWith _ _); split; try discriminate;
          intros [_ [_ [Hp|[Hn|[= ->]]]]]; try discriminate;
          exfalso; apply Hor; auto.
    + split; [intros [= <-]; auto|intros [-> _]; reflexivity].
  - split; [discriminate|]. intros [_ [H _]]. contradiction.
Qed.


Lemma remoteShaEntries_Thrown (nodes : list TreeNode.t) :
  (exists node, node ∈ nodes /\ Fit.remoteShaEntry node = Thrown notFound)
  <-> Fit.remoteShaEntries nodes = Thrown notFound.
Proof.
  induction nodes as [|n nodes IH]; cbn [Fit.remoteShaEntries].
  - split; [intros [node [Hin _]]; inversion Hin|discriminate].
  - destruct (Fit.remoteShaEntry n) as [x|e] eqn:Hn.
    + destruct (Fit.remoteShaEntries nodes) as [xs|e] eqn:Hr.
      * split; [|discriminate]. intros [node [Hin Hnode]].
        apply elem_of_cons in Hin as [->|Hin]; [congruence|].
        assert (Hex : exists node, node ∈ nodes
                       /\ Fit.remoteShaEntry node = Thrown notFound) by eauto.
        apply IH in Hex. discriminate.
      * split.
        -- intros [node [Hin Hnode]].
           apply elem_of_cons in Hin as [->|Hin]; [congruence|].
           f_equal. assert (Hex : exists node, node ∈ nodes
                       /\ Fit.remoteShaEntry node = Thrown notFound) by eauto.
           apply IH in Hex. congruence.
        -- intros [= ->]. destruct (proj2 IH eq_refl) as [node [Hin Hnode]].
           exists node. split; [right; exact Hin|exact Hnode].
    + apply remoteShaEntry_Thrown in Hn as [-> Hn'].
      split; [reflexivity|]. intros _. exists n. split; [left|].
      apply remoteShaEntry_Thrown. split; [reflexivity|exact Hn'].
Qed.

End RemoteTreeSha.



(** X7. Once the tree is fetched, [getRemoteTreeSha] throws "Path or sha
    not found for blob node in remote" exactly when some blob node of the
    tree has an empty path, no id or an empty id; a node under ["_fit/"]
    is not exempt, the test comes before the one that ignores it. *)
Theorem getRemoteTreeSha_throws_iff (P : Platform) (fit : Fit.t)
    (tree_sha : string) (arr : list TreeNode.t)
    (St : Type) (h : Handler St) (s s1 : St) :
  h _ (GET_trees tree_sha) s = (Ok arr, s1) ->
  (exists node, node ∈ Fit.decryptNodePath P fit <$> arr
     /\ TreeNode.type node = Some blob
     /\ (TreeNode.path node = "" \/ TreeNode.sha node = None
         \/ TreeNode.sha node = Some ""))
  <-> run h (Fit.getRemoteTreeSha P fit tree_sha) s
      = (Thrown notFound, s1, [Ev (GET_trees tree_sha)]).
Proof.
  intros Hh. rewrite run_getRemoteTreeSha, Hh. split.
  - intros [node [Hin Hbad]].
    assert (He : Fit.remoteShaEntries (Fit.decryptNodePath P fit <$> arr)
                 = Thrown notFound).
    { apply remoteShaEntries_Thrown. exists node. split; [exact Hin|].
      apply remoteShaEntry_Thrown. split; [reflexivity|exact Hbad]. }
    rewrite He. reflexivity.
  - destruct (Fit.remoteShaEntries _) as [entries|e] eqn:He; [discriminate|].
    intros [= ->]. apply remoteShaEntries_Thrown in He as [node [Hin Hn]].
    apply remoteShaEntry_Thrown in Hn as [_ Hbad]. eauto.
Qed.

Lemma getRemoteTreeSha_throws_iff_witness :
  run Scenario.handler
    (Fit.getRemoteTreeSha Sample.platform (Scenario.fit Scenario.emptyStore)
       "c9")
    {| World.vault := ∅; World.store := Scenario.emptyStore;
       World.remote :=
         {| Scenario.head := "c9";
            Scenario.listing :=
              [ {| TreeNode.path := "_fit/x.md"; TreeNode.mode := Some m100644;
                   TreeNode.type := Some blob; TreeNode.sha := None |} ];
            Scenario.blobs := ∅; Scenario.createdBlob := "";
            Scenario.pushAnswer := None |} |}
  = (Thrown notFound,
     {| World.vault := ∅; World.store := Scenario.emptyStore;
        World.remote :=
          {| Scenario.head := "c9";
             Scenario.listing :=
               [ {| TreeNode.path := "_fit/x.md"; TreeNode.mode := Some m100644;
                    TreeNode.type := Some blob; TreeNode.sha := None |} ];
             Scenario.blobs := ∅; Scenario.createdBlob := "";
             Scenario.pushAnswer := None |} |},
     [Ev (GET_trees "c9")]).
Proof.
  apply (getRemoteTreeSha_throws_iff Sample.platform
           (Scenario.fit Scenario.emptyStore) "c9"
           [ {| TreeNode.path := "_fit/x.md"; TreeNode.mode := Some m100644;
                TreeNode.type := Some blob; TreeNode.sha := None |} ]
           _ Scenario.handler).
  - reflexivity.
  - eexists. split; [left|]. split; [reflexivity|]. right. left. reflexivity.
Defined.

(** ** The local fingerprints *)

Section LocalSha.
Context {St : Type} (h : Handler St).

Lemma Promise_all_Ok {A : Type} (ps : list (Prog A)) (s s' : St)
    (xs : list A) (tr : list Event) :
  run h (Promise_all ps) s = (Ok xs, s', tr) ->
  Forall2 (fun p x => exists s0 s1 t, run h p s0 = (Ok x, s1, t)) ps xs.
Proof.
  revert s xs tr. induction ps as [|p ps IH]; intros s xs tr.
  - cbn. intros [= <- <- <-]. constructor.
  - cbn [Promise_all]. rewrite run_bind.
    destruct (run h p s) as [[[y|e] s1] t1] eqn:Hp; [|discriminate].
    rewrite run_bind.
    destruct (run h (Promise_all ps) s1) as [[[ys|e] s2] t2] eqn:Hr;
      [|discriminate].
    cbn. intros [= <- <- <-]. constructor; [eauto|eapply IH; eauto].
Qed.




End LocalSha.



(** ** The decision of the pre-sync checks *)

(** X9. The status that [performPreSyncChecks] returns with its changes
    is decided by three facts: whether there are local changes, whether
    the remote head differs from the last-fetched commit, and whether
    there are remote changes; the clash list is computed only when both
    sides moved.  In particular local changes with a moved head and no
    remote file change count as compatible, and clashed is returned
    exactly when the clash list is not empty. *)
Theorem performPreSyncChecks_decision (P : Platform) (fit : Fit.t)
    (St : Type) (h : Handler St) (s s' : St) (tr : list Event)
    (st : FitSync.PreSyncCheckResultType) (ru : RemoteUpdate.t)
    (lc : list LocalChange.t) (lts : gmap string string) :
  run h (FitSync.performPreSyncChecks P fit) s
  = (Ok (FitSync.Changes st ru lc lts), s', tr) ->
  let moved :=
    Some (RemoteUpdate.latestRemoteCommitSha ru) <> Fit.lastFetchedCommitSha fit in
  let rc := RemoteUpdate.remoteChanges ru in
  let clashes := RemoteUpdate.clashedFiles ru in
  (st = FitSync.onlyLocalChanged <-> lc <> [] /\ ~ moved)
  /\ (st = FitSync.onlyRemoteCommitShaChanged <-> lc = [] /\ rc = [])
  /\ (st = FitSync.onlyRemoteChanged <-> lc = [] /\ rc <> [])
  /\ (st = FitSync.localAndRemoteChangesCompatible
      <-> lc <> [] /\ moved /\ clashes = [])
  /\ (st = FitSync.localAndRemoteChangesClashed <-> clashes <> [])
  /\ (lc = [] -> moved)
  /\ (lc <> [] -> moved ->
      Fit.getClashedChanges lc rc = Some clashes).
Proof. apply performPreSyncChecks_table. Qed.

Lemma performPreSyncChecks_decision_witness :
  exists ru lc lts w tr,
    run Scenario.handler
      (FitSync.performPreSyncChecks Sample.platform
         (Scenario.fit Scenario.emptyStore)) Scenario.worldWithClash
    = (Ok (FitSync.Changes FitSync.localAndRemoteChangesClashed ru lc lts),
       w, tr)
    /\ RemoteUpdate.clashedFiles ru <> [].
Proof.
  destruct (run Scenario.handler
              (FitSync.performPreSyncChecks Sample.platform
                 (Scenario.fit Scenario.emptyStore)) Scenario.worldWithClash)
    as [[o w] tr] eqn:Hrun.
  pose proof Hrun as Hres. vm_compute in Hres.
  destruct o as [[|st ru lc lts]|e]; try discriminate Hres.
  assert (Hst : st = FitSync.localAndRemoteChangesClashed) by congruence.
  clear Hres. subst st.
  destruct (performPreSyncChecks_decision Sample.platform
              (Scenario.fit Scenario.emptyStore) _ Scenario.handler
              Scenario.worldWithClash w tr _ ru lc lts Hrun)
    as [_ [_ [_ [_ [Hclash _]]]]].
  exists ru, lc, lts, w, tr. split; [reflexivity|].
  apply Hclash. reflexivity.
Defined.

(** ** What a program may do *)

Section Shapes.
Context (ok : Event -> bool).

Lemma Within_bind {A B : Type} (p : Prog A) (f : A -> Prog B) :
  Within ok p -> (forall a, Within ok (f a)) -> Within ok (bind p f).
Proof.
  intros Hp Hf. induction Hp as [a|e|R c k Hc Hk IH]; cbn [bind].
  - apply Hf.
  - constructor.
  - constructor; assumption.
Qed.

Lemma Within_call {R : Type} (c : Cmd R) :
  ok (Ev c) = true -> Within ok (call c).
Proof. intros H. constructor; [exact H|]. intros [r|e]; constructor. Qed.

Lemma Within_call_detached {R : Type} (c : Cmd R) :
  ok (Ev c) = true -> Within ok (call_detached c).
Proof. intros H. constructor; [exact H|]. intros o. constructor. Qed.

Lemma Within_try_catch {A : Type} (p : Prog A) (f : Error.t -> Prog A) :
  Within ok p -> (forall e, Within ok (f e)) -> Within ok (try_catch p f).
Proof.
  intros Hp Hf. induction Hp as [a|e|R c k Hc Hk IH]; cbn [try_catch].
  - constructor.
  - apply Hf.
  - constructor; assumption.
Qed.

Lemma Within_Promise_all {A : Type} (ps : list (Prog A)) :
  Forall (Within ok) ps -> Within ok (Promise_all ps).
Proof.
  induction 1 as [|p ps Hp _ IH]; cbn [Promise_all].
  - constructor.
  - apply Within_bind; [exact Hp|]. intros y.
    apply Within_bind; [exact IH|]. intros ys. constructor.
Qed.

Lemma Within_run {St A : Type} (h : Handler St) (p : Prog A) (s : St) :
  Within ok p -> forallb ok (run h p s).2 = true.
Proof.
  intros Hp. revert s. induction Hp as [a|e|R c k Hc Hk IH]; intros s;
    cbn [run]; try reflexivity.
  destruct (h R c s) as [o s1]. specialize (IH o s1).
  destruct (run h (k o) s1) as [[r s2] tr]. cbn in *.
  rewrite Hc, IH. reflexivity.
Qed.

End Shapes.

Ltac within :=
  repeat first
    [ assumption
    | apply Within_Ret
    | apply Within_Throw
    | apply Within_call; reflexivity
    | apply Within_call_detached; reflexivity
    | apply Within_bind; [|intros ?]
    | apply Within_try_catch; [|intros ?]
    | match goal with
      | |- Within _ (if ?b then _ else _) => destruct b
      | |- Within _ (match ?x with _ => _ end) => destruct x
      end ].

Lemma computeLocalSha_reads (P : Platform) :
  Within isRead (Fit.computeLocalSha P).
Proof.
  unfold Fit.computeLocalSha. within.
  apply Within_Promise_all, Forall_fmap, Forall_forall.
  intros p _. unfold compose. cbn beta.
  unfold Fit.computeFileLocalSha. within.
Qed.

Lemma getRemoteTreeSha_reads (P : Platform) (fit : Fit.t) (tree_sha : string) :
  Within isRead (Fit.getRemoteTreeSha P fit tree_sha).
Proof. unfold Fit.getRemoteTreeSha, Fit.getTree. within. Qed.

(** X10. [performPreSyncChecks] only looks: whatever the environment
    answers and however it ends, the commands it issues are the listing
    and reading of vault files and the fetches of the ref and of the tree.
    It writes nothing, uploads nothing and saves nothing. *)
Theorem performPreSyncChecks_only_reads (P : Platform) (fit : Fit.t)
    (St : Type) (h : Handler St) (s : St) :
  forallb isRead (run h (FitSync.performPreSyncChecks P fit) s).2 = true.
Proof.
  apply Within_run. unfold FitSync.performPreSyncChecks.
  apply Within_bind; [apply computeLocalSha_reads|intros cur].
  unfold Fit.getLocalChanges, Fit.remoteUpdated, Fit.getLatestRemoteCommitSha,
    Fit.getRef, Fit.getRemoteChanges.
  apply Within_bind; [within|intros lc].
  apply Within_bind; [within|intros [c upd]].
  destruct (_ && _); [constructor|].
  apply Within_bind; [apply getRemoteTreeSha_reads|intros T].
  within.
Qed.

Lemma getBlob_quarantines (P : Platform) (fit : Fit.t) (file_sha : string) :
  Within isQuarantine (Fit.getBlob P fit file_sha).
Proof. unfold Fit.getBlob. within. Qed.

Lemma resolveFileConflict_quarantines (P : Platform)
    (removeLineEndings : string -> string) (fit : Fit.t)
    (clash : ClashStatus.t) (sha : option string) :
  Within isQuarantine
    (FitSync.resolveFileConflict P removeLineEndings fit clash sha).
Proof.
  unfold FitSync.resolveFileConflict, FitSync.handleLocalDeletionConflict.
  destruct (decide (_ /\ _)); [constructor|].
  destruct (decide _).
  - apply Within_bind; [apply getBlob_quarantines|intros content].
    apply Within_bind; [|intros op; constructor].
    apply Within_bind; [within|intros _].
    apply Within_bind; [|intros _; constructor].
    apply Within_call_detached. cbn.
    exact (quarantine_path_prefixed (ClashStatus.path clash)).
  - apply Within_bind; [within|intros file].
    apply Within_bind; [within|intros bin].
    destruct (FitSync.truthy sha); [|constructor].
    apply Within_bind; [apply getBlob_quarantines|intros content].
    destruct (decide _); [|constructor].
    apply Within_bind;
      [apply Within_call; cbn; apply orb_true_iff; right;
       exact (quarantine_path_prefixed (ClashStatus.path clash))|intros _].
    apply Within_bind; [|intros _; constructor].
    apply Within_call. cbn.
    exact (quarantine_path_prefixed (ClashStatus.path clash)).
Qed.

Lemma resolveConflicts_quarantines (P : Platform)
    (removeLineEndings : string -> string) (fit : Fit.t)
    (clashedFiles : list ClashStatus.t) (tree : gmap string string) :
  Within isQuarantine
    (FitSync.resolveConflicts P removeLineEndings fit clashedFiles tree).
Proof.
  unfold FitSync.resolveConflicts.
  apply Within_bind; [|intros res; constructor].
  apply Within_Promise_all, Forall_fmap, Forall_forall.
  intros clash _. apply resolveFileConflict_quarantines.
Qed.

(** X11. The resolution of conflicts touches the vault only under [_fit]:
    whatever the environment answers, the commands of [resolveConflicts]
    are reads of vault files, fetches of blobs, and the making of folders
    and the writing of files whose path is [_fit] or starts with
    ["_fit/"]. *)
Theorem resolveConflicts_writes_only_under_fit (P : Platform)
    (removeLineEndings : string -> string) (fit : Fit.t)
    (clashedFiles : list ClashStatus.t) (tree : gmap string string)
    (St : Type) (h : Handler St) (s : St) :
  forallb isQuarantine
    (run h (FitSync.resolveConflicts P removeLineEndings fit clashedFiles tree)
       s).2 = true.
Proof.
  apply Within_run, resolveConflicts_quarantines.
Qed.

(** ** The outcome of a conflict *)

Section Conflicts.
Context {St : Type} (h : Handler St).

Lemma run_call {R : Type} (c : Cmd R) (s : St) :
  run h (call c) s
  = match h _ c s with
    | (Ok r, s1) => (Ok r, s1, [Ev c])
    | (Thrown e, s1) => (Thrown e, s1, [Ev c])
    end.
Proof. cbn. destruct (h R c s) as [[r|e] s1]; reflexivity. Qed.

Lemma run_getBlob (P : Platform) (fit : Fit.t) (file_sha : string) (s : St) :
  run h (Fit.getBlob P fit file_sha) s
  = match h _ (GET_blobs file_sha) s with
    | (Ok content, s1) =>
        (Ok match Encryption.decrypt P (Fit.encryption fit)
                    (JS.remove_all "010" content) with
            | Some plainText => plainText
            | None => content
            end, s1, [Ev (GET_blobs file_sha)])
    | (Thrown e, s1) => (Thrown e, s1, [Ev (GET_blobs file_sha)])
    end.
Proof.
  unfold Fit.getBlob. rewrite run_bind, run_call.
  destruct (h _ (GET_blobs file_sha) s) as [[content|e] s1]; [|reflexivity].
  destruct (Encryption.decrypt _ _ _); reflexivity.
Qed.

Context (P : Platform) (removeLineEndings : string -> string) (fit : Fit.t).

Lemma resolveFileConflict_Ok (clash : ClashStatus.t) (sha : option string)
    (s s' : St) (res : ConflictResolutionResult.t) (tr : list Event) :
  run h (FitSync.resolveFileConflict P removeLineEndings fit clash sha) s
  = (Ok res, s', tr) ->
  let path := ClashStatus.path clash in
  (res = {| ConflictResolutionResult.path := path;
            ConflictResolutionResult.noDiff := true;
            ConflictResolutionResult.fileOp := None |}
   /\ existsb isWrite tr = false)
  \/ (res = {| ConflictResolutionResult.path := path;
               ConflictResolutionResult.noDiff := false;
               ConflictResolutionResult.fileOp := None |}
      /\ existsb isWrite tr = false
      /\ ClashStatus.localStatus clash <> deleted
      /\ FitSync.truthy sha = false)
  \/ (res = {| ConflictResolutionResult.path := path;
               ConflictResolutionResult.noDiff := false;
               ConflictResolutionResult.fileOp :=
                 Some (FileOpRecord.make ("_fit/" ++ path) created) |}
      /\ existsb isWrite tr = true).
Proof.
  intros Hrun path. revert Hrun.
  unfold FitSync.resolveFileConflict, FitSync.handleLocalDeletionConflict.
  fold path.
  destruct (decide (_ /\ _)) as [_|_].
  { cbn. intros [= <- <- <-]. left. split; reflexivity. }
  destruct (decide (ClashStatus.localStatus clash = deleted)) as [Hd|Hd].
  - rewrite run_bind, run_getBlob.
    destruct (h _ (GET_blobs _) s) as [[content|e] s1]; [|discriminate].
    cbn [bind call_detached run].
    destruct (h _ (EnsureFolderExists "_fit") s1) as [o1 s2].
    destruct (h _ (WriteToLocal _ _) s2) as [o2 s3].
    intros [= <- <- <-]. right. right. split; reflexivity.
  - rewrite run_bind, run_call.
    destruct (h _ (GetTFile path) s) as [[file|e] s1]; [|discriminate].
    rewrite run_bind, run_call.
    destruct (h _ (ReadBinary file) s1) as [[bin|e] s2]; [|discriminate].
    destruct (FitSync.truthy sha) eqn:Ht.
    + rewrite run_bind, run_getBlob.
      destruct (h _ (GET_blobs _) s2) as [[content|e] s3]; [|discriminate].
      destruct (decide _) as [_|_].
      * rewrite run_bind, run_call.
        destruct (h _ (EnsureFolderExists _) s3) as [[[]|e] s4];
          [|discriminate].
        rewrite run_bind, run_call.
        destruct (h _ (WriteToLocal _ _) s4) as [[[]|e] s5]; [|discriminate].
        cbn. intros [= <- <- <-]. right. right. split; reflexivity.
      * cbn. intros [= <- <- <-]. left. split; reflexivity.
    + cbn. intros [= <- <- <-]. right. left. auto.
Qed.

Lemma imap_lookup_zip {C R : Type} (g : R -> bool) (cl : list C)
    (rs : list R) :
  length cl = length rs ->
  imap (fun i r => if g r then cl !! i else None) rs
  = (fun cr => if g cr.2 then Some cr.1 else None) <$> zip cl rs.
Proof.
  revert rs. induction cl as [|c cl IH]; intros [|r rs] Hlen;
    try discriminate; [reflexivity|].
  cbn [imap zip zip_with fmap list_fmap]. f_equal.
  rewrite <- IH by (cbn in Hlen; lia).
  apply imap_ext. intros i x _. reflexivity.
Qed.

End Conflicts.

(** X12. What [resolveFileConflict] returns says what it did: the result
    carries the path of the clash; it carries a file operation exactly
    when a write was issued, and that operation is the creation of
    [_fit/<path>] in a result that reports a difference; and a file that
    is still in the vault while the remote tree lists no id for it is
    reported as different with nothing set aside. *)
Theorem resolveFileConflict_result_shape (P : Platform)
    (removeLineEndings : string -> string) (fit : Fit.t)
    (clash : ClashStatus.t) (sha : option string)
    (St : Type) (h : Handler St) (s s' : St)
    (res : ConflictResolutionResult.t) (tr : list Event) :
  run h (FitSync.resolveFileConflict P removeLineEndings fit clash sha) s
  = (Ok res, s', tr) ->
  ConflictResolutionResult.path res = ClashStatus.path clash
  /\ (is_Some (ConflictResolutionResult.fileOp res)
      <-> existsb isWrite tr = true)
  /\ (forall op, ConflictResolutionResult.fileOp res = Some op ->
        op = FileOpRecord.make ("_fit/" ++ ClashStatus.path clash) created
        /\ ConflictResolutionResult.noDiff res = false)
  /\ (ClashStatus.localStatus clash <> deleted ->
      FitSync.truthy sha = false ->
      ConflictResolutionResult.noDiff res = false
      /\ ConflictResolutionResult.fileOp res = None).
Proof.
  intros Hrun. pose proof (resolveFileConflict_Ok h _ _ _ _ _ _ _ _ _ Hrun) as H.
  cbn zeta in H.
  assert (Hsha : ClashStatus.localStatus clash <> deleted ->
                 FitSync.truthy sha = false ->
                 ConflictResolutionResult.noDiff res = false
                 /\ ConflictResolutionResult.fileOp res = None).
  { intros Hd Ht. revert Hrun. unfold FitSync.resolveFileConflict.
    destruct (decide (_ /\ _)) as [[Hc _]|_]; [contradiction|].
    destruct (decide _) as [Hc|_]; [contradiction|].
    rewrite run_bind, run_call.
    destruct (h _ (GetTFile _) s) as [[file|e] s1]; [|discriminate].
    rewrite run_bind, run_call.
    destruct (h _ (ReadBinary file) s1) as [[bin|e] s2]; [|discriminate].
    rewrite Ht. cbn. intros [= <- <- <-]. split; reflexivity. }
  destruct H as [[-> Hw]|[[-> [Hw _]]|[-> Hw]]]; cbn;
    (split; [reflexivity|]); (split; [|split; [|exact Hsha]]).
  - rewrite Hw. split; [intros [x Hx]|]; discriminate.
  - intros op; discriminate.
  - rewrite Hw. split; [intros [x Hx]|]; discriminate.
  - intros op; discriminate.
  - rewrite Hw. split; eauto.
  - intros op [= <-]. split; reflexivity.
Qed.

Lemma resolveFileConflict_result_shape_witness :
  exists res w tr,
    run Scenario.handler
      (FitSync.resolveFileConflict Sample.platform Scenario.removeLineEndings
         (Scenario.fit Scenario.emptyStore) Scenario.clashOnNote (Some "b3"))
      Scenario.worldWithClash = (Ok res, w, tr)
    /\ ConflictResolutionResult.fileOp res
       = Some (FileOpRecord.make "_fit/notes/a.md" created).
Proof.
  destruct (run Scenario.handler
      (FitSync.resolveFileConflict Sample.platform Scenario.removeLineEndings
         (Scenario.fit Scenario.emptyStore) Scenario.clashOnNote (Some "b3"))
      Scenario.worldWithClash) as [[o w] tr] eqn:Hrun.
  pose proof Hrun as Hres. vm_compute in Hres.
  destruct o as [res|e]; [|discriminate Hres].
  destruct (resolveFileConflict_result_shape _ _ _ _ _ _ _ _ _ _ _ Hrun)
    as [_ [_ [Hop _]]].
  exists res, w, tr. split; [reflexivity|].
  destruct (ConflictResolutionResult.fileOp res) as [op|] eqn:Hf.
  - destruct (Hop op eq_refl) as [-> _]. reflexivity.
  - exfalso. injection Hres as Hres _ _. subst res. discriminate Hf.
Defined.

(** X13. When the file was deleted here and changed on the remote, the
    two calls on the vault are not awaited: once the blob is fetched,
    [resolveFileConflict] returns the creation of [_fit/<path>] whatever
    the vault answers, also when the folder could not be made or the file
    could not be written; and the folder it asks for is [_fit] itself, not
    the folder of the file. *)
Theorem resolveFileConflict_local_deletion_ignores_vault (P : Platform)
    (removeLineEndings : string -> string) (fit : Fit.t)
    (clash : ClashStatus.t) (sha : option string)
    (St : Type) (h : Handler St) (s s1 : St) (content : string) :
  ClashStatus.localStatus clash = deleted ->
  ClashStatus.remoteStatus clash <> REMOVED ->
  h _ (GET_blobs (FitSync.routeParameter sha)) s = (Ok content, s1) ->
  let path := ClashStatus.path clash in
  let remoteContent :=
    match Encryption.decrypt P (Fit.encryption fit)
            (JS.remove_all "010" content) with
    | Some plainText => plainText
    | None => content
    end in
  exists s',
    run h (FitSync.resolveFileConflict P removeLineEndings fit clash sha) s
    = (Ok {| ConflictResolutionResult.path := path;
             ConflictResolutionResult.noDiff := false;
             ConflictResolutionResult.fileOp :=
               Some (FileOpRecord.make ("_fit/" ++ path) created) |},
       s',
       [Ev (GET_blobs (FitSync.routeParameter sha));
        Ev (EnsureFolderExists "_fit");
        Ev (WriteToLocal ("_fit/" ++ path) remoteContent)]).
Proof.
  intros Hl Hr Hb path remoteContent.
  unfold FitSync.resolveFileConflict, FitSync.handleLocalDeletionConflict.
  fold path.
  destruct (decide (_ /\ _)) as [[_ Hc]|_]; [contradiction|].
  destruct (decide _) as [_|Hc]; [|contradiction].
  rewrite run_bind, run_getBlob, Hb. fold remoteContent.
  cbn [bind call_detached run].
  destruct (h _ (EnsureFolderExists "_fit") s1) as [o1 s2].
  destruct (h _ (WriteToLocal _ _) s2) as [o2 s3].
  exists s3. reflexivity.
Qed.

Lemma resolveFileConflict_local_deletion_ignores_vault_witness :
  exists w,
    run ReadOnly.handler
      (FitSync.resolveFileConflict Sample.platform Scenario.removeLineEndings
         (Scenario.fit Scenario.emptyStore)
         {| ClashStatus.path := "notes/a.md"; ClashStatus.localStatus := deleted;
            ClashStatus.remoteStatus := MODIFIED |} (Some "b3"))
      {| World.vault := ∅; World.store := Scenario.emptyStore;
         World.remote := Scenario.clashedRemote |}
    = (Ok {| ConflictResolutionResult.path := "notes/a.md";
             ConflictResolutionResult.noDiff := false;
             ConflictResolutionResult.fileOp :=
               Some (FileOpRecord.make "_fit/notes/a.md" created) |},
       w,
       [Ev (GET_blobs "b3"); Ev (EnsureFolderExists "_fit");
        Ev (WriteToLocal "_fit/notes/a.md" "d29ybGQ=")])
    /\ World.vault w !! "_fit/notes/a.md" = None.
Proof.
  destruct (resolveFileConflict_local_deletion_ignores_vault Sample.platform
              Scenario.removeLineEndings (Scenario.fit Scenario.emptyStore)
              {| ClashStatus.path := "notes/a.md";
                 ClashStatus.localStatus := deleted;
                 ClashStatus.remoteStatus := MODIFIED |} (Some "b3")
              _ ReadOnly.handler
              {| World.vault := ∅; World.store := Scenario.emptyStore;
                 World.remote := Scenario.clashedRemote |}
              {| World.vault := ∅; World.store := Scenario.emptyStore;
                 World.remote := Scenario.clashedRemote |}
              "AAAAAAAAAAAAAAAAZDI5eWJHUT1H"
              eq_refl ltac:(discriminate) eq_refl) as [w Hw].
  exists w. split; [exact Hw|].
  vm_compute in Hw. injection Hw as <-. reflexivity.
Defined.

Section Resolutions.
Context {St : Type} (h : Handler St).
Context (P : Platform) (removeLineEndings : string -> string) (fit : Fit.t).
Context (tree : gmap string string).

Lemma resolutions_settled (clashedFiles : list ClashStatus.t)
    (s s' : St) (rs : list ConflictResolutionResult.t) (tr : list Event) :
  run h (Promise_all
           ((fun clash =>
               FitSync.resolveFileConflict P removeLineEndings fit clash
                 (tree !! ClashStatus.path clash)) <$> clashedFiles)) s
  = (Ok rs, s', tr) ->
  Forall2 settled clashedFiles rs.
Proof.
  intros Hrun. apply Promise_all_Ok in Hrun.
  apply Forall2_fmap_l in Hrun.
  eapply Forall2_impl; [exact Hrun|].
  intros clash res [s0 [s1 [t Hres]]]. cbn beta in Hres.
  apply resolveFileConflict_Ok in Hres. cbn zeta in Hres. unfold settled.
  destruct Hres as [[-> _]|[[-> _]|[-> _]]]; cbn; auto.
Qed.

Lemma settled_aggregate (clashedFiles : list ClashStatus.t)
    (rs : list ConflictResolutionResult.t) :
  Forall2 settled clashedFiles rs ->
  let unresolved :=
    omap id ((fun cr => if negb (ConflictResolutionResult.noDiff cr.2)
                        then Some cr.1 else None) <$> zip clashedFiles rs) in
  let ops := omap ConflictResolutionResult.fileOp rs in
  (forallb ConflictResolutionResult.noDiff rs = true <-> unresolved = [])
  /\ sublist unresolved clashedFiles
  /\ Forall (fun op : FileOpRecord.t =>
               LocalChange.status op = created
               /\ exists clash, clash ∈ unresolved
                    /\ LocalChange.path op = "_fit/" ++ ClashStatus.path clash)
            ops
  /\ (length ops <= length unresolved)%nat.
Proof.
  induction 1 as [|clash res cl rs Hs _ IH]; cbn zeta.
  - cbn. repeat split; auto; constructor.
  - cbn zeta in IH. destruct IH as [Hall [Hsub [Hops Hlen]]].
    cbn [zip zip_with fmap list_fmap omap list_omap forallb fst snd].
    unfold settled in Hs.
    destruct (ConflictResolutionResult.noDiff res) eqn:Hn; cbn [negb id andb].
    + destruct (ConflictResolutionResult.fileOp res) as [op|] eqn:Hf.
      { destruct Hs as [_ Hs]. discriminate Hs. }
      cbn. split; [exact Hall|]. split; [apply sublist_cons; exact Hsub|].
      split; [exact Hops|exact Hlen].
    + cbn [id]. split; [split; discriminate|].
      split; [apply sublist_skip; exact Hsub|].
      destruct (ConflictResolutionResult.fileOp res) as [op|] eqn:Hf.
      * destruct Hs as [-> _]. split.
        -- constructor.
           ++ split; [reflexivity|]. exists clash. split; [left|reflexivity].
           ++ eapply Forall_impl; [exact Hops|].
              intros op [Hc [c [Hin Hp]]]. split; [exact Hc|].
              exists c. split; [right; exact Hin|exact Hp].
        -- cbn [length]. lia.
      * split.
        -- eapply Forall_impl; [exact Hops|].
           intros op [Hc [c [Hin Hp]]]. split; [exact Hc|].
           exists c. split; [right; exact Hin|exact Hp].
        -- cbn [length]. lia.
Qed.

Lemma resolveConflicts_Ok (clashedFiles : list ClashStatus.t)
    (s s' : St) (res : FitSync.ResolveConflictsResult.t) (tr : list Event) :
  run h (FitSync.resolveConflicts P removeLineEndings fit clashedFiles tree) s
  = (Ok res, s', tr) ->
  let unresolved := FitSync.ResolveConflictsResult.unresolvedFiles res in
  let ops := FitSync.ResolveConflictsResult.fileOpsRecord res in
  (FitSync.ResolveConflictsResult.noConflict res = true <-> unresolved = [])
  /\ sublist unresolved clashedFiles
  /\ Forall (fun op : FileOpRecord.t =>
               LocalChange.status op = created
               /\ exists clash, clash ∈ unresolved
                    /\ LocalChange.path op = "_fit/" ++ ClashStatus.path clash)
            ops
  /\ (length ops <= length unresolved)%nat.
Proof.
  unfold FitSync.resolveConflicts. rewrite run_bind.
  destruct (run h (Promise_all _) s) as [[[rs|e] s1] t1] eqn:Hall;
    [|discriminate].
  cbn. intros [= <- <- <-]. cbn.
  apply resolutions_settled in Hall.
  pose proof (Forall2_length _ _ _ Hall) as Hlen.
  rewrite (imap_lookup_zip
             (fun r => negb (ConflictResolutionResult.noDiff r))
             clashedFiles rs Hlen).
  apply settled_aggregate. exact Hall.
Qed.

End Resolutions.

(** X14. What [resolveConflicts] returns hangs together: it reports no
    conflict exactly when no file is left unresolved; the unresolved files
    are clashes it was given, in their order; every file operation is the
    creation of [_fit/<path>] for an unresolved file; so no more files are
    set aside than are unresolved. *)
Theorem resolveConflicts_result_consistent (P : Platform)
    (removeLineEndings : string -> string) (fit : Fit.t)
    (clashedFiles : list ClashStatus.t) (tree : gmap string string)
    (St : Type) (h : Handler St) (s s' : St)
    (res : FitSync.ResolveConflictsResult.t) (tr : list Event) :
  run h (FitSync.resolveConflicts P removeLineEndings fit clashedFiles tree) s
  = (Ok res, s', tr) ->
  (FitSync.ResolveConflictsResult.noConflict res = true
   <-> FitSync.ResolveConflictsResult.unresolvedFiles res = [])
  /\ sublist (FitSync.ResolveConflictsResult.unresolvedFiles res) clashedFiles
  /\ Forall (fun op : FileOpRecord.t =>
               LocalChange.status op = created
               /\ exists clash,
                    clash ∈ FitSync.ResolveConflictsResult.unresolvedFiles res
                    /\ LocalChange.path op = "_fit/" ++ ClashStatus.path clash)
            (FitSync.ResolveConflictsResult.fileOpsRecord res)
  /\ (length (FitSync.ResolveConflictsResult.fileOpsRecord res)
      <= length (FitSync.ResolveConflictsResult.unresolvedFiles res))%nat.
Proof. intros Hrun. exact (resolveConflicts_Ok h P _ fit tree _ _ _ _ _ Hrun). Qed.

Lemma resolveConflicts_result_consistent_witness :
  exists res w tr,
    run Scenario.handler
      (FitSync.resolveConflicts Sample.platform Scenario.removeLineEndings
         (Scenario.fit Scenario.emptyStore) [Scenario.clashOnNote]
         {[ "notes/a.md" := "b3" ]}) Scenario.worldWithClash
    = (Ok res, w, tr)
    /\ FitSync.ResolveConflictsResult.noConflict res = false
    /\ sublist (FitSync.ResolveConflictsResult.unresolvedFiles res)
         [Scenario.clashOnNote].
Proof.
  destruct (run Scenario.handler
      (FitSync.resolveConflicts Sample.platform Scenario.removeLineEndings
         (Scenario.fit Scenario.emptyStore) [Scenario.clashOnNote]
         {[ "notes/a.md" := "b3" ]}) Scenario.worldWithClash)
    as [[o w] tr] eqn:Hrun.
  pose proof Hrun as Hres. vm_compute in Hres.
  destruct o as [res|e]; [|discriminate Hres].
  destruct (resolveConflicts_result_consistent _ _ _ _ _ _ _ _ _ _ _ Hrun)
    as [_ [Hsub _]].
  exists res, w, tr. split; [reflexivity|]. split; [|exact Hsub].
  injection Hres as Hres _ _. subst res. reflexivity.
Defined.

(** ** Trees *)

Lemma decryptNodePath_encryptNodePath (P : Platform) (fit : Fit.t)
    (node : TreeNode.t) :
  Encryption.inflate_inverts_deflate P ->
  Encryption.valid_path P (TreeNode.path node) ->
  Fit.decryptNodePath P fit (Fit.encryptNodePath P fit node) = node.
Proof.
  intros Hz Hp. unfold Fit.decryptNodePath, Fit.encryptNodePath.
  cbn [TreeNode.path TreeNode.mode TreeNode.type TreeNode.sha].
  rewrite (decryptPath_encryptPath P _ _ Hz Hp). destruct node; reflexivity.
Qed.

(** X15. What [createTree] uploads, [getTree] reads back.  The nodes are
    posted with their paths encrypted, each as one token without a [/], so
    the tree on the remote is flat; and when a tree request answers with
    the posted nodes, [getTree] returns the nodes that were given to
    [createTree], with their paths, modes, types and ids. *)
Theorem getTree_reads_what_createTree_uploaded (P : Platform) (fit : Fit.t)
    (treeNodes : list TreeNode.t) (base_tree_sha : string)
    (St : Type) (h : Handler St) (s : St) :
  Encryption.inflate_inverts_deflate P ->
  Forall (fun node => Encryption.valid_path P (TreeNode.path node)) treeNodes ->
  let posted := Fit.encryptNodePath P fit <$> treeNodes in
  (run h (Fit.createTree P fit treeNodes base_tree_sha) s).2
  = [Ev (POST_trees posted base_tree_sha)]
  /\ Forall (fun node =>
               forall c, In c (list_ascii_of_string (TreeNode.path node)) ->
                         c <> "/"%char) posted
  /\ forall (St' : Type) (h' : Handler St') (t t1 : St') (tree_sha : string),
       h' _ (GET_trees tree_sha) t = (Ok posted, t1) ->
       run h' (Fit.getTree P fit tree_sha) t
       = (Ok treeNodes, t1, [Ev (GET_trees tree_sha)]).
Proof.
  intros Hz Hvalid posted. split; [|split].
  - unfold Fit.createTree. rewrite run_call.
    destruct (h _ _ s) as [[r|e] s1]; reflexivity.
  - apply Forall_fmap, Forall_forall. intros node _ c Hin.
    cbn in Hin. apply url_token_chars in Hin.
    intros ->. discriminate Hin.
  - intros St' h' t t1 tree_sha Hget. unfold Fit.getTree.
    rewrite run_bind, run_call, Hget. cbn. do 2 f_equal. f_equal.
    subst posted. rewrite <- list_fmap_compose.
    rewrite <- (list_fmap_id treeNodes) at 2.
    apply Forall_fmap_ext_1. eapply Forall_impl; [exact Hvalid|].
    intros node Hp. cbn. apply decryptNodePath_encryptNodePath; assumption.
Qed.

Lemma getTree_reads_what_createTree_uploaded_witness :
  run Scenario.handler
    (Fit.getTree Sample.platform (Scenario.fit Scenario.emptyStore) "c1")
    Scenario.worldInSync
  = (Ok [ {| TreeNode.path := "notes/a.md"; TreeNode.mode := Some m100644;
             TreeNode.type := Some blob; TreeNode.sha := Some "b1" |} ],
     Scenario.worldInSync, [Ev (GET_trees "c1")]).
Proof.
  destruct (getTree_reads_what_createTree_uploaded Sample.platform
              (Scenario.fit Scenario.emptyStore)
              [ {| TreeNode.path := "notes/a.md"; TreeNode.mode := Some m100644;
                   TreeNode.type := Some blob; TreeNode.sha := Some "b1" |} ]
              "t0" _ Scenario.handler Scenario.worldInSync)
    as [_ [_ Hread]].
  - intros b. reflexivity.
  - repeat constructor.
  - apply Hread. reflexivity.
Defined.

(** ** Fingerprints *)

Section Hex.

Lemma toHex_digits (b : byte) :
  exists hi lo, Fit.toHex b = String hi (String lo EmptyString)
                /\ isHexDigit hi = true /\ isHexDigit lo = true
                /\ fromHex hi lo = Some b.
Proof.
  exists (Fit.hexDigit (Byte.to_N b / 16)), (Fit.hexDigit (Byte.to_N b mod 16)).
  split; [reflexivity|]. destruct b; vm_compute; auto.
Qed.

Lemma hex_cons (b : byte) (l : list byte) :
  String.concat "" (Fit.toHex <$> b :: l)
  = Fit.toHex b ++ String.concat "" (Fit.toHex <$> l).
Proof.
  destruct l as [|b' l]; reflexivity.
Qed.

Lemma hex_injective (l1 l2 : list byte) :
  String.concat "" (Fit.toHex <$> l1) = String.concat "" (Fit.toHex <$> l2) ->
  l1 = l2.
Proof.
  revert l2. induction l1 as [|b1 l1 IH]; intros [|b2 l2].
  - reflexivity.
  - rewrite hex_cons. destruct (toHex_digits b2) as [hi [lo [-> _]]].
    discriminate.
  - rewrite hex_cons. destruct (toHex_digits b1) as [hi [lo [-> _]]].
    discriminate.
  - rewrite !hex_cons.
    destruct (toHex_digits b1) as [h1 [o1 [-> [_ [_ F1]]]]].
    destruct (toHex_digits b2) as [h2 [o2 [-> [_ [_ F2]]]]].
    intros [= -> -> H]. f_equal; [congruence|]. apply IH. exact H.
Qed.

Lemma hex_length (l : list byte) :
  String.length (String.concat "" (Fit.toHex <$> l)) = 2 * length l.
Proof.
  induction l as [|b l IH]; [reflexivity|].
  rewrite hex_cons. destruct (toHex_digits b) as [hi [lo [-> _]]].
  change (String hi (String lo "") ++ ?s) with (String hi (String lo s)).
  cbn [String.length length]. rewrite IH. lia.
Qed.

Lemma hex_chars (l : list byte) :
  forallb isHexDigit (list_ascii_of_string (String.concat "" (Fit.toHex <$> l)))
  = true.
Proof.
  induction l as [|b l IH]; [reflexivity|].
  rewrite hex_cons. destruct (toHex_digits b) as [hi [lo [-> [Hh [Hl _]]]]].
  change (String hi (String lo "") ++ ?s) with (String hi (String lo s)).
  cbn [list_ascii_of_string forallb]. rewrite Hh, Hl, IH. reflexivity.
Qed.

End Hex.

(** X16. The fingerprint loses nothing of the digest: [fileSha1] writes
    two lower-case hexadecimal digits for each byte of the SHA-1, so two
    texts have the same fingerprint exactly when their digests are the
    same. *)
Theorem fileSha1_renders_digest (P : Platform) (a b : string) :
  (Fit.fileSha1 P a = Fit.fileSha1 P b
   <-> sha1 P (utf8_encode P a) = sha1 P (utf8_encode P b))
  /\ String.length (Fit.fileSha1 P a) = 2 * length (sha1 P (utf8_encode P a))
  /\ forallb isHexDigit (list_ascii_of_string (Fit.fileSha1 P a)) = true.
Proof.
  unfold Fit.fileSha1. split; [split|split].
  - apply hex_injective.
  - intros ->. reflexivity.
  - apply hex_length.
  - apply hex_chars.
Qed.

Lemma fileSha1_renders_digest_witness :
  Fit.fileSha1 Sample.platform "notes/a.md"
  <> Fit.fileSha1 Sample.platform "notes/b.md"
  /\ String.length (Fit.fileSha1 Sample.platform "notes/a.md") = 20.
Proof.
  destruct (fileSha1_renders_digest Sample.platform "notes/a.md" "notes/b.md")
    as [Hiff [Hlen _]].
  split.
  - intros H. apply Hiff in H. vm_compute in H. discriminate H.
  - rewrite Hlen. reflexivity.
Defined.

(** ** Failures of the remote *)

(** X17. When the request for the ref fails, [sync] fails with an
    [OctokitHttpError] that carries the message and the status of the
    failure and names [getRef] as its source; by then the vault was read
    for the local fingerprints, and nothing else was asked of the
    environment: no tree is fetched and nothing is saved. *)
Theorem sync_reports_getRef_failure (P : Platform)
    (removeLineEndings : string -> string) (fit : Fit.t)
    (St : Type) (h : Handler St) (s s0 s1 s2 : St)
    (cur : gmap string string) (t1 : list Event) (e : Error.t) :
  h _ (SetMessage "Performing pre sync checks.") s = (Ok tt, s0) ->
  run h (Fit.computeLocalSha P) s0 = (Ok cur, s1, t1) ->
  h _ (GET_ref ("heads/" ++ Fit.branch fit)) s1 = (Thrown e, s2) ->
  run h (FitSync.sync P removeLineEndings fit) s
  = (Thrown (Fit.OctokitHttpError (Error.message e) (Error.status e) "getRef"),
     s2,
     (Ev (SetMessage "Performing pre sync checks.") :: t1
      ++ [Ev (GET_ref ("heads/" ++ Fit.branch fit))])%list)
  /\ forallb isRead t1 = true.
Proof.
  intros Hm Hc Hr. split.
  - unfold FitSync.sync. rewrite run_bind, run_call, Hm.
    rewrite run_bind. unfold FitSync.performPreSyncChecks.
    rewrite run_bind, Hc. unfold Fit.getLocalChanges. cbn [bind].
    rewrite run_bind.
    unfold Fit.remoteUpdated, Fit.getLatestRemoteCommitSha, Fit.getRef.
    cbn [call try_catch bind run]. rewrite Hr. reflexivity.
  - pose proof (Within_run isRead h _ s0 (computeLocalSha_reads P)) as H.
    rewrite Hc in H. exact H.
Qed.

Lemma sync_reports_getRef_failure_witness :
  run Unauthorized.handler
    (FitSync.sync Sample.platform Scenario.removeLineEndings
       (Scenario.fit Scenario.syncedStore)) Scenario.worldInSync
  = (Thrown (Fit.OctokitHttpError "Bad credentials" (Some 401) "getRef"),
     Scenario.worldInSync,
     [Ev (SetMessage "Performing pre sync checks."); Ev VaultGetFiles;
      Ev (GetTFile "notes/a.md");
      Ev (ReadBinary {| TFile.path := "notes/a.md" |});
      Ev (GET_ref "heads/main")]).
Proof.
  destruct (run Unauthorized.handler (Fit.computeLocalSha Sample.platform)
              Scenario.worldInSync) as [[o w] t1] eqn:Hc.
  pose proof Hc as Hres. vm_compute in Hres.
  destruct o as [cur|e]; [|discriminate Hres].
  injection Hres as _ <- <-.
  exact (proj1 (sync_reports_getRef_failure Sample.platform
                  Scenario.removeLineEndings (Scenario.fit Scenario.syncedStore)
                  _ Unauthorized.handler Scenario.worldInSync
                  Scenario.worldInSync Scenario.worldInSync
                  Scenario.worldInSync cur _ Unauthorized.refused
                  eq_refl Hc eq_refl)).
Defined.

(** ** What [sync] saves *)

(** X18. When the pre-sync checks find that only the head of the remote
    moved, [sync] saves the new commit id alone: the record it hands to
    the callback has neither local nor remote fingerprints, so those of
    the snapshot stay; no file is read or written after the checks, and
    [sync] resolves to nothing. *)
Theorem sync_head_moved_saves_commit_only (P : Platform)
    (removeLineEndings : string -> string) (fit : Fit.t)
    (St : Type) (h : Handler St) (s s0 s1 s2 s3 : St)
    (ru : RemoteUpdate.t) (lc : list LocalChange.t)
    (lts : gmap string string) (t1 : list Event) :
  let saved :=
    {| PartialLocalStores.lastFetchedRemoteSha := None;
       PartialLocalStores.lastFetchedCommitSha :=
         Some (RemoteUpdate.latestRemoteCommitSha ru);
       PartialLocalStores.localSha := None |} in
  h _ (SetMessage "Performing pre sync checks.") s = (Ok tt, s0) ->
  run h (FitSync.performPreSyncChecks P fit) s0
  = (Ok (FitSync.Changes FitSync.onlyRemoteCommitShaChanged ru lc lts), s1, t1) ->
  h _ (SaveLocalStore saved) s1 = (Ok tt, s2) ->
  h _ (SetMessage "Sync successful") s2 = (Ok tt, s3) ->
  run h (FitSync.sync P removeLineEndings fit) s
  = (Ok None, s3,
     (Ev (SetMessage "Performing pre sync checks.") :: t1
      ++ [Ev (SaveLocalStore saved); Ev (SetMessage "Sync successful")])%list)
  /\ lc = [] /\ RemoteUpdate.remoteChanges ru = []
  /\ forall old,
       World.saveLocalStore saved old
       = {| LocalStores.localSha := LocalStores.localSha old;
            LocalStores.lastFetchedCommitSha :=
              Some (RemoteUpdate.latestRemoteCommitSha ru);
            LocalStores.lastFetchedRemoteSha :=
              LocalStores.lastFetchedRemoteSha old |}.
Proof.
  intros saved Hm Hpre Hsave Hdone. split; [|split; [|split]].
  - unfold FitSync.sync. rewrite run_bind, run_call, Hm.
    rewrite run_bind, Hpre.
    destruct (decide _) as [_|Hn]; [|contradiction].
    rewrite run_bind, run_call. fold saved. rewrite Hsave.
    rewrite run_bind, run_call, Hdone. reflexivity.
  - destruct (performPreSyncChecks_table P fit St h s0 s1 t1 _ ru lc lts Hpre)
      as [_ [Hhead _]].
    apply Hhead. reflexivity.
  - destruct (performPreSyncChecks_table P fit St h s0 s1 t1 _ ru lc lts Hpre)
      as [_ [Hhead _]].
    apply Hhead. reflexivity.
  - intros old. reflexivity.
Qed.

Lemma sync_head_moved_saves_commit_only_witness :
  exists w tr,
    run Scenario.handler
      (FitSync.sync Sample.platform Scenario.removeLineEndings
         (Scenario.fit Scenario.syncedStore))
      {| World.vault := World.vault Scenario.worldInSync;
         World.store := Scenario.syncedStore;
         World.remote :=
           {| Scenario.head := "c2";
              Scenario.listing := [Scenario.pushedNode];
              Scenario.blobs := ∅; Scenario.createdBlob := "";
              Scenario.pushAnswer := None |} |}
    = (Ok None, w, tr)
    /\ LocalStores.lastFetchedCommitSha (World.store w) = Some "c2"
    /\ LocalStores.localSha (World.store w)
       = LocalStores.localSha Scenario.syncedStore.
Proof.
  set (w0 := {| World.vault := World.vault Scenario.worldInSync;
                World.store := Scenario.syncedStore;
                World.remote :=
                  {| Scenario.head := "c2";
                     Scenario.listing := [Scenario.pushedNode];
                     Scenario.blobs := ∅; Scenario.createdBlob := "";
                     Scenario.pushAnswer := None |} |}).
  destruct (run Scenario.handler
              (FitSync.performPreSyncChecks Sample.platform
                 (Scenario.fit Scenario.syncedStore)) w0)
    as [[o w1] t1] eqn:Hpre.
  pose proof Hpre as Hres. vm_compute in Hres.
  destruct o as [[|st ru lc lts]|e]; try discriminate Hres.
  assert (Hst : st = FitSync.onlyRemoteCommitShaChanged) by congruence.
  pose proof (f_equal (fun x => x.1.2) Hres) as Hw. cbn [fst snd] in Hw.
  symmetry in Hw. change (w1 = w0) in Hw.
  pose proof (f_equal
                (fun x => match x.1.1 with
                          | Ok (FitSync.Changes _ u _ _) =>
                              RemoteUpdate.latestRemoteCommitSha u
                          | _ => ""
                          end) Hres) as Hc.
  cbn in Hc. symmetry in Hc.
  clear Hres. subst st w1.
  destruct (sync_head_moved_saves_commit_only Sample.platform
              Scenario.removeLineEndings (Scenario.fit Scenario.syncedStore)
              _ Scenario.handler w0 w0 w0 _ _ ru lc lts t1
              eq_refl Hpre eq_refl eq_refl) as [Hrun _].
  eexists _, _. split; [exact Hrun|]. cbn. rewrite Hc. split; reflexivity.
Defined.









(** ** Listings *)

Section Pages.
Import Listing.
Context (request : nat -> Outcome (list string)).

Lemma loop_full_pages (k fuel page : nat) (acc : list string) :
  (forall p, (page <= p < page + k)%nat -> full request p) ->
  loop request (k + fuel) page acc
  = loop request fuel (page + k)
      (acc ++ concat (names request <$> seq page k))%list.
Proof.
  revert page acc. induction k as [|k IH]; intros page acc Hfull.
  - cbn. rewrite Nat.add_0_r, app_nil_r. reflexivity.
  - destruct (Hfull page ltac:(lia)) as [response [Hr Hlen]].
    cbn [Nat.add loop]. rewrite Hr.
    destruct (Nat.ltb_spec (length response) perPage) as [Hlt|_]; [lia|].
    rewrite IH by (intros p Hp; apply Hfull; lia).
    replace (S page + k)%nat with (page + S k)%nat by lia.
    cbn [seq fmap list_fmap concat]. unfold names at 2. rewrite Hr.
    rewrite app_assoc. reflexivity.
Qed.

End Pages.

(** X21. [getRepos] returns the names of all pages up to the first short
    one, in order: when the pages before page [n] come back full and page
    [n] comes back with fewer than 100 repositories, it returns after [n]
    requests with the names of pages 1 to [n]. *)
Theorem getRepos_collects_until_short_page
    (request : nat -> Outcome (list string)) (n fuel : nat)
    (last : list string) :
  (1 <= n <= fuel)%nat ->
  (forall p, (1 <= p < n)%nat -> Listing.full request p) ->
  request n = Ok last ->
  (length last < Listing.perPage)%nat ->
  Listing.getRepos request fuel
  = Some (Ok (concat (Listing.names request <$> seq 1 n))).
Proof.
  intros Hn Hfull Hlast Hshort. destruct n as [|m]; [lia|].
  unfold Listing.getRepos.
  replace fuel with (m + S (fuel - S m))%nat by lia.
  rewrite loop_full_pages by (intros p Hp; apply Hfull; lia).
  change (1 + m)%nat with (S m).
  cbn [Listing.loop]. rewrite Hlast.
  destruct (Nat.ltb_spec (length last) Listing.perPage) as [_|Hge]; [|lia].
  do 2 f_equal. rewrite seq_S, fmap_app, concat_app.
  change (1 + m)%nat with (S m).
  cbn [app fmap list_fmap concat]. rewrite app_nil_r. f_equal.
  unfold Listing.names. rewrite Hlast. reflexivity.
Qed.

Lemma getRepos_collects_until_short_page_witness :
  Listing.getRepos Listing.twoPages 5
  = Some (Ok (repeat "repo" 100 ++ repeat "more" 30 ++ [])%list).
Proof.
  apply (getRepos_collects_until_short_page Listing.twoPages 2 5
           (repeat "more" 30)).
  - lia.
  - intros p Hp. assert (p = 1) as -> by lia.
    exists (repeat "repo" 100). split; [reflexivity|].
    rewrite repeat_length. unfold Listing.perPage. lia.
  - reflexivity.
  - rewrite repeat_length. unfold Listing.perPage. lia.
Defined.

(** X22. When the request for a page fails after full pages, [getRepos]
    throws an [OctokitHttpError] with the message and the status of the
    failure and the source [getRepos], and the names gathered so far are
    lost; [getBranches] gives its own failures the same source, so that
    the error of a failed branch listing is the one of a failed repository
    listing. *)
Theorem getRepos_failure_is_labelled
    (request : nat -> Outcome (list string)) (n fuel : nat) (error : Error.t) :
  (1 <= n <= fuel)%nat ->
  (forall p, (1 <= p < n)%nat -> Listing.full request p) ->
  request n = Thrown error ->
  Listing.getRepos request fuel
  = Some (Thrown (Fit.OctokitHttpError (Error.message error)
                    (Error.status error) "getRepos"))
  /\ Listing.getRepos request fuel = Some (Listing.getBranches (request n)).
Proof.
  intros Hn Hfull Hfail.
  assert (H : Listing.getRepos request fuel
              = Some (Thrown (Fit.OctokitHttpError (Error.message error)
                                (Error.status error) "getRepos"))).
  { unfold Listing.getRepos.
    replace fuel with ((n - 1) + S (fuel - n))%nat by lia.
    rewrite loop_full_pages by (intros p Hp; apply Hfull; lia).
    replace (1 + (n - 1))%nat with n by lia.
    cbn [Listing.loop]. rewrite Hfail. reflexivity. }
  split; [exact H|]. rewrite H, Hfail. reflexivity.
Qed.

Lemma getRepos_failure_is_labelled_witness :
  Listing.getRepos Listing.secondPageFails 5
  = Some (Thrown (Fit.OctokitHttpError "rate limit" (Some 403) "getRepos")).
Proof.
  apply (getRepos_failure_is_labelled Listing.secondPageFails 2 5
           Listing.rateLimited).
  - lia.
  - intros p Hp. assert (p = 1) as -> by lia.
    exists (repeat "repo" 100). split; [reflexivity|].
    rewrite repeat_length. unfold Listing.perPage. lia.
  - reflexivity.
Defined.

(** X23. The loop of [getRepos] ends only on a short page or a failure:
    when every page comes back full, no number of requests is enough for
    it to return. *)
Theorem getRepos_needs_a_short_page
    (request : nat -> Outcome (list string)) :
  (forall p, (1 <= p)%nat -> Listing.full request p) ->
  forall fuel, Listing.getRepos request fuel = None.
Proof.
  intros Hfull fuel. unfold Listing.getRepos.
  replace fuel with (fuel + 0)%nat by lia.
  rewrite loop_full_pages by (intros p Hp; apply Hfull; lia).
  reflexivity.
Qed.

Lemma getRepos_needs_a_short_page_witness :
  Listing.getRepos Listing.endless 1000 = None.
Proof.
  apply (getRepos_needs_a_short_page Listing.endless).
  intros p _. exists (repeat "repo" 100). split; [reflexivity|].
  rewrite repeat_length. unfold Listing.perPage. lia.
Defined.

(** X24. When only the vault changed and the push went through, [sync]
    sets the notice of success before it saves: the save is its last
    command, it carries the fingerprints that the pre-sync checks computed
    before the push, not new ones, together with the commit id and the
    remote fingerprints of the push; [sync] returns the pushed changes
    when the save succeeds, and when the save fails [sync] fails with its
    error, after the notice of success. *)
Theorem sync_local_push_notice_before_save (P : Platform)
    (removeLineEndings : string -> string) (fit : Fit.t)
    (St : Type) (h : Handler St) (s s0 s1 s2 s3 s4 s5 : St)
    (ru : RemoteUpdate.t) (lc : list LocalChange.t)
    (lts : gmap string string) (t1 : list Event)
    (result : PushResult.t) (saving : Outcome unit) :
  let localUpdate :=
    {| LocalUpdate.localChanges := lc;
       LocalUpdate.parentCommitSha := RemoteUpdate.latestRemoteCommitSha ru |} in
  let saved :=
    {| PartialLocalStores.localSha := Some lts;
       PartialLocalStores.lastFetchedRemoteSha :=
         Some (PushResult.lastFetchedRemoteSha result);
       PartialLocalStores.lastFetchedCommitSha :=
         Some (PushResult.lastFetchedCommitSha result) |} in
  h _ (SetMessage "Performing pre sync checks.") s = (Ok tt, s0) ->
  run h (FitSync.performPreSyncChecks P fit) s0
  = (Ok (FitSync.Changes FitSync.onlyLocalChanged ru lc lts), s1, t1) ->
  h _ (SetMessage "Uploading local changes") s1 = (Ok tt, s2) ->
  h _ (PushChangedFilesToRemote localUpdate) s2 = (Ok (Some result), s3) ->
  h _ (SetMessage "Sync successful") s3 = (Ok tt, s4) ->
  h _ (SaveLocalStore saved) s4 = (saving, s5) ->
  run h (FitSync.sync P removeLineEndings fit) s
  = (match saving with
     | Ok _ =>
         Ok (Some {| FitSync.SyncResult.ops :=
                       [("Local file updates:", PushResult.pushedChanges result)];
                     FitSync.SyncResult.clash := [] |})
     | Thrown e => Thrown e
     end,
     s5,
     (Ev (SetMessage "Performing pre sync checks.") :: t1
      ++ [Ev (SetMessage "Uploading local changes");
          Ev (PushChangedFilesToRemote localUpdate);
          Ev (SetMessage "Sync successful");
          Ev (SaveLocalStore saved)])%list)
  /\ lc <> []
  /\ Some (RemoteUpdate.latestRemoteCommitSha ru) = Fit.lastFetchedCommitSha fit.
Proof.
  intros localUpdate saved Hm Hpre Hup Hpush Hdone Hsave. split.
  - unfold FitSync.sync. rewrite run_bind, run_call, Hm.
    rewrite run_bind, Hpre.
    destruct (decide _) as [Hn|_]; [discriminate Hn|].
    destruct (decide _) as [Hn|_]; [discriminate Hn|].
    destruct (decide _) as [_|Hn]; [|contradiction].
    rewrite run_bind, run_call, Hup.
    rewrite run_bind, run_call. fold localUpdate. rewrite Hpush.
    rewrite run_bind, run_call, Hdone.
    rewrite run_bind, run_call. fold saved. rewrite Hsave.
    destruct saving as [[]|e]; reflexivity.
  - destruct (performPreSyncChecks_table P fit St h s0 s1 t1 _ ru lc lts Hpre)
      as [Hlocal _].
    destruct (proj1 Hlocal eq_refl) as [Hlc Hstill]. split; [exact Hlc|].
    destruct (decide (Some (RemoteUpdate.latestRemoteCommitSha ru)
                      = Fit.lastFetchedCommitSha fit)); [assumption|].
    contradiction.
Qed.

Lemma sync_local_push_notice_before_save_witness :
  exists w tr,
    run Scenario.handler
      (FitSync.sync Sample.platform Scenario.removeLineEndings
         (Scenario.fit Scenario.storeWithOldFile)) Pushed.world
    = (Ok (Some {| FitSync.SyncResult.ops :=
                     [("Local file updates:", [Scenario.deletionOfOldFile])];
                   FitSync.SyncResult.clash := [] |}), w, tr)
    /\ LocalStores.lastFetchedCommitSha (World.store w) = Some "c2".
Proof.
  destruct (run Scenario.handler
              (FitSync.performPreSyncChecks Sample.platform
                 (Scenario.fit Scenario.storeWithOldFile)) Pushed.world)
    as [[o w1] t1] eqn:Hpre.
  pose proof Hpre as Hres. vm_compute in Hres.
  destruct o as [[|st ru lc lts]|e]; try discriminate Hres.
  assert (Hst : st = FitSync.onlyLocalChanged) by congruence.
  pose proof (f_equal (fun x => x.1.2) Hres) as Hw. cbn [fst snd] in Hw.
  symmetry in Hw. change (w1 = Pushed.world) in Hw.
  clear Hres. subst st w1.
  destruct (sync_local_push_notice_before_save Sample.platform
              Scenario.removeLineEndings
              (Scenario.fit Scenario.storeWithOldFile)
              _ Scenario.handler Pushed.world Pushed.world Pushed.world
              Pushed.world Pushed.world Pushed.world _
              ru lc lts t1 Pushed.answer (Ok tt)
              eq_refl Hpre eq_refl eq_refl eq_refl eq_refl) as [Hrun _].
  eexists _, _. split; [exact Hrun|]. reflexivity.
Defined.
